(** * SSD-Tensorflow: the Pascal VOC annotator and its annotation codec

    A shallow embedding of [pascalvoc_annotator.py] and
    [datasets/generate_pascalvoc_annotations.py].

    - Python integers are [Z]; text is [string], a character standing for
      the code point of its number, so that the model covers text of code
      points below 256; a label is a Python value ([str] or [None], as
      [ElementTree] returns them). The built-ins are those of CPython 3.11
      with its defaults.
    - The file system is a finite map from path text to nodes; [os],
      [os.path], [cv2.imread] and the XML libraries are modelled by what
      the two source files observe of them.
    - Python lists that are shared between the session's fields and its
      [_annotations] dictionary live in a heap of list objects, so that the
      aliasing set up by the [index] setter is kept.
    - Code that raises is embedded in a state monad whose state survives an
      exception, as the file system does. *)

From Stdlib Require Import ZArith String Ascii List Bool Lia.
From Stdlib Require Import DecimalString DecimalZ DecimalPos.
From stdpp Require Import base option list strings gmap fin_maps.

Local Open Scope string_scope.
Local Open Scope Z_scope.

(** ** Python values, exceptions *)

Module Py.

(** The values a label can take: [ElementTree] gives [None] for an element
    without text, the command line gives a [str]. *)
Inductive pyval := PNone | PStr (s : string) | PInt (z : Z).

Inductive exn :=
| AssertionError (msg : string)
| FileNotFoundError
| FileExistsError
| IsADirectoryError
| NotADirectoryError
| ParseError
| AttributeError
| TypeError
| ValueError
| IndexError
| KeyError
| ZeroDivisionError.

(** The most decimal digits an integer may have when it is converted to or
    from text (the default of [sys.get_int_max_str_digits()]). *)
Definition MAX_STR_DIGITS : nat := 4300.

(** The number of decimal digits of [z]. *)
Definition nb_digits (z : Z) : nat :=
  match Z.to_int z with
  | Decimal.Pos d => Decimal.nb_digits d
  | Decimal.Neg d => Decimal.nb_digits d
  end.

(** [str(z)] for an integer; [None] is the [ValueError] of an integer with
    too many digits. *)
Definition str_int (z : Z) : option string :=
  if (nb_digits z <=? MAX_STR_DIGITS)%nat
  then Some (NilZero.string_of_int (Z.to_int z))
  else None.

(** [str(v)]. *)
Definition str (v : pyval) : option string :=
  match v with
  | PNone => Some "None"
  | PStr s => Some s
  | PInt z => str_int z
  end.

(** White space that [int] skips at both ends of its argument: tab to
    carriage return, the space, and of the code points from 128 on the next
    line character and the no-break space. *)
Definition is_space (a : ascii) : bool :=
  let n := nat_of_ascii a in
  ((9 <=? n)%nat && (n <=? 13)%nat) || (n =? 32)%nat ||
  (n =? 133)%nat || (n =? 160)%nat.

Definition is_digit (a : ascii) : bool :=
  let n := nat_of_ascii a in (48 <=? n)%nat && (n <=? 57)%nat.

Fixpoint lstrip (s : string) : string :=
  match s with
  | String a r => if is_space a then lstrip r else s
  | EmptyString => EmptyString
  end.

Fixpoint rstrip (s : string) : string :=
  match s with
  | EmptyString => EmptyString
  | String a r =>
      match rstrip r with
      | EmptyString => if is_space a then EmptyString else String a EmptyString
      | r' => String a r'
      end
  end.

Definition strip (s : string) : string := rstrip (lstrip s).

(** The digits of a numeral in which single underscores may stand between
    digits; [after_digit] tells whether the character before was a digit.
    [None] when there is no digit, a character that is neither, or an
    underscore that is not between two digits. *)
Fixpoint ungroup (s : string) (after_digit : bool) : option string :=
  match s with
  | EmptyString => if after_digit then Some EmptyString else None
  | String a r =>
      if Ascii.eqb a "_" then
        if after_digit then ungroup r false else None
      else if is_digit a then option_map (String a) (ungroup r true)
      else None
  end.

(** [int(s)]: white space around, one optional sign, then decimal digits,
    with single underscores between digits if any, at most
    [MAX_STR_DIGITS] of them, and nothing else. [None] is [ValueError]. *)
Definition int (s : string) : option Z :=
  let t := strip s in
  let '(neg, ds) :=
    match t with
    | String "-" r => (true, r)
    | String "+" r => (false, r)
    | _ => (false, t)
    end in
  match ungroup ds false with
  | None => None
  | Some ds' =>
      if (String.length ds' <=? MAX_STR_DIGITS)%nat then
        match NilEmpty.uint_of_string ds' with
        | Some u => Some (if neg then - Z.of_uint u else Z.of_uint u)
        | None => None
        end
      else None
  end.

(** [needle in s] on text. *)
Fixpoint contains (needle s : string) : bool :=
  String.prefix needle s ||
  match s with
  | EmptyString => false
  | String _ r => contains needle r
  end.

End Py.

(** ** [os.path] on POSIX path text *)

Module Path.

Definition sep : ascii := "/".
Definition extsep : ascii := ".".

(** [s.rfind(c)]: the index of the last [c] in [s], or [-1]. *)
Fixpoint rfind (c : ascii) (s : string) : Z :=
  match s with
  | EmptyString => -1
  | String a r =>
      let i := rfind c r in
      if 0 <=? i then i + 1
      else if Ascii.eqb a c then 0 else -1
  end.

(** The slices [s[:i]] and [s[i:]] for [0 <= i]. *)
Fixpoint take (n : nat) (s : string) : string :=
  match n, s with
  | S n', String a r => String a (take n' r)
  | _, _ => EmptyString
  end.

Fixpoint drop (n : nat) (s : string) : string :=
  match n, s with
  | S n', String _ r => drop n' r
  | _, _ => s
  end.

Definition upto (i : Z) (s : string) : string := take (Z.to_nat i) s.
Definition from (i : Z) (s : string) : string := drop (Z.to_nat i) s.

(** [s.startswith('/')], [s.endswith('/')]. *)
Definition startswith_sep (s : string) : bool :=
  match s with
  | String a _ => Ascii.eqb a sep
  | EmptyString => false
  end.

Fixpoint endswith_sep (s : string) : bool :=
  match s with
  | EmptyString => false
  | String a EmptyString => Ascii.eqb a sep
  | String _ r => endswith_sep r
  end.

(** [s.rstrip('/')]. *)
Fixpoint rstrip_sep (s : string) : string :=
  match s with
  | EmptyString => EmptyString
  | String a r =>
      match rstrip_sep r with
      | EmptyString => if Ascii.eqb a sep then EmptyString else String a EmptyString
      | r' => String a r'
      end
  end.

(** [s == '/' * len(s)]. *)
Fixpoint all_sep (s : string) : bool :=
  match s with
  | EmptyString => true
  | String a r => Ascii.eqb a sep && all_sep r
  end.

(** [os.path.join(a, b)]. *)
Definition join (a b : string) : string :=
  if startswith_sep b then b
  else if (String.eqb a "" || endswith_sep a)%bool then a ++ b
  else a ++ String sep b.

(** [os.path.basename(p)]. *)
Definition basename (p : string) : string :=
  from (rfind sep p + 1) p.

(** [os.path.dirname(p)]. *)
Definition dirname (p : string) : string :=
  let head := upto (rfind sep p + 1) p in
  if (negb (String.eqb head "") && negb (all_sep head))%bool
  then rstrip_sep head else head.

(** The loop of [splitext]: is some character of [p] at an index in
    [i, i + n) different from a dot? *)
Fixpoint has_non_dot (n : nat) (i : Z) (p : string) : bool :=
  match n with
  | O => false
  | S n' =>
      match String.get (Z.to_nat i) p with
      | Some a => if Ascii.eqb a extsep then has_non_dot n' (i + 1) p else true
      | None => true
      end
  end.

(** [os.path.splitext(p)]. *)
Definition splitext (p : string) : string * string :=
  let sepIndex := rfind sep p in
  let dotIndex := rfind extsep p in
  if (sepIndex <? dotIndex) &&
     has_non_dot (Z.to_nat (dotIndex - (sepIndex + 1))) (sepIndex + 1) p
  then (upto dotIndex p, from dotIndex p)
  else (p, "").

(** The key under which the file system holds the entry a path leads to:
    the path without the separators at its end, the root apart. Whether
    the path finds the entry is for [Fs.stat] to say: with a separator at
    its end it finds directories only. Paths with [.], [..] or doubled
    separators inside are outside the model. *)
Definition resolve (p : string) : string :=
  if all_sep p then p else rstrip_sep p.

End Path.

(** ** Element trees, as [lxml.etree] builds and [xml.etree.ElementTree] reads them *)

Module Xml.

#[warnings="-register-all"]
Inductive element :=
| Element (tag : string) (text : option string) (children : list element).

Definition tag (e : element) : string :=
  match e with Element t _ _ => t end.
Definition text (e : element) : option string :=
  match e with Element _ x _ => x end.
Definition children (e : element) : list element :=
  match e with Element _ _ c => c end.

(** [e.append(c)]. *)
Definition append (e c : element) : element :=
  match e with Element t x cs => Element t x (cs ++ [c]) end.

Definition has_tag (t : string) (e : element) : bool := String.eqb (tag e) t.

(** [e.findall(t)]: the children of [e] tagged [t], in document order. *)
Definition findall (t : string) (e : element) : list element :=
  List.filter (has_tag t) (children e).

(** [e.find(t)]: the first child of [e] tagged [t], or [None]. *)
Definition find (t : string) (e : element) : option element :=
  List.find (has_tag t) (children e).

(** The characters [lxml] takes in the text of an element: all but the
    control characters below the space other than tab, line feed and
    carriage return. *)
Definition is_char (a : ascii) : bool :=
  let n := nat_of_ascii a in
  (n =? 9)%nat || (n =? 10)%nat || (n =? 13)%nat || (32 <=? n)%nat.

Fixpoint compatible (s : string) : bool :=
  match s with
  | EmptyString => true
  | String a r => is_char a && compatible r
  end.

(** The text [ElementTree] finds where [etree.tostring] wrote the text
    [x]: what was written, but an element whose text is empty is read as one
    without text. *)
Definition reread_text (x : option string) : option string :=
  match x with
  | Some EmptyString => None
  | _ => x
  end.

(** The tree [ElementTree] reads from the bytes [etree.tostring] writes for
    a tree, as far as the reader looks at it: the tags, the children in
    their order, and the text of an element without children. The text of
    an element with children is kept as it was built; there pretty printing
    writes a line break and the indentation, and the encoder gives text to
    elements without children only. *)
Fixpoint reread (e : element) : element :=
  match e with
  | Element t x cs => Element t (reread_text x) (List.map reread cs)
  end.

End Xml.

(** ** The file system *)

Module Fs.

(** What a file holds, as far as [cv2.imread] and [ET.parse] can tell:
    pixel data of some shape, a document (the bytes [etree.tostring]
    writes for a tree, named by that tree), or neither. *)
Inductive content :=
| Pixels (height width depth : Z)
| Document (root : Xml.element)
| Other.

Inductive node := Dir | File (c : content).

(** The directory an entry lives in. The empty path is the working
    directory. *)
Definition parent (p : string) : string :=
  Path.resolve (Path.dirname (Path.resolve p)).

(** The way to an entry goes through the directory [d]: no error when [d]
    is a directory; [ENOTDIR] when [d] is a file or lies below one;
    [ENOENT] when [d] is missing otherwise. *)
Fixpoint climb (fs : gmap string node) (fuel : nat) (d : string)
  : option Py.exn :=
  match fs !! d with
  | Some Dir => None
  | Some (File _) => Some Py.NotADirectoryError
  | None =>
      match fuel with
      | O => Some Py.FileNotFoundError
      | S fuel' =>
          match climb fs fuel' (parent d) with
          | Some Py.NotADirectoryError => Some Py.NotADirectoryError
          | _ => Some Py.FileNotFoundError
          end
      end
  end.

(** What stands in the way of an entry at [p]. *)
Definition parent_error (fs : gmap string node) (p : string)
  : option Py.exn :=
  climb fs (String.length p) (parent p).

(** What the operating system finds at a path, or the error of looking:
    the empty path finds nothing, and a path with a separator at its end
    does not find a file. *)
Definition stat (fs : gmap string node) (p : string) : Py.exn + node :=
  if String.eqb p "" then inl Py.FileNotFoundError
  else
    match fs !! Path.resolve p with
    | Some Dir => inr Dir
    | Some (File c) =>
        if Path.endswith_sep p then inl Py.NotADirectoryError
        else inr (File c)
    | None =>
        match parent_error fs p with
        | Some e => inl e
        | None => inl Py.FileNotFoundError
        end
    end.

Definition lookup (fs : gmap string node) (p : string) : option node :=
  match stat fs p with
  | inr n => Some n
  | inl _ => None
  end.

(** [os.path.exists], [os.path.isdir], [os.path.isfile]. *)
Definition exists_ (fs : gmap string node) (p : string) : bool :=
  match lookup fs p with Some _ => true | None => false end.
Definition isdir (fs : gmap string node) (p : string) : bool :=
  match lookup fs p with Some Dir => true | _ => false end.
Definition isfile (fs : gmap string node) (p : string) : bool :=
  match lookup fs p with Some (File _) => true | _ => false end.

Definition entry_of (d : string) (kv : string * node) : bool :=
  negb (String.eqb kv.1 (Path.resolve d)) &&
  String.eqb (parent kv.1) (Path.resolve d).

(** [os.listdir(d)]: the names of the entries of [d], in some order. *)
Definition listdir (fs : gmap string node) (d : string)
  : Py.exn + list string :=
  match stat fs d with
  | inl e => inl e
  | inr (File _) => inl Py.NotADirectoryError
  | inr Dir =>
      inr (List.map (fun kv => Path.basename kv.1)
             (List.filter (entry_of d) (map_to_list fs)))
  end.

(** [os.remove(p)]. *)
Definition remove (fs : gmap string node) (p : string)
  : Py.exn + gmap string node :=
  match stat fs p with
  | inl e => inl e
  | inr Dir => inl Py.IsADirectoryError
  | inr (File _) => inr (delete (Path.resolve p) fs)
  end.

(** [os.mkdir(p)]. *)
Definition mkdir (fs : gmap string node) (p : string)
  : Py.exn + gmap string node :=
  if String.eqb p "" then inl Py.FileNotFoundError
  else
    match fs !! Path.resolve p with
    | Some _ => inl Py.FileExistsError
    | None =>
        match parent_error fs p with
        | Some e => inl e
        | None => inr (<[Path.resolve p := Dir]> fs)
        end
    end.

(** [with open(p, 'wb') as f: f.write(bytes)], the bytes being those of
    the content [c]. A path with a separator at its end cannot be opened
    for writing. *)
Definition write (fs : gmap string node) (p : string) (c : content)
  : Py.exn + gmap string node :=
  if String.eqb p "" then inl Py.FileNotFoundError
  else
    match fs !! Path.resolve p with
    | Some Dir => inl Py.IsADirectoryError
    | _ =>
        match parent_error fs p with
        | Some e => inl e
        | None =>
            if Path.endswith_sep p then inl Py.IsADirectoryError
            else inr (<[Path.resolve p := File c]> fs)
        end
    end.

(** [cv2.imread(p)]: the image, of which only the shape is kept, or
    [None]. *)
Definition imread (fs : gmap string node) (p : string)
  : option (Z * Z * Z) :=
  match lookup fs p with
  | Some (File (Pixels h w d)) => Some (h, w, d)
  | _ => None
  end.

(** [ET.parse(p).getroot()]: the tree read from the bytes of the file. *)
Definition parse (fs : gmap string node) (p : string)
  : Py.exn + Xml.element :=
  match stat fs p with
  | inl e => inl e
  | inr Dir => inl Py.IsADirectoryError
  | inr (File (Document root)) => inr (Xml.reread root)
  | inr (File _) => inl Py.ParseError
  end.

End Fs.

(** ** The session object, the heap of shared lists, the machine *)

(** A bounding box [(xmin, ymin, xmax, ymax)]. *)
Definition bbox : Type := Z * Z * Z * Z.

(** A list object of the heap: the boxes or the labels of one image. *)
Inductive pyobj :=
| OBoxes (l : list bbox)
| OLabels (l : list Py.pyval).

(** The fields of a [PascalVOCAnnotator] ([_name] and [_type] only concern
    the window). [_cur_bboxes] and [_cur_labels] are addresses of list
    objects, as are the pairs in [_annotations]; [_bbbox_in_progress] is
    [None] for the empty list and the four numbers otherwise; [_index] is
    [None] until the attribute is first set. *)
Record session := Session {
  _folder : string;
  _img_paths : list string;
  _cur_img : option (Z * Z * Z);
  _cur_bboxes : nat;
  _cur_labels : nat;
  _changed : bool;
  _bbbox_in_progress : option bbox;
  _annotations : gmap string (nat * nat);
  _obj_label : Py.pyval;
  _index : option Z
}.

Record machine := Machine {
  fs : gmap string Fs.node;
  heap : list pyobj;
  self : session
}.

Definition boxes_at (h : list pyobj) (a : nat) : list bbox :=
  match h !! a with Some (OBoxes l) => l | _ => [] end.

Definition labels_at (h : list pyobj) (a : nat) : list Py.pyval :=
  match h !! a with Some (OLabels l) => l | _ => [] end.

(** The current image's boxes and labels, read through the heap. *)
Definition cur_bboxes (m : machine) : list bbox :=
  boxes_at (heap m) (_cur_bboxes (self m)).
Definition cur_labels (m : machine) : list Py.pyval :=
  labels_at (heap m) (_cur_labels (self m)).

(** ** The monad: state that survives exceptions *)

Inductive result (A : Type) :=
| Ok (a : A)
| Raise (e : Py.exn).
Arguments Ok {A} a.
Arguments Raise {A} e.

Definition M (A : Type) : Type := machine -> machine * result A.

#[global] Instance M_ret : MRet M := fun A a m => (m, Ok a).
#[global] Instance M_bind : MBind M := fun A B k c m =>
  match c m with
  | (m', Ok a) => k a m'
  | (m', Raise e) => (m', Raise e)
  end.

Definition raise {A} (e : Py.exn) : M A := fun m => (m, Raise e).

(** Code that touches no state: a value or an exception. *)
#[global] Instance result_ret : MRet result := fun A a => Ok a.
#[global] Instance result_bind : MBind result := fun A B k r =>
  match r with
  | Ok a => k a
  | Raise e => Raise e
  end.

Definition lift {A} (r : result A) : M A :=
  match r with
  | Ok a => mret a
  | Raise e => raise e
  end.

(** [assert b, msg]. *)
Definition py_assert (b : bool) (msg : string) : M unit :=
  if b then mret tt else raise (Py.AssertionError msg).

(** A call into [os] that may raise and may change the file system. *)
Definition os_call {A} (f : gmap string Fs.node -> Py.exn + A) : M A :=
  fun m => match f (fs m) with
           | inl e => (m, Raise e)
           | inr a => (m, Ok a)
           end.
Definition os_update (f : gmap string Fs.node -> Py.exn + gmap string Fs.node)
  : M unit :=
  fun m => match f (fs m) with
           | inl e => (m, Raise e)
           | inr fs' => (Machine fs' (heap m) (self m), Ok tt)
           end.
Definition os_query {A} (f : gmap string Fs.node -> A) : M A :=
  fun m => (m, Ok (f (fs m))).

Definition get_self : M session := fun m => (m, Ok (self m)).
Definition put_self (s : session) : M unit :=
  fun m => (Machine (fs m) (heap m) s, Ok tt).
Definition get_heap : M (list pyobj) := fun m => (m, Ok (heap m)).
Definition put_heap (h : list pyobj) : M unit :=
  fun m => (Machine (fs m) h (self m), Ok tt).

(** A fresh list object. *)
Definition alloc (o : pyobj) : M nat :=
  fun m => (Machine (fs m) (heap m ++ [o]) (self m), Ok (length (heap m))).

(** [for x in l: body(x)]. *)
Fixpoint for_each {A} (l : list A) (body : A -> M unit) : M unit :=
  match l with
  | [] => mret tt
  | x :: l' => body x;; for_each l' body
  end.

(** Attribute assignment on [self]. *)
Definition set_cur_img (v : option (Z * Z * Z)) (s : session) : session :=
  Session (_folder s) (_img_paths s) v (_cur_bboxes s) (_cur_labels s)
    (_changed s) (_bbbox_in_progress s) (_annotations s) (_obj_label s)
    (_index s).
Definition set_cur_lists (b l : nat) (s : session) : session :=
  Session (_folder s) (_img_paths s) (_cur_img s) b l
    (_changed s) (_bbbox_in_progress s) (_annotations s) (_obj_label s)
    (_index s).
Definition set_changed (v : bool) (s : session) : session :=
  Session (_folder s) (_img_paths s) (_cur_img s) (_cur_bboxes s)
    (_cur_labels s) v (_bbbox_in_progress s) (_annotations s) (_obj_label s)
    (_index s).
Definition set_bbbox_in_progress (v : option bbox) (s : session) : session :=
  Session (_folder s) (_img_paths s) (_cur_img s) (_cur_bboxes s)
    (_cur_labels s) (_changed s) v (_annotations s) (_obj_label s)
    (_index s).
Definition set_annotations (v : gmap string (nat * nat)) (s : session)
  : session :=
  Session (_folder s) (_img_paths s) (_cur_img s) (_cur_bboxes s)
    (_cur_labels s) (_changed s) (_bbbox_in_progress s) v (_obj_label s)
    (_index s).
Definition set_index (v : Z) (s : session) : session :=
  Session (_folder s) (_img_paths s) (_cur_img s) (_cur_bboxes s)
    (_cur_labels s) (_changed s) (_bbbox_in_progress s) (_annotations s)
    (_obj_label s) (Some v).

Definition modify_self (f : session -> session) : M unit :=
  fun m => (Machine (fs m) (heap m) (f (self m)), Ok tt).

(** ** [datasets/generate_pascalvoc_annotations.py] *)

Definition ROOT_NAME : string := "annotation".
Definition OBJECT_ELEMENT_NAME : string := "object".
Definition ANNOTATION_DEFAULT_DIR : string := "Annotations/".

(** generate a xml element with a text value: [str(text)] raises for an
    integer of too many digits, and [lxml] refuses text that is not XML
    compatible; both are [ValueError]. *)
Definition _generate_xml_element_with_text (name : string) (text : Py.pyval)
  : result Xml.element :=
  match Py.str text with
  | None => Raise Py.ValueError
  | Some s =>
      if Xml.compatible s then Ok (Xml.Element name (Some s) [])
      else Raise Py.ValueError
  end.

(** generate an object annotation Pascal VOC style *)
Definition _generate_object_annotation (obj_name : Py.pyval) (b : bbox)
  : result Xml.element :=
  let '(xmin, ymin, xmax, ymax) := b in
  let obj := Xml.Element OBJECT_ELEMENT_NAME None [] in
  e ← _generate_xml_element_with_text "name" obj_name;
  let obj := Xml.append obj e in
  e ← _generate_xml_element_with_text "truncated" (Py.PInt 0);
  let obj := Xml.append obj e in
  e ← _generate_xml_element_with_text "difficult" (Py.PInt 0);
  let obj := Xml.append obj e in
  let bndbox := Xml.Element "bndbox" None [] in
  e ← _generate_xml_element_with_text "xmin" (Py.PInt xmin);
  let bndbox := Xml.append bndbox e in
  e ← _generate_xml_element_with_text "ymin" (Py.PInt ymin);
  let bndbox := Xml.append bndbox e in
  e ← _generate_xml_element_with_text "xmax" (Py.PInt xmax);
  let bndbox := Xml.append bndbox e in
  e ← _generate_xml_element_with_text "ymax" (Py.PInt ymax);
  let bndbox := Xml.append bndbox e in
  mret (Xml.append obj bndbox).

(** The loop of [generate_pascalvoc_annotation_from_image] over the pairs
    [zip] forms. *)
Fixpoint append_objects (root : Xml.element)
    (pairs : list (Py.pyval * bbox)) : result Xml.element :=
  match pairs with
  | [] => mret root
  | (obj_name, b) :: pairs' =>
      obj ← _generate_object_annotation obj_name b;
      append_objects (Xml.append root obj) pairs'
  end.

(** The tree that [generate_pascalvoc_annotation_from_image] builds before
    it touches the file system (its lines up to the end of the [zip] loop):
    the encoding of image shape, labels and boxes. *)
Definition annotation_root (img : Z * Z * Z) (obj_names : list Py.pyval)
    (bboxes : list bbox) : result Xml.element :=
  let '(height, width, depth) := img in
  let root := Xml.Element ROOT_NAME None [] in
  let size := Xml.Element "size" None [] in
  e ← _generate_xml_element_with_text "width" (Py.PInt width);
  let size := Xml.append size e in
  e ← _generate_xml_element_with_text "height" (Py.PInt height);
  let size := Xml.append size e in
  e ← _generate_xml_element_with_text "depth" (Py.PInt depth);
  let size := Xml.append size e in
  let root := Xml.append root size in
  append_objects root (combine obj_names bboxes).

(** The rest of [generate_pascalvoc_annotation_from_image], from the test
    of [overwrite] on: the write of the tree [root] to [file_path]. *)
Definition write_annotation (root : Xml.element) (file_path : string)
    (overwrite : bool) : M unit :=
  (if negb overwrite then
     e ← os_query (fun fs => Fs.exists_ fs file_path);
     py_assert (negb e)
       ("generate_pascalvoc_annotation_from_image(): " ++ file_path ++
        " already exists!")
   else mret tt);;
  os_update (fun fs => Fs.write fs file_path (Fs.Document root)).

(** Generates a Pascal VOC annotation file for [img] with the specified
    parameters. *)
Definition generate_pascalvoc_annotation_from_image (img : Z * Z * Z)
    (obj_names : list Py.pyval) (bboxes : list bbox) (file_path : string)
    (overwrite : bool) : M unit :=
  root ← lift (annotation_root img obj_names bboxes);
  write_annotation root file_path overwrite.

(** Generates a Pascal VOC annotation file for [img_path] with the
    specified parameters. *)
Definition generate_pascvalvoc_annotation_from_image_file (img_path : string)
    (obj_names : list Py.pyval) (bboxes : list bbox)
    (annotation_dir : option string) (overwrite : bool) : M unit :=
  let '(img_file_name, img_extension) := Path.splitext img_path in
  img ← os_query (fun fs => Fs.imread fs img_path);
  match img with
  | None =>
      raise (Py.AssertionError
               ("generate_pascvalvoc_annotation_from_image_file(): could not read image at "
                ++ img_path))
  | Some img =>
      match annotation_dir with
      | None =>
          generate_pascalvoc_annotation_from_image img obj_names bboxes
            (img_file_name ++ ".xml") overwrite
      | Some annotation_dir =>
          let img_folder := Path.dirname img_file_name in
          let img_name := Path.basename img_file_name in
          let annotation_folder := Path.join img_folder annotation_dir in
          e ← os_query (fun fs => Fs.exists_ fs annotation_folder);
          (if negb e then os_update (fun fs => Fs.mkdir fs annotation_folder)
           else mret tt);;
          generate_pascalvoc_annotation_from_image img obj_names bboxes
            (Path.join annotation_folder img_name ++ ".xml") overwrite
      end
  end.

(** ** [pascalvoc_annotator.py] *)

Definition PASCAL_VOC_IMAGE_EXTENSION : string := ".jpg".

Definition QUIT_KEY : ascii := "q".
Definition CLEAR_KEY : ascii := "c".
Definition NEXT_KEY : ascii := "n".
Definition PREV_KEY : ascii := "p".
Definition UNDO_KEY : ascii := "u".

(** [e.find(t)] followed by an attribute access: [None] has no attributes. *)
Definition find_child (t : string) (e : Xml.element) : result Xml.element :=
  match Xml.find t e with
  | Some c => Ok c
  | None => Raise Py.AttributeError
  end.

(** [int(e.find(t).text)]. *)
Definition int_field (t : string) (e : Xml.element) : result Z :=
  c ← find_child t e;
  match Xml.text c with
  | None => Raise Py.TypeError
  | Some s =>
      match Py.int s with
      | Some z => Ok z
      | None => Raise Py.ValueError
      end
  end.

(** The text of an element as a Python value. *)
Definition text_value (x : option string) : Py.pyval :=
  match x with
  | Some s => Py.PStr s
  | None => Py.PNone
  end.

(** One turn of the loop of [_parse_pascalvoc_annoation]. *)
Definition parse_object (obj : Xml.element) : result (bbox * Py.pyval) :=
  name ← find_child "name" obj;
  let label := text_value (Xml.text name) in
  b ← find_child "bndbox" obj;
  xmin ← int_field "xmin" b;
  ymin ← int_field "ymin" b;
  xmax ← int_field "xmax" b;
  ymax ← int_field "ymax" b;
  mret ((xmin, ymin, xmax, ymax), label).

(** The loop of [_parse_pascalvoc_annoation] over the object blocks it has
    still to read, [bboxes] and [labels] being what it has collected. *)
Fixpoint parse_objects (objs : list Xml.element) (bboxes : list bbox)
    (labels : list Py.pyval) : result (list bbox * list Py.pyval) :=
  match objs with
  | [] => mret (bboxes, labels)
  | obj :: objs' =>
      bl ← parse_object obj;
      parse_objects objs' (bboxes ++ [bl.1]) (labels ++ [bl.2])
  end.

(** [_parse_pascalvoc_annoation] from the root of the parsed tree on. *)
Definition parse_root (root : Xml.element)
  : result (list bbox * list Py.pyval) :=
  parse_objects (Xml.findall "object" root) [] [].

(** [_parse_pascalvoc_annoation(path)]; the two lists it returns are new
    list objects. *)
Definition _parse_pascalvoc_annoation (path : string) : M (nat * nat) :=
  root ← os_call (fun fs => Fs.parse fs path);
  match parse_root root with
  | Raise e => raise e
  | Ok (bboxes, labels) =>
      b ← alloc (OBoxes bboxes);
      l ← alloc (OLabels labels);
      mret (b, l)
  end.

(** [l[i]] on a Python list: a negative index counts from the end. *)
Definition getitem {A} (l : list A) (i : Z) : result A :=
  let n := Z.of_nat (length l) in
  let j := if i <? 0 then i + n else i in
  if (j <? 0) || (n <=? j) then Raise Py.IndexError
  else match l !! Z.to_nat j with
       | Some x => Ok x
       | None => Raise Py.IndexError
       end.

(** The [index] property: reading an attribute that was never set raises. *)
Definition index : M Z :=
  s ← get_self;
  match _index s with
  | Some i => mret i
  | None => raise Py.AttributeError
  end.

(** The [annotation_dir] property. *)
Definition annotation_dir (s : session) : string :=
  Path.join (_folder s) ANNOTATION_DEFAULT_DIR.

(** The [cur_img_path] property. *)
Definition cur_img_path : M string :=
  s ← get_self;
  match _index s with
  | Some i => lift (getitem (_img_paths s) i)
  | None => raise Py.AttributeError
  end.

(** The path [_remove_annotation_file_when_empty] computes for an image. *)
Definition annotation_file_path (s : session) (img_path : string) : string :=
  Path.join (annotation_dir s)
    (Path.basename (Path.splitext img_path).1 ++ ".xml").

(** Truth of a list. *)
Definition nonempty {A} (l : list A) : bool :=
  match l with [] => false | _ => true end.

(** The condition under which [_remove_annotation_file_when_empty] calls
    [os.remove]: [not] binds tighter than [and], and [and] tighter than
    [or]. *)
Definition should_remove (h : list pyobj) (s : session) (isfile : bool)
  : bool :=
  negb (nonempty (boxes_at h (_cur_bboxes s))) ||
  (negb (nonempty (labels_at h (_cur_labels s))) && isfile).

Definition _remove_annotation_file_when_empty : M unit :=
  s ← get_self;
  match _index s with
  | None => mret tt
  | Some _ =>
      p ← cur_img_path;
      let annotation_file_path := annotation_file_path s p in
      h ← get_heap;
      isfile ← os_query (fun fs => Fs.isfile fs annotation_file_path);
      if should_remove h s isfile
      then os_update (fun fs => Fs.remove fs annotation_file_path)
      else mret tt
  end.

(** The condition under which the [index] setter writes the outgoing image's
    annotation file. *)
Definition should_save (h : list pyobj) (s : session) : bool :=
  bool_decide (is_Some (_cur_img s)) &&
  nonempty (boxes_at h (_cur_bboxes s)) && _changed s.

(** The setter of the [index] property, in the three parts of its body.

    First part: the outgoing image is written out when there is an image,
    it has boxes and it is dirty. *)
Definition save_outgoing : M unit :=
  s ← get_self;
  h ← get_heap;
  if should_save h s
  then
    py_assert
      (length (labels_at h (_cur_labels s)) =? length (boxes_at h (_cur_bboxes s)))%nat
      "PascalVocAnnotator(): label and bounding box collection sizes are mistmatched";;
    p ← cur_img_path;
    generate_pascvalvoc_annotation_from_image_file p
      (labels_at h (_cur_labels s)) (boxes_at h (_cur_bboxes s))
      (Some (annotation_dir s)) true
  else mret tt.

(** Last part: the index moves, the incoming image is read and its record
    looked up or created; [_cur_bboxes] and [_cur_labels] become the very
    lists of that record. *)
Definition load_incoming (value : Z) : M unit :=
  s ← get_self;
  (if Z.of_nat (length (_img_paths s)) =? 0 then raise Py.ZeroDivisionError
   else modify_self (set_index (value mod Z.of_nat (length (_img_paths s)))));;
  p ← cur_img_path;
  img ← os_query (fun fs => Fs.imread fs p);
  modify_self (set_cur_img img);;
  s ← get_self;
  (if bool_decide (is_Some (_annotations s !! p)) then mret tt
   else
     b ← alloc (OBoxes []);
     l ← alloc (OLabels []);
     modify_self (set_annotations (<[p := (b, l)]> (_annotations s))));;
  s ← get_self;
  match _annotations s !! p with
  | None => raise Py.KeyError
  | Some (b, l) =>
      modify_self (set_cur_lists b l);;
      py_assert (bool_decide (is_Some img))
        ("PascalVocAnnotator(): could not read image at " ++ p);;
      modify_self (set_changed false)
  end.

Definition index_setter (value : Z) : M unit :=
  save_outgoing;;
  _remove_annotation_file_when_empty;;
  load_incoming value.

Definition _load_saved_annotations : M unit :=
  s ← get_self;
  d ← os_query (fun fs => Fs.isdir fs (annotation_dir s));
  if (d : bool) then
    names ← os_call (fun fs => Fs.listdir fs (annotation_dir s));
    for_each names (fun filename =>
      let key := Path.join (_folder s)
                   (Path.basename (Path.splitext filename).1
                    ++ PASCAL_VOC_IMAGE_EXTENSION) in
      r ← _parse_pascalvoc_annoation (Path.join (annotation_dir s) filename);
      modify_self (fun s => set_annotations (<[key := r]> (_annotations s)) s))
  else mret tt.

(** [PascalVOCAnnotator.__init__(folder, obj_label)]. *)
Definition __init__ (folder : string) (obj_label : Py.pyval) : M unit :=
  d ← os_query (fun fs => Fs.isdir fs folder);
  py_assert d ("PascalVOCAnnotator(): " ++ folder ++ " is not a directory");;
  names ← os_call (fun fs => Fs.listdir fs folder);
  let img_paths :=
    List.map (Path.join folder)
      (List.filter (Py.contains PASCAL_VOC_IMAGE_EXTENSION) names) in
  py_assert (nonempty img_paths)
    ("PascalVOCAnnotator(): no JPEG images were found in directory " ++ folder);;
  b ← alloc (OBoxes []);
  l ← alloc (OLabels []);
  put_self (Session folder img_paths None b l false None ∅ obj_label None);;
  _load_saved_annotations;;
  index_setter 0.

Definition _next_image : M unit :=
  i ← index;
  index_setter (i + 1).

Definition _prev_image : M unit :=
  i ← index;
  index_setter (i - 1).

Definition _undo : M unit :=
  s ← get_self;
  h ← get_heap;
  if negb (bool_decide (is_Some (_bbbox_in_progress s))) &&
     nonempty (boxes_at h (_cur_bboxes s)) &&
     nonempty (labels_at h (_cur_labels s))
  then
    modify_self (set_changed true);;
    h ← get_heap;
    put_heap (<[_cur_bboxes s := OBoxes (removelast (boxes_at h (_cur_bboxes s)))]> h);;
    h ← get_heap;
    put_heap (<[_cur_labels s := OLabels (removelast (labels_at h (_cur_labels s)))]> h)
  else mret tt.

Definition _clear : M unit :=
  modify_self (set_cur_img None);;
  modify_self (set_changed true);;
  p ← cur_img_path;
  s ← get_self;
  (if bool_decide (is_Some (_annotations s !! p))
   then modify_self (set_annotations (delete p (_annotations s)))
   else mret tt);;
  i ← index;
  index_setter i.

(** The mouse events the callback tells apart. *)
Inductive mouse_event :=
| EVENT_LBUTTONDOWN
| EVENT_MOUSEMOVE
| EVENT_LBUTTONUP
| EVENT_OTHER.

Definition _mouse_callback (event : mouse_event) (x y : Z) : M unit :=
  s ← get_self;
  match event, _bbbox_in_progress s with
  | EVENT_LBUTTONDOWN, _ =>
      modify_self (set_bbbox_in_progress (Some (x, y, x, y)))
  | EVENT_MOUSEMOVE, Some (x0, y0, _, _) =>
      modify_self (set_bbbox_in_progress (Some (x0, y0, x, y)))
  | EVENT_LBUTTONUP, Some b =>
      modify_self (set_changed true);;
      h ← get_heap;
      put_heap (<[_cur_bboxes s := OBoxes (boxes_at h (_cur_bboxes s) ++ [b])]> h);;
      h ← get_heap;
      put_heap (<[_cur_labels s := OLabels (labels_at h (_cur_labels s) ++ [_obj_label s])]> h);;
      modify_self (set_bbbox_in_progress None)
  | _, _ => mret tt
  end.

(** [update()], [key] being what [_get_key] returns in this tick; drawing
    and showing the frame change nothing. *)
Definition update (key : ascii) : M bool :=
  s ← get_self;
  match _cur_img s with
  | None => raise Py.AttributeError
  | Some _ =>
      if Ascii.eqb key QUIT_KEY then mret true
      else if Ascii.eqb key NEXT_KEY then _next_image;; mret false
      else if Ascii.eqb key PREV_KEY then _prev_image;; mret false
      else if Ascii.eqb key CLEAR_KEY then _clear;; mret false
      else if Ascii.eqb key UNDO_KEY then _undo;; mret false
      else mret false
  end.

Definition __exit__ : M unit :=
  s ← get_self;
  if _changed s then
    i ← index;
    index_setter (i + 1)
  else mret tt.

(** What reaches the session while it runs: a mouse event handed to the
    callback, or the key that one call of [update] polls. *)
Inductive event :=
| Mouse (e : mouse_event) (x y : Z)
| Tick (key : ascii).

(** The loop of [run], over the events that arrive; [true] when the quit
    key ended it. *)
Fixpoint loop (evs : list event) : M bool :=
  match evs with
  | [] => mret false
  | Mouse e x y :: evs' => _mouse_callback e x y;; loop evs'
  | Tick key :: evs' =>
      should_quit ← update key;
      if (should_quit : bool) then mret true else loop evs'
  end.

(** The [with] block of [run]: [__exit__] is called when the loop ends and
    when it raises (the exception then goes on, unless [__exit__] raises
    one of its own). With the events exhausted the loop is still polling. *)
Definition with_annotator (body : M bool) : M unit :=
  fun m =>
    match body m with
    | (m', Ok true) => __exit__ m'
    | (m', Ok false) => (m', Ok tt)
    | (m', Raise e) =>
        match __exit__ m' with
        | (m'', Ok _) => (m'', Raise e)
        | (m'', Raise e') => (m'', Raise e')
        end
    end.

(** [run(folder, obj_label)]. *)
Definition run (folder : string) (obj_label : Py.pyval) (evs : list event)
  : M unit :=
  __init__ folder obj_label;;
  with_annotator (loop evs).

(** An object without attributes, and the machine before [run]. *)
Definition blank : session :=
  Session "" [] None 0 0 false None ∅ Py.PNone None.

Definition boot (fs : gmap string Fs.node) : machine := Machine fs [] blank.

(** ** Auxiliary notions used by the proofs *)

(** No character of [s] is white space. *)
Fixpoint no_space (s : string) : bool :=
  match s with
  | EmptyString => true
  | String a r => negb (Py.is_space a) && no_space r
  end.

(** The read operation in the specification's words: an object block
    carries a label and a box when it has a name element, whose text is the
    label, and a bounding-box element whose four coordinate elements hold
    integer text. *)
Definition field_is (t : string) (e : Xml.element) (z : Z) : Prop :=
  exists c s, Xml.find t e = Some c /\ Xml.text c = Some s /\ Py.int s = Some z.

(** The label a name element gives: its text, and no label when it has no
    text. *)
Definition label_is (name : Xml.element) (l : Py.pyval) : Prop :=
  match l with
  | Py.PStr s => Xml.text name = Some s
  | Py.PNone => Xml.text name = None
  | Py.PInt _ => False
  end.

Definition object_block (obj : Xml.element) (b : bbox) (l : Py.pyval) : Prop :=
  exists name bnd,
    Xml.find "name" obj = Some name /\ label_is name l /\
    Xml.find "bndbox" obj = Some bnd /\
    field_is "xmin" bnd b.1.1.1 /\ field_is "ymin" bnd b.1.1.2 /\
    field_is "xmax" bnd b.1.2 /\ field_is "ymax" bnd b.2.

(** No required field of the object block is missing or non-integer. *)
Definition required_fields (obj : Xml.element) : Prop :=
  exists b l, object_block obj b l.

(** [boxes] and [labels] are those of the object blocks of [root], in
    document order. *)
Definition decodes_to (root : Xml.element) (boxes : list bbox)
    (labels : list Py.pyval) : Prop :=
  length boxes = length labels /\
  Forall2 (fun obj bl => object_block obj bl.1 bl.2)
    (Xml.findall "object" root) (combine boxes labels).

(** The machine after a successful write of the document [root] to
    [path]. *)
Definition written (m : machine) (root : Xml.element) (path : string)
  : machine :=
  Machine
    (<[Path.resolve path := Fs.File (Fs.Document root)]> (fs m))
    (heap m) (self m).

(** The write operation as the specification states it, for a document
    that was built: an already-exists failure when [overwrite] is false and
    the path exists, and a successful write for every other document and
    path. *)
Definition write_contract_as_stated (m : machine) (img : Z * Z * Z)
    (names : list Py.pyval) (boxes : list bbox) (path : string)
    (overwrite : bool) : Prop :=
  forall root,
    annotation_root img names boxes = Ok root ->
    (overwrite = false /\ Fs.exists_ (fs m) path = true ->
     exists msg,
       generate_pascalvoc_annotation_from_image img names boxes path
         overwrite m
       = (m, Raise (Py.AssertionError msg))) /\
    (~ (overwrite = false /\ Fs.exists_ (fs m) path = true) ->
     generate_pascalvoc_annotation_from_image img names boxes path overwrite m
     = (written m root path, Ok tt)).

(** The round trip as the specification states it: for labels and boxes
    that are equally many and at least one, the encoder builds a document,
    and decoding what is read back from it gives the labels and the boxes. *)
Definition roundtrip_as_stated (img : Z * Z * Z) (labels : list string)
    (boxes : list bbox) : Prop :=
  labels <> [] -> length labels = length boxes ->
  exists root,
    annotation_root img (List.map Py.PStr labels) boxes = Ok root /\
    parse_root (Xml.reread root) = Ok (boxes, List.map Py.PStr labels).

(** What the encoder needs of a number and of a label to build the tree. *)
Definition encodable_int (z : Z) : bool :=
  (Py.nb_digits z <=? Py.MAX_STR_DIGITS)%nat.

Definition encodable_box (b : bbox) : bool :=
  encodable_int b.1.1.1 && encodable_int b.1.1.2 &&
  encodable_int b.1.2 && encodable_int b.2.

Definition encodable_label (l : Py.pyval) : bool :=
  match Py.str l with
  | Some s => Xml.compatible s
  | None => false
  end.

Definition encodable_shape (img : Z * Z * Z) : bool :=
  encodable_int img.1.1 && encodable_int img.1.2 && encodable_int img.2.

(** The pairs of labels and boxes the encoder can encode. *)
Definition encodable_pairs (pairs : list (Py.pyval * bbox)) : bool :=
  forallb (fun nb => encodable_label nb.1 && encodable_box nb.2) pairs.

(** The label that is read back for a label that was encoded: its text
    [str(l)], and [None] when that text is empty. *)
Definition reread_label (l : Py.pyval) : Py.pyval :=
  match Py.str l with
  | Some (String a r) => Py.PStr (String a r)
  | _ => Py.PNone
  end.

(** ** The session invariant *)

(** A record: a list of boxes and, allocated right after it, a list of
    labels of the same length. *)
Definition record_ok (h : list pyobj) (b l : nat) : Prop :=
  l = S b /\
  exists bs ls,
    h !! b = Some (OBoxes bs) /\ h !! l = Some (OLabels ls) /\
    length bs = length ls.

(** The current record and every record of [_annotations] are well formed. *)
Definition wf (m : machine) : Prop :=
  record_ok (heap m) (_cur_bboxes (self m)) (_cur_labels (self m)) /\
  forall k b l,
    _annotations (self m) !! k = Some (b, l) -> record_ok (heap m) b l.

(** The session shows the image at [_index], and its current lists are the
    ones [_annotations] holds for that image. *)
Definition live (m : machine) : Prop :=
  exists i p,
    _index (self m) = Some i /\
    0 <= i < Z.of_nat (length (_img_paths (self m))) /\
    _img_paths (self m) !! Z.to_nat i = Some p /\
    is_Some (_cur_img (self m)) /\
    _annotations (self m) !! p
    = Some (_cur_bboxes (self m), _cur_labels (self m)).

(** The states a session passes through: the one its construction returns,
    and those that the mouse callback, [update] and [__exit__] return. *)
Inductive reachable : machine -> Prop :=
| reach_init fs0 folder obj_label m :
    __init__ folder obj_label (boot fs0) = (m, Ok tt) -> reachable m
| reach_mouse m e x y m' :
    reachable m -> _mouse_callback e x y m = (m', Ok tt) -> reachable m'
| reach_update m key q m' :
    reachable m -> update key m = (m', Ok q) -> reachable m'
| reach_exit m m' :
    reachable m -> __exit__ m = (m', Ok tt) -> reachable m'.

(** The session after [load_incoming] put it on the image at index [i],
    and the machine: the record of the image at path [p] is the one
    [_annotations] has, or a new one of two empty lists. *)
Definition loaded (s : session) (i : Z) (img : Z * Z * Z) (b l : nat)
    (ann : gmap string (nat * nat)) : session :=
  Session (_folder s) (_img_paths s) (Some img) b l false
    (_bbbox_in_progress s) ann (_obj_label s) (Some i).

Definition after_load (m : machine) (i : Z) (p : string) (img : Z * Z * Z)
  : machine :=
  match _annotations (self m) !! p with
  | Some (b, l) =>
      Machine (fs m) (heap m) (loaded (self m) i img b l (_annotations (self m)))
  | None =>
      Machine (fs m) (heap m ++ [OBoxes []; OLabels []])
        (loaded (self m) i img (length (heap m)) (S (length (heap m)))
           (<[p := (length (heap m), S (length (heap m)))]>
              (_annotations (self m))))
  end.

(** The machine with another file system. *)
Definition with_fs (m : machine) (fs' : gmap string Fs.node) : machine :=
  Machine fs' (heap m) (self m).

(** The session [__init__] has set up when it calls
    [_load_saved_annotations]. *)
Definition fresh_session (fs0 : gmap string Fs.node) (folder : string)
    (obj_label : Py.pyval) (img_paths : list string) : machine :=
  Machine fs0 [OBoxes []; OLabels []]
    (Session folder img_paths None 0 1 false None ∅ obj_label None).

(** The image paths [__init__] collects from the names in the folder. *)
Definition image_paths (folder : string) (names : list string)
  : list string :=
  List.map (Path.join folder)
    (List.filter (Py.contains PASCAL_VOC_IMAGE_EXTENSION) names).

(** An annotation file the reader accepts. *)
Definition readable_annotation (fs0 : gmap string Fs.node) (path : string)
  : Prop :=
  exists root,
    Fs.parse fs0 path = inr root /\
    Forall required_fields (Xml.findall "object" root).

(** The body of the loop of [_load_saved_annotations]. *)
Definition load_saved (folder : string) (filename : string) : M unit :=
  let key := Path.join folder
               (Path.basename (Path.splitext filename).1
                ++ PASCAL_VOC_IMAGE_EXTENSION) in
  r ← _parse_pascalvoc_annoation
        (Path.join (Path.join folder ANNOTATION_DEFAULT_DIR) filename);
  modify_self (fun s => set_annotations (<[key := r]> (_annotations s)) s).

(** [m'] differs from [m] by new list objects and other annotations. *)
Definition extends (m m' : machine) : Prop :=
  fs m' = fs m /\
  (exists extra, heap m' = (heap m ++ extra)%list) /\
  exists ann, self m' = set_annotations ann (self m).

(** Every file of the annotation folder, if there is one, is readable. *)
Definition annotations_readable (fs0 : gmap string Fs.node) (folder : string)
  : Prop :=
  forall names,
    Fs.isdir fs0 (Path.join folder ANNOTATION_DEFAULT_DIR) = true ->
    Fs.listdir fs0 (Path.join folder ANNOTATION_DEFAULT_DIR) = inr names ->
    Forall
      (fun filename =>
         readable_annotation fs0
           (Path.join (Path.join folder ANNOTATION_DEFAULT_DIR) filename))
      names.

(** ** Transitions between images *)

Inductive transition := Next | Previous | Quit.

Definition fire (t : transition) : M unit :=
  match t with
  | Next => _next_image
  | Previous => _prev_image
  | Quit => __exit__
  end.

(** The path of the image the session shows, and of its annotation file
    (empty when there is none, which no reachable state has). *)
Definition shown_path (m : machine) : string :=
  match _index (self m) with
  | Some i =>
      match getitem (_img_paths (self m)) i with
      | Ok p => p
      | Raise _ => ""
      end
  | None => ""
  end.

Definition shown_annotation_file (m : machine) : string :=
  annotation_file_path (self m) (shown_path m).

(** ** Example sessions *)

(** A folder with two images and no annotations yet. *)
Definition two_images : gmap string Fs.node :=
  list_to_map
    [("/", Fs.Dir); ("/f", Fs.Dir);
     ("/f/a.jpg", Fs.File (Fs.Pixels 100 200 3));
     ("/f/b.jpg", Fs.File (Fs.Pixels 100 200 3))].

(** The session that [PascalVOCAnnotator("/f", "red roomba")] constructs
    there. *)
Definition session_started : machine :=
  (__init__ "/f" (Py.PStr "red roomba") (boot two_images)).1.

(** The same session after a box was dragged from (10, 10) to (50, 50). *)
Definition session_drawn : machine :=
  (loop [Mouse EVENT_LBUTTONDOWN 10 10; Mouse EVENT_MOUSEMOVE 50 50;
         Mouse EVENT_LBUTTONUP 50 50] session_started).1.

(** The annotation document of one box labelled "red roomba". *)
Definition one_box_doc : Xml.element :=
  match annotation_root (100, 200, 3) [Py.PStr "red roomba"]
          [(10, 10, 50, 50)] with
  | Ok root => root
  | Raise _ => Xml.Element ROOT_NAME None []
  end.

(** The folder with two images, both annotated with that document. *)
Definition annotated_images : gmap string Fs.node :=
  list_to_map
    [("/", Fs.Dir); ("/f", Fs.Dir);
     ("/f/a.jpg", Fs.File (Fs.Pixels 100 200 3));
     ("/f/b.jpg", Fs.File (Fs.Pixels 100 200 3));
     ("/f/Annotations", Fs.Dir);
     ("/f/Annotations/a.xml", Fs.File (Fs.Document one_box_doc));
     ("/f/Annotations/b.xml", Fs.File (Fs.Document one_box_doc))].

(** The session constructed on the annotated folder: it shows [a.jpg] with
    the box read from its annotation file. *)
Definition session_annotated : machine :=
  (__init__ "/f" (Py.PStr "red roomba") (boot annotated_images)).1.

(** That session after the clear key, and the drawn session after it. *)
Definition session_annotated_cleared : machine :=
  (_clear session_annotated).1.

Definition session_drawn_cleared : machine :=
  (_clear session_drawn).1.

(** The drawn session after Next. *)
Definition session_drawn_next : machine :=
  (_next_image session_drawn).1.

(** A folder whose only image cannot be decoded. *)
Definition unreadable_image : gmap string Fs.node :=
  list_to_map
    [("/", Fs.Dir); ("/f", Fs.Dir); ("/f/a.jpg", Fs.File Fs.Other)].

(** ** Construction, as the specification states it *)

(** The two failures of construction the specification names. *)
Definition not_a_directory_error (folder : string) : Py.exn :=
  Py.AssertionError ("PascalVOCAnnotator(): " ++ folder ++ " is not a directory").

Definition no_images_found_error (folder : string) : Py.exn :=
  Py.AssertionError
    ("PascalVOCAnnotator(): no JPEG images were found in directory " ++ folder).

(** [s.endswith(suffix)]: the name has the extension. *)
Fixpoint endswith (suffix s : string) : bool :=
  String.eqb suffix s ||
  match s with
  | EmptyString => false
  | String _ r => endswith suffix r
  end.

(** Construction fails when the folder is not a directory, fails when no
    file in it has the image extension, and succeeds on any other input. *)
Definition construction_contract_as_stated (fs0 : gmap string Fs.node)
    (folder : string) (obj_label : Py.pyval) : Prop :=
  (Fs.isdir fs0 folder = false ->
   exists m,
     __init__ folder obj_label (boot fs0)
     = (m, Raise (not_a_directory_error folder))) /\
  (forall names,
     Fs.listdir fs0 folder = inr names ->
     Forall (fun n => endswith PASCAL_VOC_IMAGE_EXTENSION n = false) names ->
     exists m,
       __init__ folder obj_label (boot fs0)
       = (m, Raise (no_images_found_error folder))) /\
  (forall names,
     Fs.listdir fs0 folder = inr names ->
     Exists (fun n => endswith PASCAL_VOC_IMAGE_EXTENSION n = true) names ->
     exists m, __init__ folder obj_label (boot fs0) = (m, Ok tt)).

(** [c] run [n] times. *)
Fixpoint repeat_m (n : nat) (c : M unit) : M unit :=
  match n with
  | O => mret tt
  | S n' => c;; repeat_m n' c
  end.

(** ** The key that [update] polls *)

(** [_get_key()], [code] being what [cv2.waitKey(1)] returned: [-1] when no
    key was pressed, and else the key code, which may carry modifier bits
    above the low byte. *)
Definition _get_key (code : Z) : ascii :=
  ascii_of_N (Z.to_N (Z.land code 255)).

(** The keys [update] acts on. *)
Definition bound_key (key : ascii) : bool :=
  Ascii.eqb key QUIT_KEY || Ascii.eqb key NEXT_KEY || Ascii.eqb key PREV_KEY ||
  Ascii.eqb key CLEAR_KEY || Ascii.eqb key UNDO_KEY.

(** The events of one drag: the press, the moves, the release. *)
Definition drag (x0 y0 : Z) (moves : list (Z * Z)) (x2 y2 : Z) : list event :=
  Mouse EVENT_LBUTTONDOWN x0 y0 ::
  List.map (fun p => Mouse EVENT_MOUSEMOVE p.1 p.2) moves ++
  [Mouse EVENT_LBUTTONUP x2 y2].

(** ** What a session keeps while it moves between images *)

(** [m'] has the list objects of [m] at their addresses, the records of
    [m] under their keys, and the image paths of [m]. *)
Definition keeps (m m' : machine) : Prop :=
  (exists extra, heap m' = (heap m ++ extra)%list) /\
  (forall k r,
     _annotations (self m) !! k = Some r ->
     _annotations (self m') !! k = Some r) /\
  _img_paths (self m') = _img_paths (self m).

(** The session on the annotated folder at the moment its construction
    calls [_load_saved_annotations]. *)
Definition session_constructing : machine :=
  fresh_session annotated_images "/f" (Py.PStr "red roomba")
    ["/f/a.jpg"; "/f/b.jpg"].

(** [m'] has the folder, the image paths and the label of [m]. *)
Definition same_setup (m m' : machine) : Prop :=
  _folder (self m') = _folder (self m) /\
  _img_paths (self m') = _img_paths (self m) /\
  _obj_label (self m') = _obj_label (self m).

(** * Properties *)

(** ** The built-ins and the libraries on examples *)

Section BuiltIns.

(** [int] takes white space around the numeral, one sign, and single
    underscores between digits; it takes nothing else. *)
Example int_accepts :
  Py.int "42" = Some 42 /\ Py.int " -7 " = Some (-7) /\
  Py.int "+1_000" = Some 1000 /\ Py.int "007" = Some 7 /\
  Py.int (String (ascii_of_nat 9) (String "5" (String (ascii_of_nat 10) "")))
  = Some 5 /\
  Py.int (String (ascii_of_nat 160) "5") = Some 5.
Proof. vm_compute. by repeat split. Qed.

Example int_refuses :
  Py.int "" = None /\ Py.int " " = None /\ Py.int "-" = None /\
  Py.int "1__0" = None /\ Py.int "_1" = None /\ Py.int "1_" = None /\
  Py.int "- 1" = None /\ Py.int "+-1" = None /\ Py.int "1 0" = None /\
  Py.int "1.0" = None /\ Py.int "0x10" = None /\ Py.int "ten" = None /\
  Py.int (String (ascii_of_nat 28) "5") = None.
Proof. vm_compute. by repeat split. Qed.

Example str_examples :
  Py.str (Py.PInt 0) = Some "0" /\ Py.str (Py.PInt (-12)) = Some "-12" /\
  Py.str Py.PNone = Some "None" /\ Py.str (Py.PStr "") = Some "".
Proof. vm_compute. by repeat split. Qed.

(** A path with a separator at its end finds a directory and does not find
    a file; below a file there is nothing to find, and nothing to write. *)
Example stat_examples :
  Fs.isdir two_images "/f/" = true /\
  Fs.exists_ two_images "/f/a.jpg" = true /\
  Fs.exists_ two_images "/f/a.jpg/" = false /\
  Fs.stat two_images "/f/a.jpg/" = inl Py.NotADirectoryError /\
  Fs.stat two_images "/f/a.jpg/x" = inl Py.NotADirectoryError /\
  Fs.stat two_images "/f/c.jpg" = inl Py.FileNotFoundError /\
  Fs.stat two_images "/g/c.jpg" = inl Py.FileNotFoundError /\
  Fs.stat two_images "" = inl Py.FileNotFoundError.
Proof. vm_compute. by repeat split. Qed.

Example open_examples :
  Fs.write two_images "/f/a.jpg/" Fs.Other = inl Py.IsADirectoryError /\
  Fs.write two_images "/f/" Fs.Other = inl Py.IsADirectoryError /\
  Fs.write two_images "/f/a.jpg/x" Fs.Other = inl Py.NotADirectoryError /\
  Fs.write two_images "/g/x" Fs.Other = inl Py.FileNotFoundError /\
  Fs.write two_images "" Fs.Other = inl Py.FileNotFoundError /\
  Fs.mkdir two_images "/f" = inl Py.FileExistsError /\
  Fs.mkdir two_images "/f/a.jpg/" = inl Py.FileExistsError /\
  Fs.remove two_images "/f" = inl Py.IsADirectoryError /\
  Fs.remove two_images "/f/a.jpg/" = inl Py.NotADirectoryError /\
  Fs.parse two_images "/f/a.jpg" = inl Py.ParseError /\
  Fs.parse two_images "/f" = inl Py.IsADirectoryError.
Proof. vm_compute. by repeat split. Qed.

(** An element whose text is empty is read back as one without text, and
    text with a control character is refused when the element is built. *)
Example empty_text_reread :
  _generate_xml_element_with_text "name" (Py.PStr "")
  = Ok (Xml.Element "name" (Some "") []) /\
  Xml.reread (Xml.Element "name" (Some "") []) = Xml.Element "name" None [] /\
  Xml.reread (Xml.Element "name" (Some " ") [])
  = Xml.Element "name" (Some " ") [].
Proof. vm_compute. by repeat split. Qed.

Example control_character_refused :
  _generate_xml_element_with_text "name"
    (Py.PStr (String "a" (String (ascii_of_nat 0) "")))
  = Raise Py.ValueError /\
  _generate_xml_element_with_text "name"
    (Py.PStr (String "a" (String (ascii_of_nat 27) "")))
  = Raise Py.ValueError /\
  _generate_xml_element_with_text "name"
    (Py.PStr (String "a" (String (ascii_of_nat 9) "")))
  = Ok (Xml.Element "name" (Some (String "a" (String (ascii_of_nat 9) ""))) []).
Proof. vm_compute. by repeat split. Qed.

End BuiltIns.

(** ** [int] undoes [str] on integers *)

Section IntStr.

Lemma lstrip_no_space s : no_space s = true -> Py.lstrip s = s.
Proof.
  destruct s as [|a r]; simpl; [done|].
  intros [Ha _]%andb_prop. by destruct (Py.is_space a).
Qed.

Lemma rstrip_no_space s : no_space s = true -> Py.rstrip s = s.
Proof.
  induction s as [|a r IH]; simpl; [done|].
  intros [Ha Hr]%andb_prop. rewrite (IH Hr).
  destruct r; [|done]. by destruct (Py.is_space a).
Qed.

Lemma strip_no_space s : no_space s = true -> Py.strip s = s.
Proof.
  intros H. unfold Py.strip. by rewrite (lstrip_no_space _ H), rstrip_no_space.
Qed.

Lemma no_space_digits d : no_space (NilEmpty.string_of_uint d) = true.
Proof. induction d; simpl; auto. Qed.

Lemma ungroup_digits_after d :
  Py.ungroup (NilEmpty.string_of_uint d) true
  = Some (NilEmpty.string_of_uint d).
Proof. induction d; simpl; [done|by rewrite IHd..]. Qed.

Lemma ungroup_digits d :
  d <> Decimal.Nil ->
  Py.ungroup (NilEmpty.string_of_uint d) false
  = Some (NilEmpty.string_of_uint d).
Proof.
  intros Hd. destruct d; [done|..]; simpl; by rewrite ungroup_digits_after.
Qed.

Lemma length_string_of_uint d :
  String.length (NilEmpty.string_of_uint d) = Decimal.nb_digits d.
Proof. induction d; simpl; [done|by rewrite IHd..]. Qed.

Lemma int_digits d :
  d <> Decimal.Nil -> (Decimal.nb_digits d <= Py.MAX_STR_DIGITS)%nat ->
  Py.int (NilEmpty.string_of_uint d) = Some (Z.of_uint d).
Proof.
  intros Hd Hn. unfold Py.int.
  rewrite (strip_no_space _ (no_space_digits d)).
  pose proof (NilEmpty.usu d) as Hu.
  pose proof (ungroup_digits d Hd) as Hg.
  pose proof (length_string_of_uint d) as Hl.
  apply Nat.leb_le in Hn. rewrite <- Hl in Hn.
  destruct d; [done| ..]; simpl NilEmpty.string_of_uint in *;
    cbv iota beta; by rewrite Hg, Hn, Hu.
Qed.

Lemma int_minus_digits d :
  d <> Decimal.Nil -> (Decimal.nb_digits d <= Py.MAX_STR_DIGITS)%nat ->
  Py.int (String "-" (NilEmpty.string_of_uint d)) = Some (- Z.of_uint d).
Proof.
  intros Hd Hn. unfold Py.int.
  rewrite strip_no_space by (simpl; apply no_space_digits).
  pose proof (NilEmpty.usu d) as Hu.
  pose proof (ungroup_digits d Hd) as Hg.
  pose proof (length_string_of_uint d) as Hl.
  apply Nat.leb_le in Hn. rewrite <- Hl in Hn.
  cbv iota beta. by rewrite Hg, Hn, Hu.
Qed.

Lemma string_of_uint_nonnil d :
  d <> Decimal.Nil ->
  NilZero.string_of_uint d = NilEmpty.string_of_uint d.
Proof. by destruct d. Qed.

(** [int] reads back what [str] wrote. *)
Lemma int_str_int z s : Py.str_int z = Some s -> Py.int s = Some z.
Proof.
  unfold Py.str_int, Py.nb_digits.
  destruct (_ <=? _)%nat eqn:E; [|done]. intros [= <-].
  apply Nat.leb_le in E. rewrite <- (DecimalZ.of_to z) at 2.
  destruct z as [|p|p]; simpl Z.to_int in *.
  - reflexivity.
  - pose proof (Unsigned.to_uint_nonnil p) as Hp.
    simpl. rewrite string_of_uint_nonnil by done. by apply int_digits.
  - pose proof (Unsigned.to_uint_nonnil p) as Hp.
    simpl. rewrite string_of_uint_nonnil by done. by apply int_minus_digits.
Qed.

End IntStr.

(** ** The reader against the specification's description of it *)

Section Reader.

Lemma int_field_ok t e z : int_field t e = Ok z <-> field_is t e z.
Proof.
  unfold int_field, find_child, field_is, mbind, result_bind. split.
  - destruct (Xml.find t e) as [c|]; [|done].
    destruct (Xml.text c) as [s|] eqn:Ht; [|done].
    destruct (Py.int s) as [z'|] eqn:Hz; [|done].
    intros [= <-]. by exists c, s.
  - intros (c & s & -> & -> & ->). done.
Qed.

Lemma field_is_fun t e z z' : field_is t e z -> field_is t e z' -> z = z'.
Proof.
  intros (c & s & Hc & Hs & Hz) (c' & s' & Hc' & Hs' & Hz'). congruence.
Qed.

Lemma label_is_text_value name l :
  label_is name l <-> l = text_value (Xml.text name).
Proof.
  unfold label_is, text_value.
  destruct l, (Xml.text name); split; intros H; try done; congruence.
Qed.

Lemma parse_object_ok obj b l :
  parse_object obj = Ok (b, l) <-> object_block obj b l.
Proof.
  unfold parse_object, object_block, find_child, mbind, result_bind, mret,
    result_ret.
  destruct b as [[[x0 y0] x1] y1]. simpl. split.
  - destruct (Xml.find "name" obj) as [name|]; [|done].
    destruct (Xml.find "bndbox" obj) as [bnd|]; [|done].
    destruct (int_field "xmin" bnd) as [a0|] eqn:H0; [|done].
    destruct (int_field "ymin" bnd) as [a1|] eqn:H1; [|done].
    destruct (int_field "xmax" bnd) as [a2|] eqn:H2; [|done].
    destruct (int_field "ymax" bnd) as [a3|] eqn:H3; [|done].
    intros [= <- <- <- <- <-].
    exists name, bnd. rewrite <- !int_field_ok.
    split_and!; try done. by apply label_is_text_value.
  - intros (name & bnd & -> & Hl%label_is_text_value & -> & H0 & H1 & H2 & H3).
    apply int_field_ok in H0, H1, H2, H3. by rewrite H0, H1, H2, H3, Hl.
Qed.

Lemma parse_object_raise obj :
  (exists e, parse_object obj = Raise e) <-> ~ required_fields obj.
Proof.
  split.
  - intros [e He] (b & l & Hb). apply parse_object_ok in Hb. congruence.
  - intros Hn. destruct (parse_object obj) as [[b l]|e] eqn:E; [|by eexists].
    destruct Hn. exists b, l. by apply parse_object_ok.
Qed.

Lemma parse_objects_ok objs bs ls bs' ls' :
  length bs = length ls ->
  parse_objects objs bs ls = Ok (bs', ls') <->
  exists nb nl, bs' = (bs ++ nb)%list /\ ls' = (ls ++ nl)%list /\
    length nb = length nl /\
    Forall2 (fun obj bl => object_block obj bl.1 bl.2) objs (combine nb nl).
Proof.
  revert bs ls. induction objs as [|obj objs IH]; intros bs ls Hlen; simpl.
  - unfold mret, result_ret. split.
    + intros [= <- <-]. exists [], []. rewrite !app_nil_r. repeat split; constructor.
    + intros (nb & nl & -> & -> & Hl & HF).
      destruct nb, nl; simplify_eq/=; [|inversion HF]. by rewrite !app_nil_r.
  - unfold mbind, result_bind.
    destruct (parse_object obj) as [[b l]|e] eqn:E; simpl.
    + rewrite IH by (rewrite !length_app; simpl; lia). split.
      * intros (nb & nl & -> & -> & Hl & HF). exists (b :: nb), (l :: nl).
        rewrite <- !app_assoc. simpl. repeat split; [lia|].
        constructor; [by apply parse_object_ok | done].
      * intros (nb & nl & -> & -> & Hl & HF).
        destruct nb as [|b0 nb], nl as [|l0 nl]; simplify_eq/=;
          inversion HF as [|? ? ? ? Hb HF']; simplify_eq/=.
        apply parse_object_ok in Hb. rewrite E in Hb. simplify_eq.
        exists nb, nl. rewrite <- !app_assoc. by repeat split.
    + split; [done|]. intros (nb & nl & -> & -> & Hl & HF).
      destruct nb as [|b0 nb], nl as [|l0 nl]; simplify_eq/=;
        inversion HF as [|? ? ? ? Hb HF']; simplify_eq/=.
      apply parse_object_ok in Hb. congruence.
Qed.

Lemma parse_objects_raise objs bs ls :
  (exists e, parse_objects objs bs ls = Raise e) <->
  ~ Forall required_fields objs.
Proof.
  revert bs ls. induction objs as [|obj objs IH]; intros bs ls; simpl.
  - split; [by intros [e ?]|]. intros []. constructor.
  - unfold mbind, result_bind.
    destruct (parse_object obj) as [[b l]|e] eqn:E; simpl.
    + rewrite IH. rewrite Forall_cons.
      assert (required_fields obj) by (exists b, l; by apply parse_object_ok).
      tauto.
    + split; [|by eexists]. intros _ [Hb _]%Forall_cons.
      by apply (proj1 (parse_object_raise obj)); [eexists|].
Qed.

Lemma parse_root_ok root boxes labels :
  parse_root root = Ok (boxes, labels) <-> decodes_to root boxes labels.
Proof.
  unfold parse_root, decodes_to. rewrite parse_objects_ok by done. split.
  - intros (nb & nl & -> & -> & Hl & HF). done.
  - intros [Hl HF]. by exists boxes, labels.
Qed.

End Reader.

(** ** Encoding, then decoding *)

Section RoundTrip.

Lemma compatible_digits d : Xml.compatible (NilEmpty.string_of_uint d) = true.
Proof. induction d; simpl; auto. Qed.

(** The text of a number is not empty, and [lxml] takes it. *)
Lemma str_int_text z s :
  Py.str_int z = Some s ->
  Xml.compatible s = true /\ Xml.reread_text (Some s) = Some s.
Proof.
  unfold Py.str_int. destruct (_ <=? _)%nat; [|done]. intros [= <-].
  destruct (Z.to_int z) as [d|d]; destruct d; simpl; split; try done;
    apply compatible_digits.
Qed.

Lemma generate_int name z :
  _generate_xml_element_with_text name (Py.PInt z)
  = match Py.str_int z with
    | Some s => Ok (Xml.Element name (Some s) [])
    | None => Raise Py.ValueError
    end.
Proof.
  unfold _generate_xml_element_with_text. simpl.
  destruct (Py.str_int z) as [s|] eqn:E; [|done].
  by rewrite (proj1 (str_int_text z s E)).
Qed.

Lemma encodable_int_str z :
  encodable_int z = true ->
  exists s, Py.str_int z = Some s /\ Py.int s = Some z /\
    Xml.reread_text (Some s) = Some s.
Proof.
  intros H. unfold encodable_int in H.
  destruct (Py.str_int z) as [s|] eqn:E.
  - exists s. split; [done|]. split; [by apply int_str_int|].
    by apply (str_int_text z).
  - unfold Py.str_int in E. by rewrite H in E.
Qed.

Lemma not_encodable_int z : encodable_int z = false -> Py.str_int z = None.
Proof. unfold encodable_int, Py.str_int. by intros ->. Qed.

Lemma str_int_zero : Py.str_int 0 = Some "0".
Proof. vm_compute. reflexivity. Qed.

Lemma generate_label name n :
  _generate_xml_element_with_text name n
  = if encodable_label n then
      match Py.str n with
      | Some s => Ok (Xml.Element name (Some s) [])
      | None => Raise Py.ValueError
      end
    else Raise Py.ValueError.
Proof.
  unfold _generate_xml_element_with_text, encodable_label.
  destruct (Py.str n) as [s|]; [|done]. by destruct (Xml.compatible s).
Qed.

Lemma generate_object_raise n b :
  encodable_label n && encodable_box b = false ->
  _generate_object_annotation n b = Raise Py.ValueError.
Proof.
  destruct b as [[[x0 y0] x1] y1]. unfold encodable_box.
  cbn [fst snd]. intros H. unfold _generate_object_annotation.
  rewrite (generate_label "name" n), !generate_int, str_int_zero.
  destruct (encodable_label n) eqn:En; [|done].
  unfold encodable_label in En. destruct (Py.str n) as [s|]; [|done].
  cbn [mbind result_bind andb] in *.
  destruct (encodable_int x0) eqn:E0;
    [apply encodable_int_str in E0 as (? & -> & _)
    |by rewrite (not_encodable_int _ E0)].
  destruct (encodable_int y0) eqn:E1;
    [apply encodable_int_str in E1 as (? & -> & _)
    |by rewrite (not_encodable_int _ E1)].
  destruct (encodable_int x1) eqn:E2;
    [apply encodable_int_str in E2 as (? & -> & _)
    |by rewrite (not_encodable_int _ E2)].
  destruct (encodable_int y1) eqn:E3; [done|].
  by rewrite (not_encodable_int _ E3).
Qed.

Lemma generate_object_ok n b :
  encodable_label n = true -> encodable_box b = true ->
  exists obj,
    _generate_object_annotation n b = Ok obj /\
    Xml.has_tag "object" (Xml.reread obj) = true /\
    parse_object (Xml.reread obj) = Ok (b, reread_label n).
Proof.
  destruct b as [[[x0 y0] x1] y1]. unfold encodable_box.
  cbn [fst snd]. intros Hn Hb.
  apply andb_prop in Hb as [[[H0 H1]%andb_prop H2]%andb_prop H3].
  apply encodable_int_str in H0 as (s0 & E0 & I0 & R0).
  apply encodable_int_str in H1 as (s1 & E1 & I1 & R1).
  apply encodable_int_str in H2 as (s2 & E2 & I2 & R2).
  apply encodable_int_str in H3 as (s3 & E3 & I3 & R3).
  unfold _generate_object_annotation, reread_label.
  rewrite (generate_label "name" n), Hn.
  rewrite !generate_int, str_int_zero, E0, E1, E2, E3.
  unfold encodable_label in Hn. destruct (Py.str n) as [s|]; [|done].
  eexists. split; [reflexivity|]. split; [reflexivity|].
  unfold parse_object, int_field, find_child, mbind, result_bind.
  cbn -[Py.int Xml.reread_text]. rewrite R0, R1, R2, R3, I0, I1, I2, I3.
  by destruct s.
Qed.

Lemma append_objects_raise pairs root :
  encodable_pairs pairs = false ->
  append_objects root pairs = Raise Py.ValueError.
Proof.
  revert root. induction pairs as [|[n b] pairs IH]; intros root; [done|].
  unfold encodable_pairs. cbn [forallb append_objects fst snd].
  destruct (encodable_label n && encodable_box b) eqn:E.
  - apply andb_prop in E as [En Eb].
    destruct (generate_object_ok n b En Eb) as (obj & -> & _).
    cbn [mbind result_bind andb]. apply IH.
  - intros _. by rewrite (generate_object_raise n b E).
Qed.

Lemma append_objects_ok pairs t x cs :
  encodable_pairs pairs = true ->
  exists objs,
    append_objects (Xml.Element t x cs) pairs
    = Ok (Xml.Element t x (cs ++ objs)) /\
    Forall (fun obj => Xml.has_tag "object" obj = true)
      (List.map Xml.reread objs) /\
    forall bs ls,
      parse_objects (List.map Xml.reread objs) bs ls
      = Ok ((bs ++ List.map snd pairs)%list,
            (ls ++ List.map (fun nb => reread_label nb.1) pairs)%list).
Proof.
  revert cs. induction pairs as [|[n b] pairs IH]; intros cs.
  - intros _. exists []. rewrite app_nil_r. split; [done|]. split; [done|].
    intros bs ls. simpl. by rewrite !app_nil_r.
  - unfold encodable_pairs. cbn [forallb append_objects fst snd].
    intros [[En Eb]%andb_prop Hrest]%andb_prop.
    destruct (generate_object_ok n b En Eb) as (obj & -> & Ht & Hp).
    cbn [mbind result_bind Xml.append].
    destruct (IH (cs ++ [obj])%list Hrest) as (objs & -> & Hts & Hps).
    exists (obj :: objs). rewrite <- app_assoc. split; [done|].
    split; [by constructor|].
    intros bs ls. cbn [List.map parse_objects]. rewrite Hp.
    cbn [mbind result_bind fst snd]. rewrite Hps. by rewrite <- !app_assoc.
Qed.

Lemma filter_all {A} (f : A -> bool) l :
  Forall (fun x => f x = true) l -> List.filter f l = l.
Proof.
  induction 1 as [|x l Hx _ IH]; [done|]. simpl. by rewrite Hx, IH.
Qed.

Lemma annotation_root_raise img names boxes :
  encodable_shape img && encodable_pairs (combine names boxes) = false ->
  annotation_root img names boxes = Raise Py.ValueError.
Proof.
  destruct img as [[h w] d]. unfold encodable_shape, annotation_root.
  cbn [fst snd]. rewrite !generate_int. intros H.
  destruct (encodable_int w) eqn:Ew;
    [destruct (encodable_int_str _ Ew) as (? & -> & _)
    |by rewrite (not_encodable_int _ Ew)].
  destruct (encodable_int h) eqn:Eh;
    [destruct (encodable_int_str _ Eh) as (? & -> & _)
    |by rewrite (not_encodable_int _ Eh)].
  destruct (encodable_int d) eqn:Ed;
    [destruct (encodable_int_str _ Ed) as (? & -> & _)
    |by rewrite (not_encodable_int _ Ed)].
  cbn [mbind result_bind]. apply append_objects_raise.
  by rewrite ?Eh, ?Ew, ?Ed in H.
Qed.

(** The tree the encoder builds reads back as the pairs [zip] formed. *)
Lemma annotation_root_ok img names boxes :
  encodable_shape img = true ->
  encodable_pairs (combine names boxes) = true ->
  exists root,
    annotation_root img names boxes = Ok root /\
    parse_root (Xml.reread root)
    = Ok (List.map snd (combine names boxes),
          List.map (fun nb => reread_label nb.1) (combine names boxes)).
Proof.
  destruct img as [[h w] d]. unfold encodable_shape, annotation_root.
  cbn [fst snd]. intros [[Hh Hw]%andb_prop Hd]%andb_prop Hp.
  apply encodable_int_str in Hh as (sh & Eh & _).
  apply encodable_int_str in Hw as (sw & Ew & _).
  apply encodable_int_str in Hd as (sd & Ed & _).
  rewrite !generate_int, Eh, Ew, Ed. cbn [mbind result_bind Xml.append app].
  destruct (append_objects_ok _ ROOT_NAME None
              [Xml.Element "size" None
                 [Xml.Element "width" (Some sw) [];
                  Xml.Element "height" (Some sh) [];
                  Xml.Element "depth" (Some sd) []]] Hp)
    as (objs & -> & Hts & Hps).
  eexists. split; [reflexivity|].
  unfold parse_root, Xml.findall.
  cbn [Xml.reread Xml.children List.map app List.filter].
  change (Xml.has_tag "object" (Xml.Element "size" _ _)) with false.
  cbv iota. fold (List.filter (Xml.has_tag "object")).
  rewrite (filter_all _ _ Hts). apply (Hps [] []).
Qed.

Lemma annotation_root_inv img names boxes root :
  annotation_root img names boxes = Ok root ->
  encodable_shape img = true /\
  encodable_pairs (combine names boxes) = true.
Proof.
  intros H.
  destruct (encodable_shape img && encodable_pairs (combine names boxes))
    eqn:E; [by apply andb_prop in E|].
  by rewrite annotation_root_raise in H.
Qed.

End RoundTrip.

(** ** Writing an annotation file *)

Section Write.

Lemma generate_built img names boxes root path overwrite m :
  annotation_root img names boxes = Ok root ->
  generate_pascalvoc_annotation_from_image img names boxes path overwrite m
  = write_annotation root path overwrite m.
Proof.
  intros H. unfold generate_pascalvoc_annotation_from_image. by rewrite H.
Qed.

Lemma generate_refused img names boxes e path overwrite m :
  annotation_root img names boxes = Raise e ->
  generate_pascalvoc_annotation_from_image img names boxes path overwrite m
  = (m, Raise e).
Proof.
  intros H. unfold generate_pascalvoc_annotation_from_image. by rewrite H.
Qed.

Lemma write_rejected m root path :
  Fs.exists_ (fs m) path = true ->
  write_annotation root path false m
  = (m, Raise (Py.AssertionError
                 ("generate_pascalvoc_annotation_from_image(): " ++ path ++
                  " already exists!"))).
Proof.
  intros He. unfold write_annotation, mbind, M_bind,
    os_query, py_assert, raise. simpl. by rewrite He.
Qed.

Lemma write_permitted m root path overwrite :
  ~ (overwrite = false /\ Fs.exists_ (fs m) path = true) ->
  write_annotation root path overwrite m
  = match Fs.write (fs m) path (Fs.Document root) with
    | inl e => (m, Raise e)
    | inr fs' => (Machine fs' (heap m) (self m), Ok tt)
    end.
Proof.
  intros Hn. unfold write_annotation, mbind, M_bind,
    os_query, os_update, py_assert, raise, mret, M_ret.
  destruct overwrite; simpl; [done|].
  destruct (Fs.exists_ (fs m) path); [|done]. by destruct Hn.
Qed.

Lemma climb_dir fs0 fuel d :
  fs0 !! d = Some Fs.Dir -> Fs.climb fs0 fuel d = None.
Proof. intros H. destruct fuel; simpl; by rewrite H. Qed.

Lemma isdir_stat fs0 p :
  Fs.isdir fs0 p = true <-> p <> "" /\ fs0 !! Path.resolve p = Some Fs.Dir.
Proof.
  unfold Fs.isdir, Fs.lookup, Fs.stat.
  destruct (String.eqb_spec p "") as [->|Hp]; [split; [done|by intros [? _]]|].
  destruct (fs0 !! Path.resolve p) as [[|c]|].
  - done.
  - destruct (Path.endswith_sep p); split; try done; by intros [_ ?].
  - destruct (Fs.parent_error fs0 p); split; try done; by intros [_ ?].
Qed.

(** A path can be written when it is not empty, has no separator at its
    end, is not a directory, and lies in a directory. *)
Lemma fs_write_ok fs0 path c :
  path <> "" -> Path.endswith_sep path = false ->
  Fs.isdir fs0 path = false ->
  fs0 !! Fs.parent path = Some Fs.Dir ->
  Fs.write fs0 path c = inr (<[Path.resolve path := Fs.File c]> fs0).
Proof.
  intros Hp He Hd Hpar. unfold Fs.write, Fs.parent_error.
  rewrite (proj2 (String.eqb_neq path "") Hp), (climb_dir _ _ _ Hpar), He.
  destruct (fs0 !! Path.resolve path) as [[|?]|] eqn:E; try done.
  assert (Fs.isdir fs0 path = true) by (by apply isdir_stat). congruence.
Qed.

(** And only then. *)
Lemma fs_write_fail fs0 path c :
  ~ (path <> "" /\ Path.endswith_sep path = false /\
     Fs.isdir fs0 path = false /\ fs0 !! Fs.parent path = Some Fs.Dir) ->
  exists e, Fs.write fs0 path c = inl e.
Proof.
  intros Hn. unfold Fs.write.
  destruct (String.eqb_spec path "") as [->|Hp]; [by eexists|].
  destruct (fs0 !! Path.resolve path) as [[|?]|] eqn:E; [by eexists|..].
  - destruct (Fs.parent_error fs0 path) as [e|] eqn:Epar; [by eexists|].
    destruct (Path.endswith_sep path) eqn:He; [by eexists|].
    destruct Hn. split_and!; try done.
    + destruct (Fs.isdir fs0 path) eqn:Hd; [|done].
      apply isdir_stat in Hd as [_ Hd]. congruence.
    + unfold Fs.parent_error in Epar.
      destruct (String.length path); simpl in Epar;
        destruct (fs0 !! Fs.parent path) as [[|?]|]; try done;
        by destruct (Fs.climb _ _ _) as [[]|].
  - destruct (Fs.parent_error fs0 path) as [e|] eqn:Epar; [by eexists|].
    destruct (Path.endswith_sep path) eqn:He; [by eexists|].
    destruct Hn. split_and!; try done.
    + destruct (Fs.isdir fs0 path) eqn:Hd; [|done].
      apply isdir_stat in Hd as [_ Hd]. congruence.
    + unfold Fs.parent_error in Epar.
      destruct (String.length path); simpl in Epar;
        destruct (fs0 !! Fs.parent path) as [[|?]|]; try done;
        by destruct (Fs.climb _ _ _) as [[]|].
Qed.

End Write.

(** ** Running the monad *)

Section Monad.

Lemma bind_ok {A B} (c : M A) (k : A -> M B) m m' b :
  (c ≫= k) m = (m', Ok b) <->
  exists a m1, c m = (m1, Ok a) /\ k a m1 = (m', Ok b).
Proof.
  unfold mbind, M_bind. split.
  - destruct (c m) as [m1 [a|e]]; [|done]. intros H. by exists a, m1.
  - intros (a & m1 & -> & H). done.
Qed.

Lemma bind_run {A B} (c : M A) (k : A -> M B) m m1 a :
  c m = (m1, Ok a) -> (c ≫= k) m = k a m1.
Proof. unfold mbind, M_bind. by intros ->. Qed.

Lemma bind_raise {A B} (c : M A) (k : A -> M B) m m1 e :
  c m = (m1, Raise e) -> (c ≫= k) m = (m1, Raise e).
Proof. unfold mbind, M_bind. by intros ->. Qed.

End Monad.

Ltac mrun :=
  cbv beta iota zeta delta
    [mbind M_bind mret M_ret get_self get_heap put_self put_heap modify_self
     os_query os_call os_update alloc raise py_assert lift index cur_img_path];
  cbn [fs heap self _folder _img_paths _cur_img _cur_bboxes _cur_labels
       _changed _bbbox_in_progress _annotations _obj_label _index
       set_cur_img set_cur_lists set_changed set_bbbox_in_progress
       set_annotations set_index].

Ltac mrun_in H :=
  cbv beta iota zeta delta
    [mbind M_bind mret M_ret get_self get_heap put_self put_heap modify_self
     os_query os_call os_update alloc raise py_assert lift index cur_img_path]
    in H;
  cbn [fs heap self _folder _img_paths _cur_img _cur_bboxes _cur_labels
       _changed _bbbox_in_progress _annotations _obj_label _index
       set_cur_img set_cur_lists set_changed set_bbbox_in_progress
       set_annotations set_index] in H.

(** Closed goals about the example sessions are settled by evaluation. *)
Ltac evaluate := vm_compute; reflexivity.
Ltac evaluate_all :=
  repeat match goal with |- _ /\ _ => split end; evaluate.

(** ** The [index] setter, part by part *)

Section Setter.

Lemma getitem_ok {A} (l : list A) i x :
  getitem l i = Ok x -> 0 <= i -> l !! Z.to_nat i = Some x.
Proof.
  unfold getitem. intros H Hi.
  destruct (i <? 0) eqn:E; [lia|].
  destruct (_ || _); [done|]. by destruct (l !! Z.to_nat i); simplify_eq.
Qed.

Lemma getitem_lookup {A} (l : list A) i x :
  0 <= i -> l !! Z.to_nat i = Some x -> getitem l i = Ok x.
Proof.
  intros Hi Hx. unfold getitem.
  pose proof (lookup_lt_Some _ _ _ Hx) as Hlt.
  destruct (i <? 0) eqn:E; [lia|].
  destruct (i <? 0) eqn:E1; [lia|].
  destruct (Z.of_nat (length l) <=? i) eqn:E2; [lia|]. simpl. by rewrite Hx.
Qed.

Lemma load_incoming_run v m p img :
  _img_paths (self m) <> [] ->
  _img_paths (self m)
    !! Z.to_nat (v mod Z.of_nat (length (_img_paths (self m)))) = Some p ->
  Fs.imread (fs m) p = Some img ->
  load_incoming v m
  = (after_load m (v mod Z.of_nat (length (_img_paths (self m)))) p img,
     Ok tt).
Proof.
  intros HN Hp Hi. unfold load_incoming, after_load. mrun.
  set (s := self m) in *. set (i := v mod _) in *.
  assert (Z.of_nat (length (_img_paths s)) <> 0) as HN'
    by (destruct (_img_paths s); simpl; [done|lia]).
  destruct (Z.of_nat (length (_img_paths s)) =? 0) eqn:E; [lia|]. mrun.
  fold s i. assert (0 <= i) as Hi0 by (apply Z.mod_pos_bound; lia).
  rewrite (getitem_lookup _ _ _ Hi0 Hp). mrun. fold s. rewrite Hi.
  destruct (_annotations s !! p) as [[b l]|] eqn:Ha.
  - rewrite bool_decide_true by done. mrun. fold s. rewrite Ha. mrun.
    by rewrite bool_decide_true.
  - rewrite bool_decide_false by (by intros [? ?]). mrun.
    rewrite lookup_insert_eq. mrun. rewrite bool_decide_true by done.
    unfold loaded. rewrite <- app_assoc, length_app. simpl.
    by rewrite Nat.add_1_r.
Qed.

Lemma load_incoming_ok v m m' :
  load_incoming v m = (m', Ok tt) ->
  exists p img,
    _img_paths (self m) <> [] /\
    _img_paths (self m)
      !! Z.to_nat (v mod Z.of_nat (length (_img_paths (self m)))) = Some p /\
    Fs.imread (fs m) p = Some img /\
    m' = after_load m (v mod Z.of_nat (length (_img_paths (self m)))) p img.
Proof.
  intros H. pose proof H as H0. unfold load_incoming in H. mrun_in H.
  set (s := self m) in *. set (i := v mod _) in *.
  destruct (Z.of_nat (length (_img_paths s)) =? 0) eqn:HN; mrun_in H; [done|].
  fold s i in H.
  destruct (getitem (_img_paths s) i) as [p|] eqn:Hp; mrun_in H; [|done].
  assert (_img_paths s <> []) as HN' by (by intros E; rewrite E in HN).
  assert (0 <= i) as Hi by (apply Z.mod_pos_bound; lia).
  apply getitem_ok in Hp; [|done].
  destruct (Fs.imread (fs m) p) as [img|] eqn:Hi'.
  - exists p, img. repeat split; try done.
    rewrite (load_incoming_run v m p img HN' Hp Hi') in H0. by simplify_eq.
  - fold s in H.
    destruct (_annotations s !! p) as [[b l]|] eqn:Ha.
    + rewrite bool_decide_true in H by done. mrun_in H. fold s in H.
      rewrite Ha in H. mrun_in H.
      rewrite bool_decide_false in H by (by intros [? ?]). by mrun_in H.
    + rewrite bool_decide_false in H by (by intros [? ?]). mrun_in H.
      rewrite lookup_insert_eq in H. mrun_in H.
      rewrite bool_decide_false in H by (by intros [? ?]). by mrun_in H.
Qed.

End Setter.

(** ** What the outgoing image's reconciliation does to the file system *)

Section Persist.

(** The codec only touches the file system. *)
Lemma write_annotation_frame root path overwrite m m' r :
  write_annotation root path overwrite m = (m', r) ->
  heap m' = heap m /\ self m' = self m.
Proof.
  unfold write_annotation. mrun. intros H.
  destruct overwrite; simpl in H.
  - destruct (Fs.write _ _ _); by simplify_eq.
  - destruct (Fs.exists_ _ _); simpl in H; [by simplify_eq|].
    destruct (Fs.write _ _ _); by simplify_eq.
Qed.

Lemma generate_frame img names boxes path overwrite m m' r :
  generate_pascalvoc_annotation_from_image img names boxes path overwrite m
  = (m', r) ->
  heap m' = heap m /\ self m' = self m.
Proof.
  intros H. destruct (annotation_root img names boxes) as [root|e] eqn:E.
  - rewrite (generate_built _ _ _ _ _ _ _ E) in H.
    by eapply write_annotation_frame.
  - rewrite (generate_refused _ _ _ _ _ _ _ E) in H. by simplify_eq.
Qed.

Lemma generate_file_frame p names boxes d overwrite m m' r :
  generate_pascvalvoc_annotation_from_image_file p names boxes d overwrite m
  = (m', r) ->
  heap m' = heap m /\ self m' = self m.
Proof.
  unfold generate_pascvalvoc_annotation_from_image_file.
  destruct (Path.splitext p) as [stem ext]. mrun. intros H.
  destruct (Fs.imread (fs m) p) as [img|]; [|by simplify_eq].
  destruct d as [d|]; [|by eapply generate_frame].
  destruct (Fs.exists_ (fs m) _); simpl in H.
  - by eapply generate_frame.
  - destruct (Fs.mkdir _ _); [by simplify_eq|].
    apply generate_frame in H. by simpl in H.
Qed.

Lemma live_shown m :
  live m ->
  exists i, _index (self m) = Some i /\
    getitem (_img_paths (self m)) i = Ok (shown_path m).
Proof.
  intros (i & p & Hi & Hr & Hp & _). exists i. split; [done|].
  unfold shown_path. rewrite Hi.
  by rewrite (getitem_lookup _ _ _ (proj1 Hr) Hp).
Qed.

Lemma save_outgoing_skip m :
  should_save (heap m) (self m) = false -> save_outgoing m = (m, Ok tt).
Proof. intros H. unfold save_outgoing. mrun. by rewrite H. Qed.

Lemma wf_lengths m :
  wf m -> length (cur_bboxes m) = length (cur_labels m).
Proof.
  intros [(_ & bs & ls & Hb & Hl & Hlen) _].
  unfold cur_bboxes, cur_labels, boxes_at, labels_at. by rewrite Hb, Hl.
Qed.

Lemma save_outgoing_save m :
  wf m -> live m -> should_save (heap m) (self m) = true ->
  save_outgoing m
  = generate_pascvalvoc_annotation_from_image_file (shown_path m)
      (cur_labels m) (cur_bboxes m) (Some (annotation_dir (self m))) true m.
Proof.
  intros Hwf Hl Hs. destruct (live_shown m Hl) as (i & Hi & Hp).
  unfold save_outgoing. mrun. rewrite Hs.
  pose proof (wf_lengths m Hwf) as Hlen. unfold cur_bboxes, cur_labels in *.
  rewrite <- Hlen, Nat.eqb_refl. mrun. rewrite Hi, Hp. by mrun.
Qed.

Lemma remove_when_empty_run m :
  live m ->
  _remove_annotation_file_when_empty m
  = if should_remove (heap m) (self m)
         (Fs.isfile (fs m) (shown_annotation_file m))
    then match Fs.remove (fs m) (shown_annotation_file m) with
         | inl e => (m, Raise e)
         | inr fs' => (with_fs m fs', Ok tt)
         end
    else (m, Ok tt).
Proof.
  intros Hl. destruct (live_shown m Hl) as (i & Hi & Hp).
  unfold _remove_annotation_file_when_empty, shown_annotation_file. mrun.
  rewrite Hi. mrun. rewrite Hi, Hp. mrun.
  destruct (should_remove _ _ _); [|done]. by destruct (Fs.remove _ _).
Qed.

(** A record with boxes has labels, so the removal never follows a
    write. *)
Lemma should_remove_nonempty m isfile :
  wf m -> cur_bboxes m <> [] ->
  should_remove (heap m) (self m) isfile = false.
Proof.
  intros Hwf Hb. pose proof (wf_lengths m Hwf) as Hlen.
  unfold should_remove, cur_bboxes, cur_labels in *.
  destruct (boxes_at _ _); [done|]. by destruct (labels_at _ _).
Qed.

Lemma should_remove_empty m isfile :
  cur_bboxes m = [] -> should_remove (heap m) (self m) isfile = true.
Proof. unfold should_remove, cur_bboxes. by intros ->. Qed.

Lemma should_save_nonempty m :
  should_save (heap m) (self m) = true -> cur_bboxes m <> [].
Proof.
  unfold should_save, cur_bboxes.
  intros [[_ H]%andb_prop _]%andb_prop. by destruct (boxes_at _ _).
Qed.

End Persist.

(** ** The invariant of reachable states *)

Section Invariant.

Lemma record_ok_app h extra b l :
  record_ok h b l -> record_ok (h ++ extra) b l.
Proof.
  intros (-> & bs & ls & Hb & Hl & Hlen). split; [done|].
  exists bs, ls. repeat split; [| |done].
  - rewrite lookup_app_l; [done|]. by eapply lookup_lt_Some.
  - rewrite lookup_app_l; [done|]. by eapply lookup_lt_Some.
Qed.

Lemma record_ok_new h bs ls :
  length bs = length ls ->
  record_ok (h ++ [OBoxes bs; OLabels ls]) (length h) (S (length h)).
Proof.
  intros Hlen. split; [done|]. exists bs, ls. repeat split; [| |done].
  - rewrite lookup_app_r by lia. by rewrite Nat.sub_diag.
  - rewrite lookup_app_r by lia.
    by replace (S (length h) - length h)%nat with 1%nat by lia.
Qed.

(** Changing both lists of one record leaves every record well formed. *)
Lemma record_ok_update h cb cl bs' ls' b l :
  record_ok h cb cl -> length bs' = length ls' ->
  record_ok h b l ->
  record_ok (<[cl := OLabels ls']> (<[cb := OBoxes bs']> h)) b l.
Proof.
  intros (-> & cbs & cls & Hcb & Hcl & _) Hlen (-> & bs & ls & Hb & Hl & Hlen').
  pose proof (lookup_lt_Some _ _ _ Hcb) as Hlt.
  pose proof (lookup_lt_Some _ _ _ Hcl) as Hlt'.
  split; [done|]. destruct (decide (b = cb)) as [->|Hne].
  - exists bs', ls'. repeat split; [| |done].
    + rewrite list_lookup_insert_ne by (intros ?; lia).
      by rewrite list_lookup_insert_eq.
    + rewrite list_lookup_insert_eq; [done|]. by rewrite length_insert.
  - exists bs, ls. repeat split; [| |done].
    + rewrite list_lookup_insert_ne by (intros E; subst; congruence).
      by rewrite list_lookup_insert_ne.
    + rewrite list_lookup_insert_ne by (intros ?; lia).
      rewrite list_lookup_insert_ne; [done|]. intros E. subst. congruence.
Qed.

Lemma wf_with_fs m fs' : wf m -> wf (with_fs m fs').
Proof. done. Qed.

Lemma wf_same m m' : heap m' = heap m -> self m' = self m -> wf m -> wf m'.
Proof. unfold wf. by intros -> ->. Qed.

Lemma wf_after_load m i p img : wf m -> wf (after_load m i p img).
Proof.
  intros [Hc Ha]. unfold after_load.
  destruct (_annotations (self m) !! p) as [[b l]|] eqn:E; split; simpl.
  - by eapply Ha.
  - done.
  - by apply record_ok_new.
  - intros k b l Hk. destruct (decide (k = p)) as [->|Hne].
    + rewrite lookup_insert_eq in Hk. simplify_eq. by apply record_ok_new.
    + rewrite lookup_insert_ne in Hk by done.
      apply record_ok_app. by eapply Ha.
Qed.

Lemma live_after_load m i p img :
  0 <= i < Z.of_nat (length (_img_paths (self m))) ->
  _img_paths (self m) !! Z.to_nat i = Some p ->
  live (after_load m i p img).
Proof.
  intros Hi Hp. exists i, p. unfold after_load.
  destruct (_annotations (self m) !! p) as [[b l]|] eqn:E; simpl;
    repeat split; try done; try lia.
  by rewrite lookup_insert_eq.
Qed.

Lemma save_outgoing_frame m m' r :
  save_outgoing m = (m', r) -> heap m' = heap m /\ self m' = self m.
Proof.
  unfold save_outgoing. mrun. intros H.
  destruct (should_save _ _); [|by simplify_eq].
  destruct (_ =? _)%nat; mrun_in H; [|by simplify_eq].
  destruct (_index (self m)); mrun_in H; [|by simplify_eq].
  destruct (getitem _ _); mrun_in H; [|by simplify_eq].
  by eapply generate_file_frame.
Qed.

Lemma remove_when_empty_frame m m' r :
  _remove_annotation_file_when_empty m = (m', r) ->
  heap m' = heap m /\ self m' = self m.
Proof.
  unfold _remove_annotation_file_when_empty. mrun. intros H.
  destruct (_index (self m)) eqn:Hi; mrun_in H; [|by simplify_eq].
  rewrite ?Hi in H. mrun_in H.
  destruct (getitem _ _); mrun_in H; [|by simplify_eq].
  destruct (should_remove _ _ _); [|by simplify_eq].
  destruct (Fs.remove _ _); by simplify_eq.
Qed.

(** The setter, taken apart. *)
Lemma index_setter_ok v m m' :
  index_setter v m = (m', Ok tt) ->
  exists m1 m2,
    save_outgoing m = (m1, Ok tt) /\
    _remove_annotation_file_when_empty m1 = (m2, Ok tt) /\
    load_incoming v m2 = (m', Ok tt) /\
    heap m2 = heap m /\ self m2 = self m.
Proof.
  unfold index_setter.
  intros ([] & m1 & H1 & ([] & m2 & H2 & H3)%bind_ok)%bind_ok.
  exists m1, m2. repeat split; try done.
  - apply save_outgoing_frame in H1 as [E1 _].
    apply remove_when_empty_frame in H2 as [E2 _]. congruence.
  - apply save_outgoing_frame in H1 as [_ E1].
    apply remove_when_empty_frame in H2 as [_ E2]. congruence.
Qed.

Lemma index_setter_inv v m m' :
  wf m -> index_setter v m = (m', Ok tt) -> wf m' /\ live m'.
Proof.
  intros Hwf (m1 & m2 & _ & _ & H3 & Eh & Es)%index_setter_ok.
  apply load_incoming_ok in H3 as (p & img & HN & Hp & _ & ->).
  split.
  - apply wf_after_load. by eapply wf_same.
  - apply live_after_load; [|done]. apply Z.mod_pos_bound.
    destruct (_img_paths (self m2)); simpl; [done|lia].
Qed.

End Invariant.

Section Commands.

Lemma length_removelast {A} (l : list A) :
  length (removelast l) = Nat.pred (length l).
Proof.
  induction l as [|x [|y l] IH]; simpl in *; [done..|]. by rewrite IH.
Qed.

Lemma live_same m m' :
  _index (self m') = _index (self m) ->
  _img_paths (self m') = _img_paths (self m) ->
  _cur_img (self m') = _cur_img (self m) ->
  _annotations (self m') = _annotations (self m) ->
  _cur_bboxes (self m') = _cur_bboxes (self m) ->
  _cur_labels (self m') = _cur_labels (self m) ->
  live m -> live m'.
Proof. unfold live. by intros -> -> -> -> -> ->. Qed.

(** Both lists of the current record change together. *)
Lemma wf_update_cur m bs' ls' s' :
  wf m -> length bs' = length ls' ->
  _cur_bboxes s' = _cur_bboxes (self m) ->
  _cur_labels s' = _cur_labels (self m) ->
  _annotations s' = _annotations (self m) ->
  wf (Machine (fs m)
        (<[_cur_labels (self m) := OLabels ls']>
           (<[_cur_bboxes (self m) := OBoxes bs']> (heap m))) s').
Proof.
  intros [Hc Ha] Hlen Eb El Ea. split; simpl; rewrite ?Eb, ?El, ?Ea.
  - by apply record_ok_update.
  - intros k b l Hk. apply record_ok_update; [done..|]. by eapply Ha.
Qed.

(** Updating the list of boxes leaves the list of labels as it is. *)
Lemma labels_at_other m bs :
  wf m ->
  labels_at (<[_cur_bboxes (self m) := OBoxes bs]> (heap m))
    (_cur_labels (self m))
  = labels_at (heap m) (_cur_labels (self m)).
Proof.
  intros [(E & _) _]. unfold labels_at.
  rewrite list_lookup_insert_ne; [done|]. rewrite E. intros ?; lia.
Qed.

Lemma mouse_callback_inv e x y m m' r :
  wf m -> live m -> _mouse_callback e x y m = (m', r) -> wf m' /\ live m'.
Proof.
  intros Hwf Hl H. unfold _mouse_callback in H. mrun_in H.
  destruct e, (_bbbox_in_progress (self m)) as [[[[x0 y0] x1] y1]|];
    mrun_in H; simplify_eq; try done.
  split.
  - apply (wf_update_cur m); try done.
    pose proof (wf_lengths m Hwf) as Hlen.
    unfold cur_bboxes, cur_labels in Hlen.
    rewrite (labels_at_other m _ Hwf), !length_app. simpl. by rewrite Hlen.
  - by eapply live_same.
Qed.

Lemma undo_inv m m' r :
  wf m -> live m -> _undo m = (m', r) -> wf m' /\ live m'.
Proof.
  intros Hwf Hl H. unfold _undo in H. mrun_in H.
  destruct (_ && _); mrun_in H; simplify_eq; [|done].
  split.
  - apply (wf_update_cur m); try done.
    pose proof (wf_lengths m Hwf) as Hlen.
    unfold cur_bboxes, cur_labels in Hlen.
    rewrite (labels_at_other m _ Hwf), !length_removelast. by rewrite Hlen.
  - by eapply live_same.
Qed.

Lemma next_image_inv m m' :
  wf m -> _next_image m = (m', Ok tt) -> wf m' /\ live m'.
Proof.
  intros Hwf H. unfold _next_image in H. mrun_in H.
  destruct (_index (self m)); [|done]. by eapply index_setter_inv.
Qed.

Lemma prev_image_inv m m' :
  wf m -> _prev_image m = (m', Ok tt) -> wf m' /\ live m'.
Proof.
  intros Hwf H. unfold _prev_image in H. mrun_in H.
  destruct (_index (self m)); [|done]. by eapply index_setter_inv.
Qed.

Lemma exit_inv m m' :
  wf m -> live m -> __exit__ m = (m', Ok tt) -> wf m' /\ live m'.
Proof.
  intros Hwf Hl H. unfold __exit__ in H. mrun_in H.
  destruct (_changed (self m)); [|by simplify_eq].
  destruct (_index (self m)); [|done]. by eapply index_setter_inv.
Qed.

(** The machine when [_clear] calls the setter. *)
Lemma clear_ok m m' :
  live m ->
  _clear m = (m', Ok tt) ->
  exists i,
    _index (self m) = Some i /\
    index_setter i
      (Machine (fs m) (heap m)
         (set_annotations (delete (shown_path m) (_annotations (self m)))
            (set_changed true (set_cur_img None (self m)))))
    = (m', Ok tt).
Proof.
  intros Hl H. destruct (live_shown m Hl) as (i & Hi & Hp).
  exists i. split; [done|]. unfold _clear in H. mrun_in H.
  rewrite Hi, Hp in H. mrun_in H.
  destruct (bool_decide _) eqn:E; mrun_in H; rewrite Hi in H; [done|].
  apply bool_decide_eq_false in E.
  rewrite delete_id by (by apply eq_None_not_Some). by destruct (self m).
Qed.

Lemma clear_inv m m' :
  wf m -> live m -> _clear m = (m', Ok tt) -> wf m' /\ live m'.
Proof.
  intros [Hc Ha] Hl (i & _ & H)%clear_ok; [|done].
  eapply index_setter_inv; [|done]. split; simpl; [done|].
  intros k b l [_ Hk]%lookup_delete_Some. by eapply Ha.
Qed.

Lemma update_inv key m m' q :
  wf m -> live m -> update key m = (m', Ok q) -> wf m' /\ live m'.
Proof.
  intros Hwf Hl H. unfold update in H. mrun_in H.
  destruct (_cur_img (self m)); [|done].
  repeat (destruct (Ascii.eqb key _); mrun_in H); simplify_eq; try done.
  - destruct (_next_image m) as [m1 [[]|]] eqn:E; simplify_eq.
    by eapply next_image_inv.
  - destruct (_prev_image m) as [m1 [[]|]] eqn:E; simplify_eq.
    by eapply prev_image_inv.
  - destruct (_clear m) as [m1 [[]|]] eqn:E; simplify_eq.
    by eapply clear_inv.
  - destruct (_undo m) as [m1 [[]|]] eqn:E; simplify_eq.
    by eapply undo_inv.
Qed.

End Commands.

(** ** Construction *)

Section Construction.

Lemma parse_annotation_run path m :
  _parse_pascalvoc_annoation path m
  = match Fs.parse (fs m) path with
    | inl e => (m, Raise e)
    | inr root =>
        match parse_root root with
        | Raise e => (m, Raise e)
        | Ok (bs, ls) =>
            (Machine (fs m) (heap m ++ [OBoxes bs; OLabels ls]) (self m),
             Ok (length (heap m), S (length (heap m))))
        end
    end.
Proof.
  unfold _parse_pascalvoc_annoation. mrun.
  destruct (Fs.parse (fs m) path) as [e|root]; [done|].
  destruct (parse_root root) as [[bs ls]|e]; [|done]. mrun.
  rewrite <- app_assoc, length_app. simpl. by rewrite Nat.add_1_r.
Qed.

Lemma readable_annotation_dec fs0 path :
  readable_annotation fs0 path \/
  ~ readable_annotation fs0 path /\
  forall m, fs m = fs0 ->
    exists e, _parse_pascalvoc_annoation path m = (m, Raise e).
Proof.
  unfold readable_annotation.
  destruct (Fs.parse fs0 path) as [e|root] eqn:Hp.
  - right. split; [by intros (? & ? & _)|]. intros m <-.
    rewrite parse_annotation_run, Hp. by eexists.
  - destruct (parse_root root) as [[bs ls]|e] eqn:Hr.
    + left. exists root. split; [done|].
      apply parse_root_ok in Hr as [_ HF].
      induction HF as [|obj [b l] ? ? Hb _ IH]; constructor; [|done].
      by exists b, l.
    + right. split.
      * intros (root' & [= <-] & HF).
        apply (proj1 (parse_objects_raise (Xml.findall "object" root) [] []));
          [|done]. by exists e.
      * intros m <-. rewrite parse_annotation_run, Hp, Hr. by eexists.
Qed.

Lemma extends_refl m : extends m m.
Proof.
  repeat split; [by exists []; rewrite app_nil_r|].
  exists (_annotations (self m)). by destruct (self m).
Qed.

Lemma extends_trans m1 m2 m3 : extends m1 m2 -> extends m2 m3 -> extends m1 m3.
Proof.
  intros (Hf & [e1 He1] & [a1 Ha1]) (Hf' & [e2 He2] & [a2 Ha2]).
  repeat split; [congruence| |].
  - exists (e1 ++ e2)%list. by rewrite He2, He1, app_assoc.
  - exists a2. by rewrite Ha2, Ha1.
Qed.

Lemma load_saved_ok folder filename m :
  wf m ->
  readable_annotation (fs m)
    (Path.join (Path.join folder ANNOTATION_DEFAULT_DIR) filename) ->
  exists m', load_saved folder filename m = (m', Ok tt) /\
    extends m m' /\ wf m'.
Proof.
  intros [Hc Ha] (root & Hp & HF). unfold load_saved. mrun.
  rewrite parse_annotation_run, Hp.
  destruct (parse_root root) as [[bs ls]|e] eqn:Hr.
  - eexists. split; [done|]. apply parse_root_ok in Hr as [Hlen _].
    split; [|split]; simpl.
    + repeat split; simpl; [by eexists|by eexists].
    + by apply record_ok_app.
    + intros k b l Hk. destruct (decide (k = Path.join folder
           (Path.basename (Path.splitext filename).1
            ++ PASCAL_VOC_IMAGE_EXTENSION))) as [->|Hne].
      * rewrite lookup_insert_eq in Hk. simplify_eq. by apply record_ok_new.
      * rewrite lookup_insert_ne in Hk by done.
        apply record_ok_app. by eapply Ha.
  - exfalso.
    apply (proj1 (parse_objects_raise (Xml.findall "object" root) [] []));
      [|done]. by exists e.
Qed.

Lemma load_loop_ok folder names m :
  wf m ->
  Forall
    (fun filename =>
       readable_annotation (fs m)
         (Path.join (Path.join folder ANNOTATION_DEFAULT_DIR) filename))
    names ->
  exists m', for_each names (load_saved folder) m = (m', Ok tt) /\
    extends m m' /\ wf m'.
Proof.
  revert m. induction names as [|x names IH]; intros m Hwf HF; simpl.
  - exists m. by split; [|split; [apply extends_refl|]].
  - apply Forall_cons in HF as [Hx HF].
    destruct (load_saved_ok folder x m Hwf Hx) as (m1 & H1 & He1 & Hwf1).
    rewrite (bind_run _ _ _ _ _ H1).
    destruct (IH m1 Hwf1) as (m' & H' & He' & Hwf').
    { by rewrite (proj1 He1). }
    exists m'. split; [done|]. split; [by eapply extends_trans|done].
Qed.

Lemma load_loop_fail folder names m :
  wf m ->
  ~ Forall
      (fun filename =>
         readable_annotation (fs m)
           (Path.join (Path.join folder ANNOTATION_DEFAULT_DIR) filename))
      names ->
  exists m' e, for_each names (load_saved folder) m = (m', Raise e).
Proof.
  revert m. induction names as [|x names IH]; intros m Hwf HF; simpl.
  - destruct HF. constructor.
  - destruct (readable_annotation_dec (fs m)
                (Path.join (Path.join folder ANNOTATION_DEFAULT_DIR) x))
      as [Hx|[_ Hx]].
    + destruct (load_saved_ok folder x m Hwf Hx) as (m1 & H1 & He1 & Hwf1).
      rewrite (bind_run _ _ _ _ _ H1). apply IH; [done|].
      rewrite (proj1 He1). intros HF'. apply HF. by constructor.
    + destruct (Hx m eq_refl) as [e He]. exists m, e.
      apply bind_raise. unfold load_saved. by apply bind_raise.
Qed.

Lemma load_saved_annotations_eq m :
  _load_saved_annotations m
  = if Fs.isdir (fs m) (annotation_dir (self m)) then
      match Fs.listdir (fs m) (annotation_dir (self m)) with
      | inl e => (m, Raise e)
      | inr names => for_each names (load_saved (_folder (self m))) m
      end
    else (m, Ok tt).
Proof.
  unfold _load_saved_annotations. mrun.
  destruct (Fs.isdir _ _); [|done]. by destruct (Fs.listdir _ _).
Qed.

Lemma load_saved_annotations_ok m :
  wf m -> annotations_readable (fs m) (_folder (self m)) ->
  exists m', _load_saved_annotations m = (m', Ok tt) /\
    extends m m' /\ wf m'.
Proof.
  intros Hwf Hr. rewrite load_saved_annotations_eq.
  unfold annotations_readable, annotation_dir in *.
  destruct (Fs.isdir _ _) eqn:Hd.
  - destruct (Fs.listdir _ _) as [e|names] eqn:Hl.
    + unfold Fs.listdir, Fs.isdir, Fs.lookup in *.
      by destruct (Fs.stat _ _) as [?|[|?]].
    + apply load_loop_ok; [done|]. by apply Hr.
  - exists m. by split; [|split; [apply extends_refl|]].
Qed.

Lemma load_saved_annotations_fail m :
  wf m -> ~ annotations_readable (fs m) (_folder (self m)) ->
  exists m' e, _load_saved_annotations m = (m', Raise e).
Proof.
  intros Hwf Hr. rewrite load_saved_annotations_eq.
  unfold annotations_readable, annotation_dir in *.
  destruct (Fs.isdir _ _) eqn:Hd.
  - destruct (Fs.listdir _ _) as [e|names] eqn:Hl; [by eexists _, _|].
    apply load_loop_fail; [done|]. intros HF. apply Hr.
    intros names' _ [= <-]. done.
  - destruct Hr. by intros names [=].
Qed.

End Construction.

Section Init.

Lemma wf_fresh_session fs0 folder obj_label img_paths :
  wf (fresh_session fs0 folder obj_label img_paths).
Proof.
  split; simpl; [|by intros k b l; rewrite lookup_empty].
  split; [done|]. by exists [], [].
Qed.

(** [__init__] up to the call of [_load_saved_annotations]. *)
Lemma init_eq folder obj_label fs0 :
  __init__ folder obj_label (boot fs0)
  = if Fs.isdir fs0 folder then
      match Fs.listdir fs0 folder with
      | inl e => (boot fs0, Raise e)
      | inr names =>
          if nonempty (image_paths folder names) then
            (_load_saved_annotations;; index_setter 0)
              (fresh_session fs0 folder obj_label (image_paths folder names))
          else
            (boot fs0,
             Raise (Py.AssertionError
                      ("PascalVOCAnnotator(): no JPEG images were found in directory "
                       ++ folder)))
      end
    else
      (boot fs0,
       Raise (Py.AssertionError
                ("PascalVOCAnnotator(): " ++ folder ++ " is not a directory"))).
Proof.
  unfold __init__, boot. mrun.
  destruct (Fs.isdir fs0 folder); [|done]. mrun.
  destruct (Fs.listdir fs0 folder) as [e|names]; [done|]. mrun.
  fold (image_paths folder names).
  by destruct (nonempty (image_paths folder names)).
Qed.

(** The first call of the setter, on an object that has no [_index] yet
    and no image: nothing is saved, nothing removed. *)
Lemma index_setter_first v m :
  _index (self m) = None -> _cur_img (self m) = None ->
  index_setter v m = load_incoming v m.
Proof.
  intros Hi Hc. unfold index_setter.
  rewrite (bind_run _ _ m m tt).
  - rewrite (bind_run _ _ m m tt); [done|].
    unfold _remove_annotation_file_when_empty. mrun. by rewrite Hi.
  - apply save_outgoing_skip. unfold should_save. by rewrite Hc.
Qed.

Lemma load_loop_inv folder names m m' :
  wf m -> for_each names (load_saved folder) m = (m', Ok tt) -> wf m'.
Proof.
  revert m. induction names as [|x names IH]; intros m Hwf H; simpl in H.
  - mrun_in H. by simplify_eq.
  - apply bind_ok in H as ([] & m2 & Hx & H). eapply IH; [|done].
    destruct (readable_annotation_dec (fs m)
                (Path.join (Path.join folder ANNOTATION_DEFAULT_DIR) x))
      as [Hr|[_ Hr]].
    + destruct (load_saved_ok folder x m Hwf Hr) as (m1 & H1 & _ & Hwf1).
      rewrite H1 in Hx. by simplify_eq.
    + destruct (Hr m eq_refl) as [e He].
      unfold load_saved in Hx. by rewrite (bind_raise _ _ _ _ _ He) in Hx.
Qed.

Lemma load_saved_annotations_inv m m' :
  wf m -> _load_saved_annotations m = (m', Ok tt) -> wf m'.
Proof.
  intros Hwf. rewrite load_saved_annotations_eq.
  destruct (Fs.isdir _ _); [|by intros; simplify_eq].
  destruct (Fs.listdir _ _) as [e|names]; [done|]. by apply load_loop_inv.
Qed.

Lemma init_inv folder obj_label fs0 m :
  __init__ folder obj_label (boot fs0) = (m, Ok tt) -> wf m /\ live m.
Proof.
  rewrite init_eq. destruct (Fs.isdir fs0 folder); [|done].
  destruct (Fs.listdir fs0 folder) as [e|names]; [done|].
  destruct (nonempty _); [|done].
  intros ([] & m1 & H1 & H2)%bind_ok.
  eapply index_setter_inv; [|done].
  eapply load_saved_annotations_inv; [|done]. apply wf_fresh_session.
Qed.

Theorem reachable_inv m : reachable m -> wf m /\ live m.
Proof.
  induction 1 as [fs0 folder l m H|m e x y m' _ [Hwf Hl] H
                 |m key q m' _ [Hwf Hl] H|m m' _ [Hwf Hl] H].
  - by eapply init_inv.
  - by eapply mouse_callback_inv.
  - by eapply update_inv.
  - by eapply exit_inv.
Qed.

End Init.

(** ** The example sessions are reachable *)

Section Examples.

Lemma session_started_init :
  __init__ "/f" (Py.PStr "red roomba") (boot two_images)
  = (session_started, Ok tt).
Proof. vm_compute. reflexivity. Qed.

Lemma session_started_reachable : reachable session_started.
Proof. eapply reach_init. apply session_started_init. Qed.

Lemma loop_nil m : loop [] m = (m, Ok false).
Proof. reflexivity. Qed.

Lemma loop_mouse e x y evs :
  loop (Mouse e x y :: evs) = (_mouse_callback e x y;; loop evs).
Proof. reflexivity. Qed.

Lemma loop_tick key evs :
  loop (Tick key :: evs)
  = (should_quit ← update key;
     if (should_quit : bool) then mret true else loop evs).
Proof. reflexivity. Qed.

Lemma reachable_loop evs m m' q :
  reachable m -> loop evs m = (m', Ok q) -> reachable m'.
Proof.
  revert m. induction evs as [|[e x y|key] evs IH]; intros m Hm H.
  - rewrite loop_nil in H. by simplify_eq.
  - rewrite loop_mouse in H. apply bind_ok in H as ([] & m1 & H1 & H2).
    eapply IH; [|done]. by eapply reach_mouse.
  - rewrite loop_tick in H. apply bind_ok in H as (sq & m1 & H1 & H2).
    pose proof (reach_update _ _ _ _ Hm H1) as Hm1.
    destruct sq; [|by eapply IH]. mrun_in H2. by simplify_eq.
Qed.

Lemma session_drawn_loop :
  loop [Mouse EVENT_LBUTTONDOWN 10 10; Mouse EVENT_MOUSEMOVE 50 50;
        Mouse EVENT_LBUTTONUP 50 50] session_started
  = (session_drawn, Ok false).
Proof. vm_compute. reflexivity. Qed.

Lemma session_drawn_reachable : reachable session_drawn.
Proof.
  eapply reachable_loop; [apply session_started_reachable|].
  apply session_drawn_loop.
Qed.

End Examples.

(** * The codec *)

Section WriteThenRead.

Lemma fs_write_inv fs0 path c fs' :
  Fs.write fs0 path c = inr fs' ->
  fs' = <[Path.resolve path := Fs.File c]> fs0 /\
  path <> "" /\ Path.endswith_sep path = false.
Proof.
  unfold Fs.write.
  destruct (String.eqb_spec path "") as [->|Hp]; [done|].
  destruct (fs0 !! Path.resolve path) as [[|?]|];
    destruct (Fs.parent_error fs0 path); try done;
    destruct (Path.endswith_sep path); try done; by intros [= <-].
Qed.

Lemma write_annotation_ok_inv root path overwrite m m1 :
  write_annotation root path overwrite m = (m1, Ok tt) ->
  m1 = written m root path /\ path <> "" /\ Path.endswith_sep path = false.
Proof.
  destruct overwrite.
  - rewrite write_permitted by (by intros [? _]).
    destruct (Fs.write _ _ _) as [e|fs'] eqn:E; [done|].
    apply fs_write_inv in E as (-> & ? & ?). by intros [= <-].
  - destruct (Fs.exists_ (fs m) path) eqn:He.
    + by rewrite write_rejected.
    + rewrite write_permitted by (intros [_ ?]; congruence).
      destruct (Fs.write _ _ _) as [e|fs'] eqn:E; [done|].
      apply fs_write_inv in E as (-> & ? & ?). by intros [= <-].
Qed.

Lemma generate_ok_inv img names boxes path overwrite m m1 :
  generate_pascalvoc_annotation_from_image img names boxes path overwrite m
  = (m1, Ok tt) ->
  exists root,
    annotation_root img names boxes = Ok root /\
    m1 = written m root path /\
    path <> "" /\ Path.endswith_sep path = false.
Proof.
  intros H. destruct (annotation_root img names boxes) as [root|e] eqn:E.
  - rewrite (generate_built _ _ _ _ _ _ _ E) in H.
    exists root. split; [done|]. by apply write_annotation_ok_inv in H.
  - by rewrite (generate_refused _ _ _ _ _ _ _ E) in H.
Qed.

(** Reading the file a document was written to. *)
Lemma parse_written m root path :
  path <> "" -> Path.endswith_sep path = false ->
  Fs.parse (fs (written m root path)) path = inr (Xml.reread root).
Proof.
  intros Hp He. unfold Fs.parse, Fs.stat, written. cbn [fs].
  rewrite (proj2 (String.eqb_neq path "") Hp), lookup_insert_eq.
  by rewrite He.
Qed.

Lemma combine_snd {A B} (l : list A) (k : list B) :
  length l = length k -> List.map snd (combine l k) = k.
Proof.
  revert k. induction l as [|x l IH]; intros [|y k] H; simplify_eq/=; [done|].
  by rewrite IH.
Qed.

Lemma combine_fst {A B} (l : list A) (k : list B) :
  length l = length k -> List.map fst (combine l k) = l.
Proof.
  revert k. induction l as [|x l IH]; intros [|y k] H; simplify_eq/=; [done|].
  by rewrite IH.
Qed.

(** The pairs of labels that are text [lxml] takes and of boxes whose
    numbers can be written can be encoded, and labels that are not empty
    are read back as they are. *)
Lemma encodable_text_pairs (labels : list string) (boxes : list bbox) :
  Forall (fun l => Xml.compatible l = true) labels ->
  Forall (fun b => encodable_box b = true) boxes ->
  encodable_pairs (combine (List.map Py.PStr labels) boxes) = true.
Proof.
  intros Hl. revert boxes.
  induction Hl as [|l labels Hc _ IH]; intros boxes Hb; [done|].
  destruct Hb as [|b boxes Hb1 Hb]; [done|].
  unfold encodable_pairs in *. cbn [List.map combine forallb fst snd].
  rewrite IH by done. unfold encodable_label. cbn [Py.str].
  by rewrite Hc, Hb1.
Qed.

Lemma reread_text_labels (labels : list string) :
  Forall (fun l => l <> "") labels ->
  List.map reread_label (List.map Py.PStr labels) = List.map Py.PStr labels.
Proof.
  induction 1 as [|l labels Hl _ IH]; [done|]. cbn [List.map].
  rewrite IH. by destruct l.
Qed.

(** The round trip on the tree, for labels that are text. *)
Lemma roundtrip_tree img (labels : list string) (boxes : list bbox) root :
  length labels = length boxes ->
  Forall (fun l => l <> "") labels ->
  annotation_root img (List.map Py.PStr labels) boxes = Ok root ->
  parse_root (Xml.reread root) = Ok (boxes, List.map Py.PStr labels).
Proof.
  intros Hlen Hne Hroot.
  destruct (annotation_root_inv _ _ _ _ Hroot) as [Hs Hp].
  destruct (annotation_root_ok _ _ _ Hs Hp) as (root' & Hroot' & Hparse).
  rewrite Hroot in Hroot'. injection Hroot' as <-. rewrite Hparse.
  rewrite combine_snd by (by rewrite length_map).
  rewrite <- (List.map_map fst reread_label).
  rewrite combine_fst by (by rewrite length_map).
  by rewrite reread_text_labels.
Qed.

Lemma one_box_doc_built :
  annotation_root (100, 200, 3) [Py.PStr "red roomba"] [(10, 10, 50, 50)]
  = Ok one_box_doc.
Proof. vm_compute. reflexivity. Qed.

End WriteThenRead.

(** C2, as amended. Round trip: for every non-empty pair of equal-length
    label and box sequences and any image dimensions such that no label is
    the empty text, every label is text that [lxml] takes (it has none of
    the control characters XML leaves out) and every number has at most
    4300 digits, the encoder builds a document; decoding what is read back
    from that document yields the boxes and the labels, equal to the
    originals and in the same order; and so does reading the file to which
    the document was written. *)
Theorem encode_decode_roundtrip (img : Z * Z * Z) (labels : list string)
    (boxes : list bbox) :
  labels <> [] ->
  length labels = length boxes ->
  Forall (fun l => l <> "") labels ->
  Forall (fun l => Xml.compatible l = true) labels ->
  encodable_shape img = true ->
  Forall (fun b => encodable_box b = true) boxes ->
  exists root,
    annotation_root img (List.map Py.PStr labels) boxes = Ok root /\
    parse_root (Xml.reread root) = Ok (boxes, List.map Py.PStr labels) /\
    forall m m1 path overwrite,
      generate_pascalvoc_annotation_from_image img (List.map Py.PStr labels)
        boxes path overwrite m
      = (m1, Ok tt) ->
      _parse_pascalvoc_annoation path m1
      = (Machine (fs m1)
           (heap m1 ++ [OBoxes boxes; OLabels (List.map Py.PStr labels)])
           (self m1),
         Ok (length (heap m1), S (length (heap m1)))).
Proof.
  intros _ Hlen Hne Hc Hs Hb.
  destruct (annotation_root_ok img (List.map Py.PStr labels) boxes Hs
              (encodable_text_pairs labels boxes Hc Hb))
    as (root & Hroot & _).
  pose proof (roundtrip_tree img labels boxes root Hlen Hne Hroot) as Hparse.
  exists root. split; [done|]. split; [done|].
  intros m m1 path overwrite (root' & Hroot' & -> & Hp & He)%generate_ok_inv.
  rewrite Hroot in Hroot'. injection Hroot' as <-.
  rewrite parse_annotation_run, (parse_written m root path Hp He).
  by rewrite Hparse.
Qed.

Lemma encode_decode_roundtrip_witness :
  exists root,
    annotation_root (1080, 1920, 3)
      (List.map Py.PStr ["red roomba"; "green roomba"])
      [(548, 472, 878, 753); (697, 293, 982, 531)]
    = Ok root /\
    parse_root (Xml.reread root)
    = Ok ([(548, 472, 878, 753); (697, 293, 982, 531)],
          List.map Py.PStr ["red roomba"; "green roomba"]).
Proof.
  destruct (encode_decode_roundtrip (1080, 1920, 3)
              ["red roomba"; "green roomba"]
              [(548, 472, 878, 753); (697, 293, 982, 531)])
    as (root & H1 & H2 & _).
  - discriminate.
  - reflexivity.
  - repeat constructor; discriminate.
  - repeat constructor.
  - vm_compute. reflexivity.
  - repeat constructor.
  - exists root. split; [exact H1|exact H2].
Defined.

(** C2 as stated fails: a label that is the empty text is written as an
    element without text, and read back as no label. *)
Lemma encode_decode_roundtrip_as_stated_fails :
  ~ roundtrip_as_stated (100, 200, 3) [""] [(10, 10, 50, 50)].
Proof.
  intros H. destruct H as (root & Hroot & Hparse); [discriminate|reflexivity|].
  vm_compute in Hroot. injection Hroot as <-.
  vm_compute in Hparse. discriminate Hparse.
Qed.

(** C10. A write with [overwrite] false on a path that exists fails before
    the file is opened: whatever the call returns, it is a failure, the
    already-exists assertion when the document was built and the error of
    the encoder when it was not, and the file system, so the file's
    content, is what it was. *)
Theorem rejected_write_keeps_file (m m' : machine) (r : result unit)
    (img : Z * Z * Z) (names : list Py.pyval) (boxes : list bbox)
    (path : string) :
  Fs.exists_ (fs m) path = true ->
  generate_pascalvoc_annotation_from_image img names boxes path false m
  = (m', r) ->
  match annotation_root img names boxes with
  | Ok _ =>
      r = Raise (Py.AssertionError
                   ("generate_pascalvoc_annotation_from_image(): " ++ path ++
                    " already exists!"))
  | Raise e => r = Raise e
  end /\
  fs m' = fs m /\
  Fs.lookup (fs m') path = Fs.lookup (fs m) path.
Proof.
  intros He. destruct (annotation_root img names boxes) as [root|e] eqn:E.
  - rewrite (generate_built _ _ _ _ _ _ _ E), (write_rejected _ _ _ He).
    by intros [= <- <-].
  - rewrite (generate_refused _ _ _ _ _ _ _ E). by intros [= <- <-].
Qed.

Lemma rejected_write_keeps_file_witness :
  Fs.exists_ (fs (boot two_images)) "/f/a.jpg" = true /\
  generate_pascalvoc_annotation_from_image (100, 200, 3)
    [Py.PStr "red roomba"] [(10, 10, 50, 50)] "/f/a.jpg" false
    (boot two_images)
  = (boot two_images,
     Raise (Py.AssertionError
              "generate_pascalvoc_annotation_from_image(): /f/a.jpg already exists!")) /\
  Fs.lookup (fs (boot two_images)) "/f/a.jpg"
  = Fs.lookup (fs (boot two_images)) "/f/a.jpg".
Proof.
  assert (Fs.exists_ (fs (boot two_images)) "/f/a.jpg" = true) as He
    by (vm_compute; reflexivity).
  assert (generate_pascalvoc_annotation_from_image (100, 200, 3)
            [Py.PStr "red roomba"] [(10, 10, 50, 50)] "/f/a.jpg" false
            (boot two_images)
          = (boot two_images,
             Raise (Py.AssertionError
                      "generate_pascalvoc_annotation_from_image(): /f/a.jpg already exists!")))
    as Hrun by (vm_compute; reflexivity).
  split; [exact He|]. split; [exact Hrun|].
  exact (proj2 (proj2 (rejected_write_keeps_file _ _ _ _ _ _ _ He Hrun))).
Defined.

(** C3, as amended. For a document that was built, the write fails with the
    already-exists assertion whenever [overwrite] is false and the path
    exists, leaving the file system alone; otherwise, when the path can name
    a file (it is not empty and has no separator at its end), is not a
    directory and lies in a directory that exists, it puts the document at
    that path, replacing whatever was there; and otherwise it raises the
    error of [open] and writes nothing. When the encoder raised, no document
    was built and nothing is written. *)
Theorem write_contract (m : machine) (img : Z * Z * Z)
    (names : list Py.pyval) (boxes : list bbox) (path : string)
    (overwrite : bool) :
  match annotation_root img names boxes with
  | Ok root =>
      (overwrite = false /\ Fs.exists_ (fs m) path = true ->
       generate_pascalvoc_annotation_from_image img names boxes path
         overwrite m
       = (m, Raise (Py.AssertionError
                      ("generate_pascalvoc_annotation_from_image(): " ++
                       path ++ " already exists!")))) /\
      (~ (overwrite = false /\ Fs.exists_ (fs m) path = true) ->
       path <> "" -> Path.endswith_sep path = false ->
       Fs.isdir (fs m) path = false ->
       fs m !! Fs.parent path = Some Fs.Dir ->
       generate_pascalvoc_annotation_from_image img names boxes path
         overwrite m
       = (written m root path, Ok tt)) /\
      (~ (overwrite = false /\ Fs.exists_ (fs m) path = true) ->
       ~ (path <> "" /\ Path.endswith_sep path = false /\
          Fs.isdir (fs m) path = false /\
          fs m !! Fs.parent path = Some Fs.Dir) ->
       exists e,
         generate_pascalvoc_annotation_from_image img names boxes path
           overwrite m
         = (m, Raise e))
  | Raise e =>
      generate_pascalvoc_annotation_from_image img names boxes path
        overwrite m
      = (m, Raise e)
  end.
Proof.
  destruct (annotation_root img names boxes) as [root|e] eqn:Hroot;
    [|by apply generate_refused].
  rewrite (generate_built _ _ _ _ path overwrite m Hroot).
  split; [|split].
  - intros [-> He]. by apply write_rejected.
  - intros Hn Hp He Hd Hpar. rewrite write_permitted by done.
    by rewrite (fs_write_ok _ _ _ Hp He Hd Hpar).
  - intros Hn Hw. rewrite write_permitted by done.
    destruct (fs_write_fail (fs m) path (Fs.Document root) Hw) as [e ->].
    by exists e.
Qed.

Lemma write_contract_witness :
  annotation_root (100, 200, 3) [Py.PStr "red roomba"] [(10, 10, 50, 50)]
  = Ok one_box_doc /\
  generate_pascalvoc_annotation_from_image (100, 200, 3)
    [Py.PStr "red roomba"] [(10, 10, 50, 50)] "/f/a.xml" true
    (boot two_images)
  = (written (boot two_images) one_box_doc "/f/a.xml", Ok tt).
Proof.
  split; [exact one_box_doc_built|].
  pose proof (write_contract (boot two_images) (100, 200, 3)
                [Py.PStr "red roomba"] [(10, 10, 50, 50)] "/f/a.xml" true)
    as H.
  rewrite one_box_doc_built in H. destruct H as (_ & H & _). apply H.
  - intros [E _]. discriminate E.
  - discriminate.
  - vm_compute. reflexivity.
  - vm_compute. reflexivity.
  - vm_compute. reflexivity.
Defined.

(** C3 as stated fails: with [overwrite] true, a path below a directory that
    does not exist is not written; [open] raises. *)
Lemma write_contract_as_stated_fails :
  ~ write_contract_as_stated (boot two_images) (100, 200, 3) [] []
      "/missing/a.xml" true.
Proof.
  intros H. destruct (H _ eq_refl) as [_ H'].
  assert (~ (true = false /\
             Fs.exists_ (fs (boot two_images)) "/missing/a.xml" = true)) as Hn
    by (intros [E _]; discriminate E).
  specialize (H' Hn). vm_compute in H'. discriminate H'.
Qed.

(** C6. Reading an annotation file fails exactly when the file is not a
    well-formed document or some object block of the tree read from it
    lacks a required field (the name element, the bounding-box element, one
    of its four coordinate elements) or holds a coordinate that is not text
    [int] takes for an integer; otherwise it returns, as two new lists, the
    boxes and the labels of the object blocks in document order, aligned
    with each other: the label of a block is the text of its name element,
    and no label when that element has no text. *)
Theorem read_annotation_contract (path : string) (m : machine) :
  match Fs.lookup (fs m) path with
  | Some (Fs.File (Fs.Document doc)) =>
      let root := Xml.reread doc in
      (Forall required_fields (Xml.findall "object" root) ->
       exists boxes labels,
         _parse_pascalvoc_annoation path m
         = (Machine (fs m) (heap m ++ [OBoxes boxes; OLabels labels]) (self m),
            Ok (length (heap m), S (length (heap m)))) /\
         decodes_to root boxes labels) /\
      (~ Forall required_fields (Xml.findall "object" root) ->
       exists e, _parse_pascalvoc_annoation path m = (m, Raise e))
  | _ => exists e, _parse_pascalvoc_annoation path m = (m, Raise e)
  end.
Proof.
  rewrite parse_annotation_run. unfold Fs.parse, Fs.lookup.
  destruct (Fs.stat (fs m) path) as [e|[|[h w d|doc|]]]; try by eexists.
  cbv zeta. split.
  - intros HF. destruct (parse_root (Xml.reread doc)) as [[bs ls]|e] eqn:Hr.
    + exists bs, ls. split; [done|]. by apply parse_root_ok.
    + exfalso.
      apply (proj1 (parse_objects_raise
                      (Xml.findall "object" (Xml.reread doc)) [] []));
        [|done]. by exists e.
  - intros HF.
    apply (parse_objects_raise _ [] []) in HF as [e He].
    unfold parse_root. rewrite He. by eexists.
Qed.

Lemma read_annotation_contract_witness :
  exists boxes labels,
    _parse_pascalvoc_annoation "/f/Annotations/a.xml" (boot annotated_images)
    = (Machine annotated_images [OBoxes boxes; OLabels labels] blank,
       Ok (0%nat, 1%nat)) /\
    decodes_to (Xml.reread one_box_doc) boxes labels /\
    boxes = [(10, 10, 50, 50)] /\ labels = [Py.PStr "red roomba"].
Proof.
  pose proof (read_annotation_contract "/f/Annotations/a.xml"
                (boot annotated_images)) as H.
  assert (Fs.lookup (fs (boot annotated_images)) "/f/Annotations/a.xml"
          = Some (Fs.File (Fs.Document one_box_doc))) as E
    by (vm_compute; reflexivity).
  rewrite E in H. destruct H as [H _].
  destruct H as (boxes & labels & Hrun & Hdec).
  - repeat constructor. exists (10, 10, 50, 50), (Py.PStr "red roomba").
    apply parse_object_ok. vm_compute. reflexivity.
  - exists boxes, labels. split; [exact Hrun|]. split; [exact Hdec|].
    assert (_parse_pascalvoc_annoation "/f/Annotations/a.xml"
              (boot annotated_images)
            = (Machine annotated_images
                 [OBoxes [(10, 10, 50, 50)]; OLabels [Py.PStr "red roomba"]]
                 blank, Ok (0%nat, 1%nat))) as Hc
      by (vm_compute; reflexivity).
    rewrite Hc in Hrun. by injection Hrun as <- <-.
Defined.

(** * The session *)

(** C9. In every reachable state of the session the current image's boxes
    and labels are equally many, and so are those of every record the
    session holds: a committed draw appends to both lists, undo removes
    from both, and a record that is read or created has lists of equal
    length. The persistence operations start from such states. *)
Theorem boxes_and_labels_aligned (m : machine) :
  reachable m ->
  length (cur_bboxes m) = length (cur_labels m) /\
  forall k b l,
    _annotations (self m) !! k = Some (b, l) ->
    length (boxes_at (heap m) b) = length (labels_at (heap m) l).
Proof.
  intros [Hwf _]%reachable_inv. split; [by apply wf_lengths|].
  intros k b l Hk. destruct Hwf as [_ Ha].
  destruct (Ha k b l Hk) as (_ & bs & ls & Hb & Hl & Hlen).
  unfold boxes_at, labels_at. by rewrite Hb, Hl.
Qed.

Lemma boxes_and_labels_aligned_witness :
  reachable session_drawn /\
  length (cur_bboxes session_drawn) = length (cur_labels session_drawn).
Proof.
  split; [exact session_drawn_reachable|].
  exact (proj1 (boxes_and_labels_aligned session_drawn
                  session_drawn_reachable)).
Defined.

Section Undo.

Lemma undo_run m :
  wf m -> _bbbox_in_progress (self m) = None -> cur_bboxes m <> [] ->
  _undo m
  = (Machine (fs m)
       (<[_cur_labels (self m) := OLabels (removelast (cur_labels m))]>
          (<[_cur_bboxes (self m) := OBoxes (removelast (cur_bboxes m))]>
             (heap m)))
       (set_changed true (self m)), Ok tt).
Proof.
  intros Hwf Hp Hb. pose proof (wf_lengths m Hwf) as Hlen.
  unfold _undo, cur_bboxes, cur_labels in *. mrun. rewrite Hp.
  destruct (boxes_at (heap m) _) as [|b0 bs0] eqn:Eb; [done|].
  destruct (labels_at (heap m) _) as [|l0 ls0] eqn:El; [done|].
  simpl. mrun. by rewrite (labels_at_other m _ Hwf), Eb, El.
Qed.

Lemma cur_after_update m bs ls s' :
  wf m ->
  _cur_bboxes s' = _cur_bboxes (self m) ->
  _cur_labels s' = _cur_labels (self m) ->
  let m' :=
    Machine (fs m)
      (<[_cur_labels (self m) := OLabels ls]>
         (<[_cur_bboxes (self m) := OBoxes bs]> (heap m))) s' in
  cur_bboxes m' = bs /\ cur_labels m' = ls.
Proof.
  intros [(El & bs0 & ls0 & Hb & Hl & _) _] Eb' El' m'.
  pose proof (lookup_lt_Some _ _ _ Hb) as Hlt.
  pose proof (lookup_lt_Some _ _ _ Hl) as Hlt'.
  unfold cur_bboxes, cur_labels, boxes_at, labels_at. simpl.
  rewrite Eb', El'. split.
  - rewrite list_lookup_insert_ne by (rewrite El; intros ?; lia).
    by rewrite list_lookup_insert_eq.
  - rewrite list_lookup_insert_eq; [done|]. by rewrite length_insert.
Qed.

End Undo.

(** C5. Undo does nothing while a draw is in progress, and nothing (no
    error, no change of any state) when the current image has no committed
    box; otherwise it removes the box and the label committed last, and
    nothing else, and marks the image dirty. *)
Theorem undo_contract (m : machine) :
  reachable m ->
  (is_Some (_bbbox_in_progress (self m)) -> _undo m = (m, Ok tt)) /\
  (cur_bboxes m = [] -> _undo m = (m, Ok tt)) /\
  (_bbbox_in_progress (self m) = None ->
   forall bs b, cur_bboxes m = (bs ++ [b])%list ->
   exists ls l m',
     cur_labels m = (ls ++ [l])%list /\
     _undo m = (m', Ok tt) /\
     cur_bboxes m' = bs /\ cur_labels m' = ls /\
     _changed (self m') = true /\
     self m' = set_changed true (self m) /\
     fs m' = fs m /\
     forall a,
       a <> _cur_bboxes (self m) -> a <> _cur_labels (self m) ->
       heap m' !! a = heap m !! a).
Proof.
  intros [Hwf _]%reachable_inv. split; [|split].
  - intros [b Hb]. unfold _undo. mrun. by rewrite Hb.
  - intros Hb. unfold _undo, cur_bboxes in *. mrun. rewrite Hb.
    by rewrite andb_false_r.
  - intros Hp bs b Hb.
    pose proof (wf_lengths m Hwf) as Hlen.
    assert (exists ls l, cur_labels m = (ls ++ [l])%list) as (ls & l & Hl).
    { rewrite Hb, length_app in Hlen. simpl in Hlen.
      destruct (cur_labels m) as [|x xs _] using rev_ind;
        [simpl in Hlen; lia|]. by exists xs, x. }
    exists ls, l. eexists. split; [done|].
    rewrite undo_run; [|done..|by rewrite Hb; destruct bs].
    split; [reflexivity|].
    rewrite Hb, Hl, !removelast_last.
    destruct (cur_after_update m bs ls (set_changed true (self m)) Hwf
                eq_refl eq_refl) as [Eb El].
    repeat split; try done. simpl. intros a Ha Ha'.
    by rewrite !list_lookup_insert_ne.
Qed.

Lemma undo_contract_witness :
  reachable session_drawn /\
  _bbbox_in_progress (self session_drawn) = None /\
  cur_bboxes session_drawn = ([] ++ [(10, 10, 50, 50)])%list /\
  exists ls l m',
    cur_labels session_drawn = (ls ++ [l])%list /\
    _undo session_drawn = (m', Ok tt) /\
    cur_bboxes m' = [] /\ cur_labels m' = ls /\
    _changed (self m') = true /\
    self m' = set_changed true (self session_drawn) /\
    fs m' = fs session_drawn /\
    forall a,
      a <> _cur_bboxes (self session_drawn) ->
      a <> _cur_labels (self session_drawn) ->
      heap m' !! a = heap session_drawn !! a.
Proof.
  split; [exact session_drawn_reachable|].
  split; [vm_compute; reflexivity|].
  split; [vm_compute; reflexivity|].
  apply (proj2 (proj2 (undo_contract session_drawn session_drawn_reachable))
           eq_refl [] (10, 10, 50, 50)).
  vm_compute. reflexivity.
Defined.

(** ** The index under navigation *)

Section Navigation.

Lemma index_setter_index v m m' :
  index_setter v m = (m', Ok tt) ->
  _index (self m')
  = Some (v mod Z.of_nat (length (_img_paths (self m)))) /\
  _img_paths (self m') = _img_paths (self m) /\
  _changed (self m') = false.
Proof.
  intros (m1 & m2 & _ & _ & H3 & Eh & Es)%index_setter_ok.
  apply load_incoming_ok in H3 as (p & img & _ & _ & _ & ->).
  rewrite <- Es. unfold after_load.
  by destruct (_annotations (self m2) !! p) as [[b l]|].
Qed.

Lemma next_image_index m m' i :
  _index (self m) = Some i ->
  _next_image m = (m', Ok tt) ->
  _index (self m')
  = Some ((i + 1) mod Z.of_nat (length (_img_paths (self m)))) /\
  _img_paths (self m') = _img_paths (self m).
Proof.
  intros Hi H. unfold _next_image in H. mrun_in H. rewrite Hi in H.
  apply index_setter_index in H as (? & ? & _). done.
Qed.

Lemma prev_image_index m m' i :
  _index (self m) = Some i ->
  _prev_image m = (m', Ok tt) ->
  _index (self m')
  = Some ((i - 1) mod Z.of_nat (length (_img_paths (self m)))) /\
  _img_paths (self m') = _img_paths (self m).
Proof.
  intros Hi H. unfold _prev_image in H. mrun_in H. rewrite Hi in H.
  apply index_setter_index in H as (? & ? & _). done.
Qed.

(** When no transition raises, the index wraps: [k] times Next from index
    [i] lands on [(i + k) mod N]. *)
Lemma repeat_next_index k m m' i :
  _index (self m) = Some i ->
  0 <= i < Z.of_nat (length (_img_paths (self m))) ->
  repeat_m k _next_image m = (m', Ok tt) ->
  _index (self m')
  = Some ((i + Z.of_nat k) mod Z.of_nat (length (_img_paths (self m)))).
Proof.
  revert m i. induction k as [|k IH]; intros m i Hi Hr H; simpl in H.
  - mrun_in H. simplify_eq. rewrite Hi, Z.add_0_r. by rewrite Z.mod_small.
  - apply bind_ok in H as ([] & m1 & H1 & H2).
    destruct (next_image_index m m1 i Hi H1) as [Hi1 Hp1].
    rewrite (IH m1 _ Hi1); [|rewrite Hp1; apply Z.mod_pos_bound; lia|done].
    rewrite Hp1, Zplus_mod_idemp_l. do 2 f_equal. lia.
Qed.

End Navigation.

(** C4. The index does not wrap on every session: in the folder of two
    images without annotations, the first Next raises the
    [FileNotFoundError] of [os.remove], which
    [_remove_annotation_file_when_empty] calls for an image without boxes
    whether or not the file exists, and the index stays at 0; Previous
    raises in the same way. (When no transition raises the index does wrap,
    see [repeat_next_index].) *)
Theorem next_raises_on_unannotated_image :
  _index (self session_started) = Some 0 /\
  cur_bboxes session_started = [] /\
  _next_image session_started = (session_started, Raise Py.FileNotFoundError) /\
  _prev_image session_started = (session_started, Raise Py.FileNotFoundError) /\
  repeat_m 2 _next_image session_started
  = (session_started, Raise Py.FileNotFoundError).
Proof. evaluate_all. Qed.

(** ** When construction succeeds *)

Section ConstructionContract.

Lemma Forall_decide {A} (P : A -> Prop) (l : list A) :
  (forall x, P x \/ ~ P x) -> Forall P l \/ ~ Forall P l.
Proof.
  intros Hd. induction l as [|x l [IH|IH]].
  - left. constructor.
  - destruct (Hd x) as [Hx|Hx].
    + left. by constructor.
    + right. by intros [? _]%Forall_cons.
  - right. by intros [_ ?]%Forall_cons.
Qed.

Lemma annotations_readable_dec fs0 folder :
  annotations_readable fs0 folder \/ ~ annotations_readable fs0 folder.
Proof.
  unfold annotations_readable.
  destruct (Fs.isdir fs0 (Path.join folder ANNOTATION_DEFAULT_DIR));
    [|by left].
  destruct (Fs.listdir fs0 (Path.join folder ANNOTATION_DEFAULT_DIR))
    as [e|names]; [by left|].
  destruct (Forall_decide
              (fun filename =>
                 readable_annotation fs0
                   (Path.join (Path.join folder ANNOTATION_DEFAULT_DIR)
                      filename)) names) as [H|H].
  - intros x. destruct (readable_annotation_dec fs0
      (Path.join (Path.join folder ANNOTATION_DEFAULT_DIR) x)) as [?|[? _]];
      [by left|by right].
  - left. by intros names' _ [= <-].
  - right. intros H'. by apply H, H'.
Qed.

Lemma image_paths_none folder names :
  Forall (fun n => Py.contains PASCAL_VOC_IMAGE_EXTENSION n = false) names ->
  image_paths folder names = [].
Proof.
  unfold image_paths. induction 1 as [|n names Hn _ IH]; simpl; [done|].
  by rewrite Hn.
Qed.

Lemma init_loaded fs0 folder obj_label p ps m2 :
  extends (fresh_session fs0 folder obj_label (p :: ps)) m2 ->
  index_setter 0 m2
  = match Fs.imread fs0 p with
    | Some img => (after_load m2 0 p img, Ok tt)
    | None => index_setter 0 m2
    end /\
  (Fs.imread fs0 p = None -> forall m, index_setter 0 m2 <> (m, Ok tt)).
Proof.
  intros (Hfs & _ & ann & Hs). simpl in Hfs.
  assert (index_setter 0 m2 = load_incoming 0 m2) as E
    by (apply index_setter_first; by rewrite Hs).
  assert (_img_paths (self m2) = p :: ps) as Hp by (by rewrite Hs).
  split.
  - destruct (Fs.imread fs0 p) as [img|] eqn:Hi; [|done].
    rewrite E.
    rewrite (load_incoming_run 0 m2 p img); rewrite ?Hp, ?Hfs; try done.
  - intros Hi m H. rewrite E in H.
    apply load_incoming_ok in H as (p' & img & _ & Hp' & Hi' & _).
    rewrite Hp in Hp'. rewrite Z.mod_0_l in Hp' by (simpl; lia).
    simpl in Hp'. by simplify_eq.
Qed.

End ConstructionContract.

(** C8, as amended. Construction fails with the not-a-directory assertion
    whenever the folder is not an existing directory, and with the
    no-images assertion whenever no file name in the folder contains the
    image extension; on any other input it succeeds exactly when every file
    of the annotation folder, if there is one, can be read as an annotation
    and the first image listed can be decoded. *)
Theorem construction_contract (fs0 : gmap string Fs.node) (folder : string)
    (obj_label : Py.pyval) :
  (Fs.isdir fs0 folder = false ->
   __init__ folder obj_label (boot fs0)
   = (boot fs0, Raise (not_a_directory_error folder))) /\
  (forall names,
     Fs.isdir fs0 folder = true ->
     Fs.listdir fs0 folder = inr names ->
     Forall (fun n => Py.contains PASCAL_VOC_IMAGE_EXTENSION n = false) names ->
     __init__ folder obj_label (boot fs0)
     = (boot fs0, Raise (no_images_found_error folder))) /\
  (forall names p ps,
     Fs.isdir fs0 folder = true ->
     Fs.listdir fs0 folder = inr names ->
     image_paths folder names = p :: ps ->
     (annotations_readable fs0 folder /\ is_Some (Fs.imread fs0 p) <->
      exists m, __init__ folder obj_label (boot fs0) = (m, Ok tt))).
Proof.
  split; [|split].
  - intros Hd. by rewrite init_eq, Hd.
  - intros names Hd Hl Hn. rewrite init_eq, Hd, Hl.
    by rewrite (image_paths_none folder names Hn).
  - intros names p ps Hd Hl Hp. rewrite init_eq, Hd, Hl, Hp. simpl nonempty.
    cbv iota.
    pose proof (wf_fresh_session fs0 folder obj_label (p :: ps)) as Hwf.
    split.
    + intros [Hr [img Hi]].
      destruct (load_saved_annotations_ok _ Hwf Hr) as (m2 & H2 & He & _).
      rewrite (bind_run _ _ _ _ _ H2).
      destruct (init_loaded fs0 folder obj_label p ps m2 He) as [E _].
      rewrite Hi in E. rewrite E. by eexists.
    + intros [m ([] & m2 & H2 & H3)%bind_ok].
      destruct (annotations_readable_dec fs0 folder) as [Hr|Hr].
      * split; [done|].
        destruct (load_saved_annotations_ok _ Hwf Hr) as (m2' & H2' & He & _).
        rewrite H2 in H2'. simplify_eq.
        destruct (init_loaded fs0 folder obj_label p ps m2' He) as [_ E].
        destruct (Fs.imread fs0 p) as [img|]; [by eexists|].
        by destruct (E eq_refl m).
      * destruct (load_saved_annotations_fail _ Hwf Hr) as (m' & e & Hf).
        congruence.
Qed.

Lemma construction_contract_witness :
  Fs.isdir two_images "/f" = true /\
  Fs.listdir two_images "/f" = inr ["a.jpg"; "b.jpg"] /\
  image_paths "/f" ["a.jpg"; "b.jpg"] = ["/f/a.jpg"; "/f/b.jpg"] /\
  exists m,
    __init__ "/f" (Py.PStr "red roomba") (boot two_images) = (m, Ok tt).
Proof.
  assert (Fs.isdir two_images "/f" = true) as Hd by (vm_compute; reflexivity).
  assert (Fs.listdir two_images "/f" = inr ["a.jpg"; "b.jpg"]) as Hl
    by (vm_compute; reflexivity).
  assert (image_paths "/f" ["a.jpg"; "b.jpg"] = ["/f/a.jpg"; "/f/b.jpg"])
    as Hp by (vm_compute; reflexivity).
  split; [exact Hd|]. split; [exact Hl|]. split; [exact Hp|].
  apply (proj1 (proj2 (proj2 (construction_contract two_images "/f"
                                (Py.PStr "red roomba")))
                  ["a.jpg"; "b.jpg"] "/f/a.jpg" ["/f/b.jpg"] Hd Hl Hp)).
  split.
  - intros names H. vm_compute in H. discriminate H.
  - vm_compute. eexists. reflexivity.
Defined.

(** C8 as stated fails: a folder whose only image cannot be decoded is a
    directory and holds a file with the image extension, yet construction
    raises (the assertion after [cv2.imread]). *)
Lemma construction_contract_as_stated_fails :
  ~ construction_contract_as_stated unreadable_image "/f"
      (Py.PStr "red roomba").
Proof.
  intros (_ & _ & H).
  destruct (H ["a.jpg"]) as [m Hm].
  - vm_compute. reflexivity.
  - constructor. vm_compute. reflexivity.
  - vm_compute in Hm. discriminate Hm.
Qed.

(** ** Reconciling the outgoing image *)

Section Reconcile.

(** The write and the removal exclude each other: where the setter saves,
    the removal that follows finds boxes and labels and does nothing. *)
Lemma save_excludes_remove m isfile :
  reachable m ->
  should_save (heap m) (self m) = true ->
  should_remove (heap m) (self m) isfile = false.
Proof.
  intros [Hwf _]%reachable_inv Hs.
  by apply should_remove_nonempty, should_save_nonempty.
Qed.

Lemma isfile_delete fs0 p : Fs.isfile (delete (Path.resolve p) fs0) p = false.
Proof.
  unfold Fs.isfile, Fs.lookup, Fs.stat.
  destruct (String.eqb p ""); [done|]. rewrite lookup_delete_eq.
  by destruct (Fs.parent_error _ _).
Qed.

(** A transition that leaves an image without boxes, and completes, leaves
    no annotation file for it. *)
Lemma leaving_empty_record v m m' :
  reachable m -> cur_bboxes m = [] ->
  index_setter v m = (m', Ok tt) ->
  Fs.isfile (fs m') (shown_annotation_file m) = false.
Proof.
  intros [Hwf Hl]%reachable_inv Hb (m1 & m2 & H1 & H2 & H3 & _)%index_setter_ok.
  apply load_incoming_ok in H3 as (p & img & _ & _ & _ & ->).
  assert (fs (after_load m2 (v mod Z.of_nat (length (_img_paths (self m2))))
                p img) = fs m2) as ->.
  { unfold after_load. by destruct (_annotations (self m2) !! p) as [[??]|]. }
  rewrite save_outgoing_skip in H1.
  - simplify_eq. rewrite (remove_when_empty_run _ Hl) in H2.
    rewrite (should_remove_empty _ _ Hb) in H2.
    unfold Fs.remove in H2.
    destruct (Fs.stat (fs m1) (shown_annotation_file m1)) as [e|[|c]];
      simplify_eq. apply isfile_delete.
  - unfold should_save. unfold cur_bboxes in Hb. rewrite Hb.
    by rewrite andb_false_r.
Qed.

End Reconcile.

(** The scenario of the specification: two images, the label "red roomba",
    one box drawn on the first image, then Next. The annotation file of the
    first image exists and holds exactly that object; the second image has
    no file. *)
Example scenario_draw_then_next :
  _next_image session_drawn = (session_drawn_next, Ok tt) /\
  Fs.lookup (fs session_drawn_next) "/f/Annotations/a.xml"
  = Some (Fs.File (Fs.Document one_box_doc)) /\
  Fs.exists_ (fs session_drawn_next) "/f/Annotations/b.xml" = false /\
  _index (self session_drawn_next) = Some 1.
Proof. evaluate_all. Qed.

(** C7. Clear does not leave the image dirty, and the navigation after it
    raises when the cleared image has no annotation file yet: with one box
    drawn on the first of two images and not yet saved, Clear returns with
    an empty record and [_changed] false (the setter that [_clear] calls
    resets the flag [_clear] has just set), and the following Next raises
    the [FileNotFoundError] of [os.remove]. *)
Theorem clear_then_next_raises :
  cur_bboxes session_drawn = [(10, 10, 50, 50)] /\
  _clear session_drawn = (session_drawn_cleared, Ok tt) /\
  cur_bboxes session_drawn_cleared = [] /\
  _changed (self session_drawn_cleared) = false /\
  _next_image session_drawn_cleared
  = (session_drawn_cleared, Raise Py.FileNotFoundError) /\
  loop [Tick CLEAR_KEY; Tick NEXT_KEY; Tick PREV_KEY] session_drawn
  = (session_drawn_cleared, Raise Py.FileNotFoundError).
Proof. evaluate_all. Qed.

(** C1. After a Quit the annotation file of an image can exist although
    its record is empty: on the folder whose two images are annotated, the
    session shows the first image with its box; after Clear the record is
    empty, the file is still there and [_changed] is false, so the Quit
    that follows reconciles nothing and the file stays. *)
Theorem stale_file_after_clear_and_quit :
  cur_bboxes session_annotated = [(10, 10, 50, 50)] /\
  loop [Tick CLEAR_KEY] session_annotated
  = (session_annotated_cleared, Ok false) /\
  cur_bboxes session_annotated_cleared = [] /\
  shown_annotation_file session_annotated_cleared = "/f/Annotations/a.xml" /\
  fire Quit session_annotated_cleared = (session_annotated_cleared, Ok tt) /\
  Fs.isfile (fs session_annotated_cleared) "/f/Annotations/a.xml" = true /\
  run "/f" (Py.PStr "red roomba") [Tick CLEAR_KEY; Tick QUIT_KEY]
    (boot annotated_images)
  = (session_annotated_cleared, Ok tt).
Proof. evaluate_all. Qed.

(** * Further properties of the session and the codec *)

(** ** Drawing *)

Section Drawing.

Lemma commit_run m b x y :
  _bbbox_in_progress (self m) = Some b ->
  _mouse_callback EVENT_LBUTTONUP x y m
  = (Machine (fs m)
       (<[_cur_labels (self m) :=
            OLabels (labels_at (<[_cur_bboxes (self m) :=
                                    OBoxes (cur_bboxes m ++ [b])]> (heap m))
                       (_cur_labels (self m)) ++ [_obj_label (self m)])]>
          (<[_cur_bboxes (self m) := OBoxes (cur_bboxes m ++ [b])]> (heap m)))
       (set_bbbox_in_progress None (set_changed true (self m))), Ok tt).
Proof.
  intros Hb. unfold _mouse_callback, cur_bboxes. mrun. rewrite Hb. by mrun.
Qed.

Lemma commit_lists m b x y m' :
  wf m -> _bbbox_in_progress (self m) = Some b ->
  _mouse_callback EVENT_LBUTTONUP x y m = (m', Ok tt) ->
  cur_bboxes m' = (cur_bboxes m ++ [b])%list /\
  cur_labels m' = (cur_labels m ++ [_obj_label (self m)])%list /\
  fs m' = fs m /\
  self m' = set_bbbox_in_progress None (set_changed true (self m)).
Proof.
  intros Hwf Hb. rewrite (commit_run m b x y Hb).
  rewrite (labels_at_other m _ Hwf). intros [= <-].
  destruct (cur_after_update m (cur_bboxes m ++ [b])
              (cur_labels m ++ [_obj_label (self m)])
              (set_bbbox_in_progress None (set_changed true (self m))) Hwf
              eq_refl eq_refl) as [E1 E2].
  done.
Qed.

Lemma last_cons_default {A} (l : list A) (a d : A) :
  List.last (a :: l) d = List.last l a.
Proof.
  revert a d. induction l as [|b l IH]; intros a d; [done|].
  change (List.last (a :: b :: l) d) with (List.last (b :: l) d).
  by rewrite !IH.
Qed.

(** The events of a drag after the press: moves, then the release. *)
Lemma drag_run (moves : list (Z * Z)) m x0 y0 xa ya x2 y2 m' :
  wf m ->
  _bbbox_in_progress (self m) = Some (x0, y0, xa, ya) ->
  loop (List.map (fun p => Mouse EVENT_MOUSEMOVE p.1 p.2) moves ++
        [Mouse EVENT_LBUTTONUP x2 y2]) m = (m', Ok false) ->
  cur_bboxes m'
  = (cur_bboxes m ++ [(x0, y0, (List.last moves (xa, ya)).1,
                       (List.last moves (xa, ya)).2)])%list /\
  cur_labels m' = (cur_labels m ++ [_obj_label (self m)])%list /\
  fs m' = fs m /\
  self m' = set_bbbox_in_progress None (set_changed true (self m)).
Proof.
  revert m xa ya. induction moves as [|[x y] moves IH]; intros m xa ya Hwf Hb H.
  - cbn [List.map app] in H. rewrite loop_mouse in H.
    apply bind_ok in H as ([] & m1 & H1 & H2). rewrite loop_nil in H2.
    simplify_eq. by apply (commit_lists m _ x2 y2).
  - cbn [List.map app] in H. rewrite loop_mouse in H.
    apply bind_ok in H as ([] & m1 & H1 & H2).
    unfold _mouse_callback in H1. mrun_in H1. rewrite Hb in H1. mrun_in H1.
    simplify_eq.
    destruct (IH (Machine (fs m) (heap m)
                    (set_bbbox_in_progress (Some (x0, y0, x, y)) (self m)))
                x y) as (E1 & E2 & E3 & E4);
      [exact Hwf|reflexivity|exact H2|].
    split; [|split; [|split]]; try done.
    rewrite (last_cons_default moves (x, y) (xa, ya)). by rewrite E1.
Qed.

End Drawing.

(** X1. A drag commits one box: a press at [(x0, y0)], any moves, and a
    release add to the current image the box from [(x0, y0)] to the place
    of the last move (the place of the release is not looked at; without a
    move the box has no extent), add the session's label, mark the image
    dirty, end the draw, and leave the file system alone. *)
Theorem draw_gesture_commits (m m' : machine) (x0 y0 x2 y2 : Z)
    (moves : list (Z * Z)) :
  reachable m ->
  loop (Mouse EVENT_LBUTTONDOWN x0 y0 ::
        List.map (fun p => Mouse EVENT_MOUSEMOVE p.1 p.2) moves ++
        [Mouse EVENT_LBUTTONUP x2 y2]) m = (m', Ok false) ->
  cur_bboxes m'
  = (cur_bboxes m ++ [(x0, y0, (List.last moves (x0, y0)).1,
                       (List.last moves (x0, y0)).2)])%list /\
  cur_labels m' = (cur_labels m ++ [_obj_label (self m)])%list /\
  _changed (self m') = true /\
  _bbbox_in_progress (self m') = None /\
  fs m' = fs m.
Proof.
  intros [Hwf _]%reachable_inv H. rewrite loop_mouse in H.
  apply bind_ok in H as ([] & m1 & H1 & H2).
  unfold _mouse_callback in H1. mrun_in H1. simplify_eq.
  destruct (drag_run moves
              (Machine (fs m) (heap m)
                 (set_bbbox_in_progress (Some (x0, y0, x0, y0)) (self m)))
              x0 y0 x0 y0 x2 y2 m') as (E1 & E2 & E3 & E4);
    [exact Hwf|reflexivity|exact H2|].
  rewrite E4. done.
Qed.

Lemma draw_gesture_commits_witness :
  reachable session_started /\
  loop (Mouse EVENT_LBUTTONDOWN 10 10 ::
        List.map (fun p => Mouse EVENT_MOUSEMOVE p.1 p.2) [(50, 50)] ++
        [Mouse EVENT_LBUTTONUP 70 70]) session_started
  = (session_drawn, Ok false) /\
  cur_bboxes session_drawn
  = (cur_bboxes session_started ++
     [(10, 10, (List.last [(50, 50)] (10, 10)).1,
       (List.last [(50, 50)] (10, 10)).2)])%list.
Proof.
  assert (H : loop (Mouse EVENT_LBUTTONDOWN 10 10 ::
                    List.map (fun p => Mouse EVENT_MOUSEMOVE p.1 p.2) [(50, 50)] ++
                    [Mouse EVENT_LBUTTONUP 70 70]) session_started
              = (session_drawn, Ok false)) by (vm_compute; reflexivity).
  split; [exact session_started_reachable|]. split; [exact H|].
  exact (proj1 (draw_gesture_commits session_started session_drawn 10 10 70 70
                  [(50, 50)] session_started_reachable H)).
Defined.

(** ** The mouse callback *)

(** X2. The mouse callback never raises and never touches the file system,
    the index, the loaded image, the image paths or the table of records;
    only a release changes the lists or the dirty flag; and outside a draw
    every event but a press leaves the whole state as it was. *)
Theorem mouse_callback_contract (m : machine) (e : mouse_event) (x y : Z) :
  exists m',
    _mouse_callback e x y m = (m', Ok tt) /\
    fs m' = fs m /\
    _index (self m') = _index (self m) /\
    _img_paths (self m') = _img_paths (self m) /\
    _cur_img (self m') = _cur_img (self m) /\
    _annotations (self m') = _annotations (self m) /\
    _cur_bboxes (self m') = _cur_bboxes (self m) /\
    _cur_labels (self m') = _cur_labels (self m) /\
    (e <> EVENT_LBUTTONUP ->
     heap m' = heap m /\ _changed (self m') = _changed (self m)) /\
    (_bbbox_in_progress (self m) = None -> e <> EVENT_LBUTTONDOWN -> m' = m).
Proof.
  unfold _mouse_callback. mrun.
  destruct e; destruct (_bbbox_in_progress (self m)) as [[[[x0 y0] x1] y1]|];
    mrun; eexists; (split; [reflexivity|]); cbn;
    repeat match goal with |- _ /\ _ => split end; try done; intros; try done.
Qed.

Lemma mouse_callback_contract_witness :
  _mouse_callback EVENT_LBUTTONUP 5 5 session_started = (session_started, Ok tt).
Proof.
  destruct (mouse_callback_contract session_started EVENT_LBUTTONUP 5 5)
    as (m' & H & _ & _ & _ & _ & _ & _ & _ & _ & Hsame).
  rewrite H. f_equal. apply Hsame; [vm_compute; reflexivity|discriminate].
Defined.

(** ** Undo after a draw *)

Section UndoDraw.

Lemma heap_restore (h : list pyobj) cb cl B L B' L' :
  cb <> cl -> h !! cb = Some B -> h !! cl = Some L ->
  <[cl := L]> (<[cb := B]> (<[cl := L']> (<[cb := B']> h))) = h.
Proof.
  intros Hne Hb Hl.
  rewrite (list_insert_insert_ne _ cb cl) by done.
  rewrite list_insert_insert_eq, list_insert_insert_eq.
  rewrite (list_insert_id h cb B) by done. by apply list_insert_id.
Qed.

(** The machine a drag leaves, the press being handled already. *)
Lemma drag_machine (moves : list (Z * Z)) m x0 y0 xa ya x2 y2 m' :
  wf m ->
  _bbbox_in_progress (self m) = Some (x0, y0, xa, ya) ->
  loop (List.map (fun p => Mouse EVENT_MOUSEMOVE p.1 p.2) moves ++
        [Mouse EVENT_LBUTTONUP x2 y2]) m = (m', Ok false) ->
  m' = Machine (fs m)
         (<[_cur_labels (self m) :=
              OLabels (cur_labels m ++ [_obj_label (self m)])]>
            (<[_cur_bboxes (self m) :=
                 OBoxes (cur_bboxes m ++
                         [(x0, y0, (List.last moves (xa, ya)).1,
                           (List.last moves (xa, ya)).2)])]> (heap m)))
         (set_bbbox_in_progress None (set_changed true (self m))).
Proof.
  revert m xa ya. induction moves as [|[x y] moves IH]; intros m xa ya Hwf Hb H.
  - cbn [List.map app] in H. rewrite loop_mouse in H.
    apply bind_ok in H as ([] & m1 & H1 & H2). rewrite loop_nil in H2.
    rewrite (commit_run m _ x2 y2 Hb), (labels_at_other m _ Hwf) in H1.
    by simplify_eq.
  - cbn [List.map app] in H. rewrite loop_mouse in H.
    apply bind_ok in H as ([] & m1 & H1 & H2).
    unfold _mouse_callback in H1. mrun_in H1. rewrite Hb in H1. mrun_in H1.
    simplify_eq.
    rewrite (IH (Machine (fs m) (heap m)
                   (set_bbbox_in_progress (Some (x0, y0, x, y)) (self m)))
               x y Hwf eq_refl H2).
    by rewrite (last_cons_default moves (x, y) (xa, ya)).
Qed.

Lemma drag_loop x0 y0 moves x2 y2 m m' :
  wf m ->
  loop (drag x0 y0 moves x2 y2) m = (m', Ok false) ->
  m' = Machine (fs m)
         (<[_cur_labels (self m) :=
              OLabels (cur_labels m ++ [_obj_label (self m)])]>
            (<[_cur_bboxes (self m) :=
                 OBoxes (cur_bboxes m ++
                         [(x0, y0, (List.last moves (x0, y0)).1,
                           (List.last moves (x0, y0)).2)])]> (heap m)))
         (set_bbbox_in_progress None (set_changed true (self m))).
Proof.
  intros Hwf H. unfold drag in H. rewrite loop_mouse in H.
  apply bind_ok in H as ([] & m1 & H1 & H2).
  unfold _mouse_callback in H1. mrun_in H1. simplify_eq.
  by rewrite (drag_machine moves
                (Machine (fs m) (heap m)
                   (set_bbbox_in_progress (Some (x0, y0, x0, y0)) (self m)))
                x0 y0 x0 y0 x2 y2 m' Hwf eq_refl H2).
Qed.

Lemma update_undo m :
  is_Some (_cur_img (self m)) ->
  update UNDO_KEY m = (_undo;; mret false) m.
Proof. intros [img E]. unfold update. mrun. by rewrite E. Qed.

End UndoDraw.

(** X3. Undo right after a drag takes the drag back: the current image has
    the boxes and labels it had before, every list object of the heap is as
    it was, and no file is touched; what stays is that the image is dirty. *)
Theorem undo_reverts_draw (m m1 m2 : machine) (x0 y0 x2 y2 : Z)
    (moves : list (Z * Z)) (q : bool) :
  reachable m ->
  loop (drag x0 y0 moves x2 y2) m = (m1, Ok false) ->
  update UNDO_KEY m1 = (m2, Ok q) ->
  q = false /\
  cur_bboxes m2 = cur_bboxes m /\ cur_labels m2 = cur_labels m /\
  heap m2 = heap m /\ fs m2 = fs m /\
  self m2 = set_bbbox_in_progress None (set_changed true (self m)).
Proof.
  intros Hr H1 H2.
  pose proof (reachable_loop _ _ _ _ Hr H1) as [Hwf1 Hlive1]%reachable_inv.
  destruct (reachable_inv m Hr) as [Hwf Hlive].
  pose proof (drag_loop _ _ _ _ _ _ _ Hwf H1) as E1.
  destruct (cur_after_update m
              (cur_bboxes m ++ [(x0, y0, (List.last moves (x0, y0)).1,
                                 (List.last moves (x0, y0)).2)])
              (cur_labels m ++ [_obj_label (self m)])
              (set_bbbox_in_progress None (set_changed true (self m))) Hwf
              eq_refl eq_refl) as [Eb El].
  rewrite <- E1 in Eb, El.
  destruct Hlive1 as (i & p & _ & _ & _ & Himg & _).
  rewrite (update_undo m1 Himg) in H2.
  apply bind_ok in H2 as ([] & m3 & H3 & H4).
  rewrite undo_run in H3; [|done|by subst m1|by rewrite Eb; destruct (cur_bboxes m)].
  rewrite Eb, El, !removelast_last in H3.
  destruct Hwf as [(Hcl & bs & ls & Hb & Hl & Hlen) _].
  assert (Hcb : cur_bboxes m = bs) by (unfold cur_bboxes, boxes_at; by rewrite Hb).
  assert (Hcls : cur_labels m = ls) by (unfold cur_labels, labels_at; by rewrite Hl).
  assert (Hheap : heap m3 = heap m).
  { injection H3 as <-. rewrite E1. cbn [heap self fs].
    cbn [_cur_bboxes _cur_labels set_bbbox_in_progress set_changed].
    rewrite Hcb, Hcls. apply heap_restore; [lia|done|done]. }
  assert (Hself : self m3 = set_bbbox_in_progress None (set_changed true (self m))).
  { injection H3 as <-. by rewrite E1. }
  assert (Hfs : fs m3 = fs m).
  { injection H3 as <-. by rewrite E1. }
  injection H4 as <- <-.
  unfold cur_bboxes, cur_labels. rewrite Hheap, Hself. done.
Qed.

Lemma undo_reverts_draw_witness :
  reachable session_started /\
  loop (drag 10 10 [(50, 50)] 50 50) session_started = (session_drawn, Ok false) /\
  update UNDO_KEY session_drawn
  = (Machine (fs session_started) (heap session_started)
       (set_bbbox_in_progress None (set_changed true (self session_started))),
     Ok false) /\
  heap (Machine (fs session_started) (heap session_started)
          (set_bbbox_in_progress None (set_changed true (self session_started))))
  = heap session_started.
Proof.
  assert (H2 : update UNDO_KEY session_drawn
               = (Machine (fs session_started) (heap session_started)
                    (set_bbbox_in_progress None
                       (set_changed true (self session_started))),
                  Ok false)) by (vm_compute; reflexivity).
  split; [exact session_started_reachable|]. split; [exact session_drawn_loop|].
  split; [exact H2|].
  exact (proj1 (proj2 (proj2 (proj2
           (undo_reverts_draw session_started session_drawn _ 10 10 50 50
              [(50, 50)] false session_started_reachable session_drawn_loop
              H2))))).
Defined.

(** ** The image a session shows *)

(** X5. In every reachable state the index is in range, an image is loaded,
    reading the path of the current image does not raise, and the lists the
    session edits are the very list objects the table of records holds for
    the image at the index. *)
Theorem shown_image_invariant (m : machine) :
  reachable m ->
  exists i p img,
    _index (self m) = Some i /\
    0 <= i < Z.of_nat (length (_img_paths (self m))) /\
    _img_paths (self m) !! Z.to_nat i = Some p /\
    cur_img_path m = (m, Ok p) /\
    _cur_img (self m) = Some img /\
    _annotations (self m) !! p
    = Some (_cur_bboxes (self m), _cur_labels (self m)).
Proof.
  intros [_ (i & p & Hi & Hr & Hp & [img Himg] & Ha)]%reachable_inv.
  exists i, p, img. repeat match goal with |- _ /\ _ => split end; try done; try lia.
  unfold cur_img_path. mrun. rewrite Hi.
  by rewrite (getitem_lookup _ i p) by (done || lia).
Qed.

Lemma shown_image_invariant_witness :
  exists i p img,
    _index (self session_drawn) = Some i /\
    0 <= i < Z.of_nat (length (_img_paths (self session_drawn))) /\
    _img_paths (self session_drawn) !! Z.to_nat i = Some p /\
    cur_img_path session_drawn = (session_drawn, Ok p) /\
    _cur_img (self session_drawn) = Some img /\
    _annotations (self session_drawn) !! p
    = Some (_cur_bboxes (self session_drawn), _cur_labels (self session_drawn)).
Proof. exact (shown_image_invariant session_drawn session_drawn_reachable). Defined.

(** ** Keys *)

Section Keys.

Lemma update_quit m :
  is_Some (_cur_img (self m)) -> update QUIT_KEY m = (m, Ok true).
Proof. intros [img E]. unfold update. mrun. by rewrite E. Qed.

Lemma update_unbound key m :
  is_Some (_cur_img (self m)) -> bound_key key = false ->
  update key m = (m, Ok false).
Proof.
  intros [img E] H. unfold update. mrun. rewrite E. unfold bound_key in H.
  repeat (apply orb_false_elim in H as [H ?]).
  by repeat match goal with H : Ascii.eqb _ _ = false |- _ => rewrite H; clear H end.
Qed.

Lemma update_result key m m' q :
  update key m = (m', Ok q) -> (q = true <-> key = QUIT_KEY) /\ (q = true -> m' = m).
Proof.
  unfold update. mrun. destruct (_cur_img (self m)); [|done].
  destruct (Ascii.eqb_spec key QUIT_KEY) as [->|Hq]; [by intros [= <- <-]|].
  assert (forall c : M unit, (let (m0, r) := c m in
             match r with Ok _ => (m0, Ok false) | Raise e => (m0, Raise e) end)
            = (m', Ok q) -> q = false) as Hc.
  { intros c. destruct (c m) as [m0 [[]|e]]; by intros [= <- <-]. }
  intros H.
  assert (q = false) as ->; [|by split; [split|]].
  repeat match type of H with
         | context [Ascii.eqb key ?k] => destruct (Ascii.eqb key k)
         end; try (by eapply Hc); by injection H.
Qed.

Lemma get_key_mod code :
  _get_key code = ascii_of_N (Z.to_N (code mod 256)).
Proof.
  unfold _get_key. change 255 with (Z.ones 8).
  by rewrite Z.land_ones by lia.
Qed.

End Keys.

(** X12. One call of [update] returns true for the quit key and for no
    other, and then it has changed nothing; a key that is not bound to a
    command does nothing either. *)
Theorem update_contract (m : machine) (key : ascii) :
  reachable m ->
  update QUIT_KEY m = (m, Ok true) /\
  (bound_key key = false -> update key m = (m, Ok false)) /\
  (forall m' q, update key m = (m', Ok q) -> (q = true <-> key = QUIT_KEY)).
Proof.
  intros [_ (i & p & _ & _ & _ & Himg & _)]%reachable_inv.
  split; [by apply update_quit|]. split; [by apply update_unbound|].
  intros m' q H. by apply (update_result key m m' q).
Qed.

Lemma update_contract_witness :
  update QUIT_KEY session_drawn = (session_drawn, Ok true) /\
  update "x" session_drawn = (session_drawn, Ok false).
Proof.
  destruct (update_contract session_drawn "x" session_drawn_reachable)
    as (H1 & H2 & _).
  split; [exact H1|]. apply H2. reflexivity.
Defined.

(** X13. Of the code [cv2.waitKey] reports only the low byte counts: codes
    that differ by a multiple of 256 give the same key, a character's own
    code gives that character, and the code [-1] of a tick without a key
    press gives the character 255, on which [update] does nothing. *)
Theorem get_key_low_byte (m : machine) :
  reachable m ->
  (forall code k, _get_key (code + 256 * k) = _get_key code) /\
  (forall a, _get_key (Z.of_N (N_of_ascii a)) = a) /\
  _get_key (-1) = ascii_of_N 255 /\
  update (_get_key (-1)) m = (m, Ok false).
Proof.
  intros [_ (i & p & _ & _ & _ & Himg & _)]%reachable_inv.
  split; [|split; [|split]].
  - intros code k. rewrite !get_key_mod.
    by rewrite Z.mul_comm, Z_mod_plus_full.
  - intros a. rewrite get_key_mod.
    pose proof (N_ascii_bounded a) as Hb.
    rewrite Z.mod_small by lia. by rewrite N2Z.id, ascii_N_embedding.
  - reflexivity.
  - by apply update_unbound.
Qed.

Lemma get_key_low_byte_witness :
  _get_key (1048576 + 113) = "q"%char /\
  update (_get_key (-1)) session_started = (session_started, Ok false).
Proof.
  destruct (get_key_low_byte session_started session_started_reachable)
    as (H1 & H2 & _ & H4).
  split; [|exact H4].
  change (1048576 + 113) with (113 + 256 * 4096).
  rewrite H1. exact (H2 "q"%char).
Defined.

(** ** Encoding, then decoding, for any labels and lengths *)

Section Zip.

Lemma combine_snd_firstn {A B} (l : list A) (k : list B) :
  List.map snd (combine l k) = firstn (length l) k.
Proof.
  revert k. induction l as [|x l IH]; intros [|y k]; simpl; try done.
  by rewrite IH.
Qed.

Lemma combine_fst_firstn {A B C} (f : A -> C) (l : list A) (k : list B) :
  List.map (fun p => f p.1) (combine l k) = List.map f (firstn (length k) l).
Proof.
  revert k. induction l as [|x l IH]; intros [|y k]; simpl; try done.
  by rewrite IH.
Qed.

End Zip.

(** X4. The encoder and the decoder, for any labels, boxes and lengths. The
    encoder raises [ValueError] exactly when it cannot write the image
    shape or one of the pairs that [zip] forms of labels and boxes: a label
    whose text [str] gives has a character [lxml] refuses, or a number of
    more than 4300 digits. Otherwise it builds a tree, and decoding what is
    read back from it gives those pairs, in order: what the longer list has
    beyond the length of the shorter one is lost without an error, every
    coordinate comes back as the number it was, and every label comes back
    as its text, or as no label when that text is empty. *)
Theorem decode_encode_zip (img : Z * Z * Z) (names : list Py.pyval)
    (boxes : list bbox) :
  if encodable_shape img && encodable_pairs (combine names boxes)
  then
    exists root,
      annotation_root img names boxes = Ok root /\
      parse_root (Xml.reread root)
      = Ok (firstn (length names) boxes,
            List.map reread_label (firstn (length boxes) names))
  else annotation_root img names boxes = Raise Py.ValueError.
Proof.
  destruct (encodable_shape img && encodable_pairs (combine names boxes))
    eqn:E; [|by apply annotation_root_raise].
  apply andb_prop in E as [Hs Hp].
  destruct (annotation_root_ok img names boxes Hs Hp) as (root & Hr & Hparse).
  exists root. split; [done|].
  by rewrite Hparse, combine_snd_firstn, (combine_fst_firstn reread_label).
Qed.

(** ** Transitions that find nothing to reconcile *)

Section Clean.

Lemma load_incoming_fs v m m' r : load_incoming v m = (m', r) -> fs m' = fs m.
Proof.
  intros H. unfold load_incoming in H. mrun_in H.
  set (s := self m) in *. set (i := v mod _) in *.
  destruct (Z.of_nat (length (_img_paths s)) =? 0) eqn:HN; mrun_in H;
    [by simplify_eq|].
  fold s i in H.
  destruct (getitem (_img_paths s) i) as [p|] eqn:Hp; mrun_in H;
    [|by simplify_eq].
  fold s in H.
  destruct (_annotations s !! p) as [[b l]|] eqn:Ha.
  - rewrite bool_decide_true in H by done. mrun_in H. fold s in H.
    rewrite Ha in H. mrun_in H.
    destruct (bool_decide _); mrun_in H; by simplify_eq.
  - rewrite bool_decide_false in H by (by intros [? ?]). mrun_in H.
    rewrite lookup_insert_eq in H. mrun_in H.
    destruct (bool_decide _); mrun_in H; by simplify_eq.
Qed.

Lemma remove_when_empty_at m i p :
  _index (self m) = Some i ->
  getitem (_img_paths (self m)) i = Ok p ->
  _remove_annotation_file_when_empty m
  = if should_remove (heap m) (self m)
         (Fs.isfile (fs m) (annotation_file_path (self m) p))
    then match Fs.remove (fs m) (annotation_file_path (self m) p) with
         | inl e => (m, Raise e)
         | inr fs' => (with_fs m fs', Ok tt)
         end
    else (m, Ok tt).
Proof.
  intros Hi Hp. unfold _remove_annotation_file_when_empty. mrun.
  rewrite Hi. mrun. rewrite Hi, Hp. mrun.
  destruct (should_remove _ _ _); [|done]. by destruct (Fs.remove _ _).
Qed.

Lemma index_setter_clean v m :
  wf m -> live m -> _changed (self m) = false -> cur_bboxes m <> [] ->
  index_setter v m = load_incoming v m.
Proof.
  intros Hwf Hl Hc Hb. unfold index_setter.
  rewrite (bind_run _ _ m m tt); [|apply save_outgoing_skip].
  - rewrite (bind_run _ _ m m tt); [done|].
    rewrite remove_when_empty_run by done.
    by rewrite should_remove_nonempty.
  - unfold should_save. rewrite Hc. by rewrite andb_false_r.
Qed.

End Clean.

(** X7. Leaving an image that is not dirty and has boxes touches no file,
    whether the transition completes or raises; and Quit on a session that
    is not dirty does nothing at all. *)
Theorem clean_transition_keeps_files (m m' : machine) (t : transition)
    (r : result unit) :
  reachable m -> _changed (self m) = false ->
  t = Quit \/ cur_bboxes m <> [] ->
  fire t m = (m', r) ->
  fs m' = fs m /\ (t = Quit -> m' = m /\ r = Ok tt).
Proof.
  intros [Hwf Hl]%reachable_inv Hc Ht H.
  destruct (live_shown m Hl) as (i & Hi & _).
  destruct t; simpl in H.
  - destruct Ht as [|Hb]; [done|]. split; [|done].
    unfold _next_image in H. mrun_in H. rewrite Hi in H.
    rewrite index_setter_clean in H by done. by eapply load_incoming_fs.
  - destruct Ht as [|Hb]; [done|]. split; [|done].
    unfold _prev_image in H. mrun_in H. rewrite Hi in H.
    rewrite index_setter_clean in H by done. by eapply load_incoming_fs.
  - unfold __exit__ in H. mrun_in H. rewrite Hc in H. by simplify_eq.
Qed.

Lemma clean_transition_keeps_files_witness :
  reachable session_annotated /\
  _changed (self session_annotated) = false /\
  cur_bboxes session_annotated <> [] /\
  fs (_next_image session_annotated).1 = fs session_annotated.
Proof.
  assert (Hr : reachable session_annotated).
  { eapply (reach_init annotated_images "/f" (Py.PStr "red roomba")).
    vm_compute. reflexivity. }
  assert (Hc : _changed (self session_annotated) = false)
    by (vm_compute; reflexivity).
  assert (Hb : cur_bboxes session_annotated <> []) by (vm_compute; discriminate).
  split; [exact Hr|]. split; [exact Hc|]. split; [exact Hb|].
  exact (proj1 (clean_transition_keeps_files session_annotated
                  (_next_image session_annotated).1 Next
                  (_next_image session_annotated).2 Hr Hc (or_intror Hb)
                  (surjective_pairing _))).
Defined.

(** ** Clear *)

Section Clear.

Lemma boxes_at_new h bs ls :
  boxes_at (h ++ [OBoxes bs; OLabels ls]) (length h) = bs.
Proof.
  unfold boxes_at. rewrite lookup_app_r by lia. by rewrite Nat.sub_diag.
Qed.

Lemma labels_at_new h bs ls :
  labels_at (h ++ [OBoxes bs; OLabels ls]) (S (length h)) = ls.
Proof.
  unfold labels_at. rewrite lookup_app_r by lia.
  by replace (S (length h) - length h)%nat with 1%nat by lia.
Qed.

(** What the setter that [_clear] calls does. *)
Lemma clear_setter m m' i :
  wf m -> live m -> _index (self m) = Some i ->
  index_setter i
    (Machine (fs m) (heap m)
       (set_annotations (delete (shown_path m) (_annotations (self m)))
          (set_changed true (set_cur_img None (self m)))))
  = (m', Ok tt) ->
  exists img fs',
    m' = Machine fs' (heap m ++ [OBoxes []; OLabels []])
           (loaded (self m) i img (length (heap m)) (S (length (heap m)))
              (<[shown_path m := (length (heap m), S (length (heap m)))]>
                 (delete (shown_path m) (_annotations (self m))))) /\
    (cur_bboxes m <> [] -> fs' = fs m) /\
    (cur_bboxes m = [] ->
     Fs.isfile (fs m) (shown_annotation_file m) = true /\
     fs' = delete (Path.resolve (shown_annotation_file m)) (fs m)).
Proof.
  intros Hwf Hl Hi H.
  destruct Hl as (i' & p & Hi' & Hr & Hp & _).
  rewrite Hi in Hi'. injection Hi' as <-.
  assert (Hg : getitem (_img_paths (self m)) i = Ok p)
    by (by apply getitem_lookup; [lia|]).
  assert (Hs : shown_path m = p) by (unfold shown_path; by rewrite Hi, Hg).
  rewrite Hs in *. unfold shown_annotation_file. rewrite Hs.
  set (m0 := Machine _ _ _) in H.
  apply index_setter_ok in H as (m1 & m2 & H1 & H2 & H3 & Eh & Es).
  rewrite save_outgoing_skip in H1 by done. injection H1 as <-.
  rewrite (remove_when_empty_at m0 i p Hi Hg) in H2.
  apply load_incoming_ok in H3 as (p' & img & HN & Hp' & Him & ->).
  rewrite Es in Hp'. cbn in Hp'. rewrite Z.mod_small in Hp' by lia.
  assert (p' = p) as -> by congruence.
  exists img, (fs m2). split; [|split].
  - unfold after_load. rewrite Es, Eh. cbn. rewrite lookup_delete_eq.
    rewrite Z.mod_small by lia. done.
  - intros Hb. change (should_remove (heap m0) (self m0)) with
      (should_remove (heap m) (self m)) in H2.
    rewrite should_remove_nonempty in H2 by done. by injection H2 as <-.
  - intros Hb. change (should_remove (heap m0) (self m0)) with
      (should_remove (heap m) (self m)) in H2.
    rewrite should_remove_empty in H2 by done.
    change (annotation_file_path (self m0) p)
      with (annotation_file_path (self m) p) in H2.
    change (fs m0) with (fs m) in H2.
    unfold Fs.remove, Fs.isfile, Fs.lookup in *.
    destruct (Fs.stat (fs m) _) as [e|[|c]]; try done.
    by injection H2 as <-.
Qed.

End Clear.

(** X8. Clear, when it completes, leaves the shown image with a new, empty
    record at the same index and not dirty, and modifies no list object that
    was there. If the image had boxes no file is touched, so an annotation
    file written for it earlier stays; if it had none, its annotation file
    was there and is removed. *)
Theorem clear_contract (m m' : machine) :
  reachable m -> _clear m = (m', Ok tt) ->
  cur_bboxes m' = [] /\ cur_labels m' = [] /\
  _changed (self m') = false /\
  _index (self m') = _index (self m) /\
  heap m' = (heap m ++ [OBoxes []; OLabels []])%list /\
  (cur_bboxes m <> [] -> fs m' = fs m) /\
  (cur_bboxes m = [] ->
   Fs.isfile (fs m) (shown_annotation_file m) = true /\
   fs m' = delete (Path.resolve (shown_annotation_file m)) (fs m)).
Proof.
  intros [Hwf Hl]%reachable_inv H.
  apply clear_ok in H as (i & Hi & H); [|done].
  apply clear_setter in H as (img & fs' & -> & Hne & He); try done.
  unfold cur_bboxes, cur_labels. cbn.
  rewrite boxes_at_new, labels_at_new.
  repeat match goal with |- _ /\ _ => split end; try done.
Qed.

Lemma clear_contract_witness :
  reachable session_drawn /\
  _clear session_drawn = (session_drawn_cleared, Ok tt) /\
  cur_bboxes session_drawn <> [] /\
  cur_bboxes session_drawn_cleared = [] /\
  fs session_drawn_cleared = fs session_drawn.
Proof.
  assert (H : _clear session_drawn = (session_drawn_cleared, Ok tt))
    by (vm_compute; reflexivity).
  assert (Hb : cur_bboxes session_drawn <> []) by (vm_compute; discriminate).
  destruct (clear_contract session_drawn session_drawn_cleared
              session_drawn_reachable H) as (E1 & _ & _ & _ & _ & E2 & _).
  split; [exact session_drawn_reachable|]. split; [exact H|].
  split; [exact Hb|]. split; [exact E1|]. exact (E2 Hb).
Defined.

(** ** Construction and the file system *)

Section ConstructionFrame.

Lemma extends_fs m m' : extends m m' -> fs m' = fs m.
Proof. by intros [? _]. Qed.

Lemma load_saved_extends folder filename m m' r :
  load_saved folder filename m = (m', r) -> extends m m'.
Proof.
  unfold load_saved. intros H.
  destruct (_parse_pascalvoc_annoation
              (Path.join (Path.join folder ANNOTATION_DEFAULT_DIR) filename) m)
    as [m1 [[b l]|e]] eqn:E.
  - rewrite (bind_run _ _ _ _ _ E) in H. mrun_in H. simplify_eq.
    rewrite parse_annotation_run in E.
    destruct (Fs.parse _ _); [done|].
    destruct (parse_root _) as [[bs ls]|]; [|done]. simplify_eq.
    split; [done|]. split; [by eexists|]. by eexists.
  - rewrite (bind_raise _ _ _ _ _ E) in H. simplify_eq.
    rewrite parse_annotation_run in E.
    destruct (Fs.parse _ _); [by simplify_eq; apply extends_refl|].
    destruct (parse_root _) as [[bs ls]|]; [done|].
    simplify_eq. apply extends_refl.
Qed.

Lemma load_loop_extends folder names m m' r :
  for_each names (load_saved folder) m = (m', r) -> extends m m'.
Proof.
  revert m. induction names as [|n names IH]; intros m H.
  - simpl in H. injection H as <- _. apply extends_refl.
  - cbn [for_each] in H.
    destruct (load_saved folder n m) as [m1 [[]|e]] eqn:E.
    + rewrite (bind_run _ _ _ _ _ E) in H.
      eapply extends_trans; [by eapply load_saved_extends|by apply IH].
    + rewrite (bind_raise _ _ _ _ _ E) in H. injection H as <- _.
      by eapply load_saved_extends.
Qed.

Lemma load_saved_annotations_extends m m' r :
  _load_saved_annotations m = (m', r) -> extends m m'.
Proof.
  rewrite load_saved_annotations_eq.
  destruct (Fs.isdir _ _); [|intros [= <- _]; apply extends_refl].
  destruct (Fs.listdir _ _); [intros [= <- _]; apply extends_refl|].
  apply load_loop_extends.
Qed.

Lemma init_fs folder obj_label fs0 m r :
  __init__ folder obj_label (boot fs0) = (m, r) -> fs m = fs0.
Proof.
  rewrite init_eq.
  destruct (Fs.isdir _ _); [|by intros [= <- _]].
  destruct (Fs.listdir _ _) as [|names]; [by intros [= <- _]|].
  destruct (nonempty _); [|by intros [= <- _]].
  intros H.
  destruct (_load_saved_annotations
              (fresh_session fs0 folder obj_label (image_paths folder names)))
    as [m1 [[]|e]] eqn:E.
  - rewrite (bind_run _ _ _ _ _ E) in H.
    apply load_saved_annotations_extends in E as (Ef & _ & ann & Es).
    rewrite index_setter_first in H by (by rewrite Es).
    apply load_incoming_fs in H. by rewrite H, Ef.
  - rewrite (bind_raise _ _ _ _ _ E) in H. injection H as <- _.
    by apply load_saved_annotations_extends in E as (Ef & _).
Qed.

End ConstructionFrame.

(** X9. Construction only reads: whether it succeeds or raises, the file
    system is afterwards as it was before. And when construction raises,
    [run] ends with that exception at once, no event is handled and nothing
    is written. *)
Theorem construction_keeps_files (fs0 : gmap string Fs.node) (folder : string)
    (obj_label : Py.pyval) (m : machine) (r : result unit) :
  __init__ folder obj_label (boot fs0) = (m, r) ->
  fs m = fs0 /\
  forall e evs, r = Raise e -> run folder obj_label evs (boot fs0) = (m, Raise e).
Proof.
  intros H. split; [by eapply init_fs|].
  intros e evs ->. unfold run. by rewrite (bind_raise _ _ _ _ _ H).
Qed.

Lemma construction_keeps_files_witness :
  fs (__init__ "/f" (Py.PStr "red roomba") (boot unreadable_image)).1
  = unreadable_image.
Proof.
  exact (proj1 (construction_keeps_files unreadable_image "/f"
                  (Py.PStr "red roomba") _ _ (surjective_pairing _))).
Defined.

(** ** Records and navigation *)

Section Records.

Lemma keeps_refl m : keeps m m.
Proof. split; [exists []; by rewrite app_nil_r|done]. Qed.

Lemma keeps_trans m1 m2 m3 : keeps m1 m2 -> keeps m2 m3 -> keeps m1 m3.
Proof.
  intros ([e1 H1] & A1 & P1) ([e2 H2] & A2 & P2). split; [|split].
  - exists (e1 ++ e2)%list. by rewrite H2, H1, app_assoc.
  - intros k r Hk. by apply A2, A1.
  - congruence.
Qed.

Lemma index_setter_keeps v m m' :
  index_setter v m = (m', Ok tt) -> keeps m m'.
Proof.
  intros (m1 & m2 & _ & _ & H3 & Eh & Es)%index_setter_ok.
  apply load_incoming_ok in H3 as (p & img & _ & _ & _ & ->).
  unfold after_load, keeps. rewrite <- Eh, <- Es.
  destruct (_annotations (self m2) !! p) as [[b l]|] eqn:Ha; cbn.
  - split; [exists []; by rewrite app_nil_r|done].
  - split; [by eexists|]. split; [|done].
    intros k r Hk. rewrite lookup_insert_ne; [done|]. congruence.
Qed.

Lemma next_image_keeps m m' : _next_image m = (m', Ok tt) -> keeps m m'.
Proof.
  unfold _next_image. mrun. destruct (_index (self m)); [|done].
  apply index_setter_keeps.
Qed.

Lemma prev_image_keeps m m' : _prev_image m = (m', Ok tt) -> keeps m m'.
Proof.
  unfold _prev_image. mrun. destruct (_index (self m)); [|done].
  apply index_setter_keeps.
Qed.

Lemma boxes_at_app h extra a o :
  h !! a = Some o -> boxes_at (h ++ extra) a = boxes_at h a.
Proof. intros H. unfold boxes_at. by rewrite (lookup_app_l_Some _ _ _ _ H), H. Qed.

Lemma labels_at_app h extra a o :
  h !! a = Some o -> labels_at (h ++ extra) a = labels_at h a.
Proof. intros H. unfold labels_at. by rewrite (lookup_app_l_Some _ _ _ _ H), H. Qed.

(** Back on the same image, the session has the same lists. *)
Lemma same_image_same_record m m' :
  wf m -> live m -> live m' -> keeps m m' ->
  _index (self m') = _index (self m) ->
  _cur_bboxes (self m') = _cur_bboxes (self m) /\
  _cur_labels (self m') = _cur_labels (self m) /\
  cur_bboxes m' = cur_bboxes m /\ cur_labels m' = cur_labels m.
Proof.
  intros [(_ & bs & ls & Hb & Hl & _) _] (i & p & Hi & _ & Hp & _ & Ha)
    (i' & p' & Hi' & _ & Hp' & _ & Ha') ([extra Hh] & Hk & HP) Hidx.
  rewrite Hi, Hi' in Hidx. injection Hidx as ->.
  rewrite HP, Hp in Hp'. injection Hp' as <-.
  rewrite (Hk _ _ Ha) in Ha'. injection Ha' as E1 E2.
  unfold cur_bboxes, cur_labels. rewrite <- E1, <- E2, Hh.
  by rewrite (boxes_at_app _ _ _ _ Hb), (labels_at_app _ _ _ _ Hl).
Qed.

Lemma repeat_next_keeps k m m' :
  wf m -> live m -> repeat_m k _next_image m = (m', Ok tt) ->
  keeps m m' /\ wf m' /\ live m'.
Proof.
  revert m. induction k as [|k IH]; intros m Hwf Hl H.
  - simpl in H. injection H as <-. split; [apply keeps_refl|done].
  - cbn [repeat_m] in H. apply bind_ok in H as ([] & m1 & H1 & H2).
    destruct (next_image_inv m m1 Hwf H1) as [Hwf1 Hl1].
    destruct (IH m1 Hwf1 Hl1 H2) as (K & ? & ?).
    split; [|done]. eapply keeps_trans; [by apply next_image_keeps|done].
Qed.

Lemma session_annotated_init :
  __init__ "/f" (Py.PStr "red roomba") (boot annotated_images)
  = (session_annotated, Ok tt).
Proof. vm_compute. reflexivity. Qed.

Lemma session_annotated_reachable : reachable session_annotated.
Proof. eapply reach_init. apply session_annotated_init. Qed.

End Records.

(** X6. Going to the next image and back, or to the previous one and back,
    when both transitions complete, shows the image the session was on with
    the list objects it had, holding the same boxes and labels: the table
    of records keeps the lists themselves. *)
Theorem record_survives_round_trip (m m1 m2 : machine) :
  reachable m ->
  (_next_image m = (m1, Ok tt) /\ _prev_image m1 = (m2, Ok tt)) \/
  (_prev_image m = (m1, Ok tt) /\ _next_image m1 = (m2, Ok tt)) ->
  _index (self m2) = _index (self m) /\
  _cur_bboxes (self m2) = _cur_bboxes (self m) /\
  _cur_labels (self m2) = _cur_labels (self m) /\
  cur_bboxes m2 = cur_bboxes m /\ cur_labels m2 = cur_labels m.
Proof.
  intros [Hwf Hl]%reachable_inv H.
  destruct Hl as (i & p & Hi & Hr & Hp & Hl).
  assert (live m) as Hlive by (by exists i, p).
  set (N := Z.of_nat (length (_img_paths (self m)))) in *.
  assert (_index (self m2) = _index (self m) /\ keeps m m2 /\ live m2)
    as (Hidx & Hk & Hl2).
  { destruct H as [[H1 H2]|[H1 H2]].
    - destruct (next_image_index m m1 i Hi H1) as [Hi1 HP1].
      destruct (prev_image_index m1 m2 _ Hi1 H2) as [Hi2 _].
      destruct (next_image_inv m m1 Hwf H1) as [Hwf1 _].
      destruct (prev_image_inv m1 m2 Hwf1 H2) as [_ Hl2].
      split; [|split; [|done]].
      + rewrite Hi2, Hi, HP1. fold N. f_equal.
        rewrite Zminus_mod_idemp_l. replace (i + 1 - 1) with i by lia.
        by apply Z.mod_small.
      + eapply keeps_trans; [by apply next_image_keeps|by apply prev_image_keeps].
    - destruct (prev_image_index m m1 i Hi H1) as [Hi1 HP1].
      destruct (next_image_index m1 m2 _ Hi1 H2) as [Hi2 _].
      destruct (prev_image_inv m m1 Hwf H1) as [Hwf1 _].
      destruct (next_image_inv m1 m2 Hwf1 H2) as [_ Hl2].
      split; [|split; [|done]].
      + rewrite Hi2, Hi, HP1. fold N. f_equal.
        rewrite Zplus_mod_idemp_l. replace (i - 1 + 1) with i by lia.
        by apply Z.mod_small.
      + eapply keeps_trans; [by apply prev_image_keeps|by apply next_image_keeps]. }
  split; [done|]. by apply same_image_same_record.
Qed.

Lemma record_survives_round_trip_witness :
  reachable session_annotated /\
  _next_image session_annotated
  = ((_next_image session_annotated).1, Ok tt) /\
  _prev_image (_next_image session_annotated).1
  = ((_prev_image (_next_image session_annotated).1).1, Ok tt) /\
  cur_bboxes (_prev_image (_next_image session_annotated).1).1
  = cur_bboxes session_annotated.
Proof.
  assert (H1 : _next_image session_annotated
               = ((_next_image session_annotated).1, Ok tt))
    by (vm_compute; reflexivity).
  assert (H2 : _prev_image (_next_image session_annotated).1
               = ((_prev_image (_next_image session_annotated).1).1, Ok tt))
    by (vm_compute; reflexivity).
  split; [exact session_annotated_reachable|]. split; [exact H1|].
  split; [exact H2|].
  exact (proj1 (proj2 (proj2 (proj2
           (record_survives_round_trip session_annotated _ _
              session_annotated_reachable (or_introl (conj H1 H2))))))).
Defined.

(** X14. The index wraps at both ends: a Next that completes goes from the
    last image to the first, a Previous that completes goes from the first
    to the last, and [k] Nexts that all complete go [k] images on, modulo
    the number of images; after a whole number of rounds the session shows
    the image it started on, with the boxes and labels it had. *)
Theorem navigation_wraps (m : machine) (i : Z) :
  reachable m -> _index (self m) = Some i ->
  let N := Z.of_nat (length (_img_paths (self m))) in
  (forall m', _next_image m = (m', Ok tt) ->
     _index (self m') = Some (if i + 1 =? N then 0 else i + 1)) /\
  (forall m', _prev_image m = (m', Ok tt) ->
     _index (self m') = Some (if i =? 0 then N - 1 else i - 1)) /\
  (forall k m', repeat_m k _next_image m = (m', Ok tt) ->
     _index (self m') = Some ((i + Z.of_nat k) mod N) /\
     (Z.of_nat k mod N = 0 ->
      _index (self m') = Some i /\
      cur_bboxes m' = cur_bboxes m /\ cur_labels m' = cur_labels m)).
Proof.
  intros [Hwf Hl]%reachable_inv Hi N.
  assert (0 <= i < N) as Hr.
  { destruct Hl as (i' & p & Hi' & Hr & _).
    rewrite Hi in Hi'. injection Hi' as <-. exact Hr. }
  split; [|split].
  - intros m' H. rewrite (proj1 (next_image_index m m' i Hi H)). fold N.
    f_equal. destruct (Z.eqb_spec (i + 1) N) as [<-|Hne].
    + by rewrite Z.mod_same by lia.
    + apply Z.mod_small. lia.
  - intros m' H. rewrite (proj1 (prev_image_index m m' i Hi H)). fold N.
    f_equal. destruct (Z.eqb_spec i 0) as [->|Hne].
    + replace (0 - 1) with (N - 1 + (-1) * N) by lia.
      rewrite Z_mod_plus_full. apply Z.mod_small. lia.
    + apply Z.mod_small. lia.
  - intros k m' H.
    pose proof (repeat_next_index k m m' i Hi Hr H) as Hk. fold N in Hk.
    split; [done|]. intros Hmod.
    assert (_index (self m') = Some i) as Hi'.
    { rewrite Hk. f_equal. rewrite Z.add_mod, Hmod, Z.add_0_r by lia.
      rewrite Z.mod_mod by lia. apply Z.mod_small. lia. }
    split; [done|].
    destruct (repeat_next_keeps k m m' Hwf Hl H) as (K & _ & Hl').
    apply (same_image_same_record m m' Hwf Hl Hl' K). congruence.
Qed.

Lemma navigation_wraps_witness :
  reachable session_annotated /\
  _index (self session_annotated) = Some 0 /\
  _index (self (repeat_m 2 _next_image session_annotated).1) = Some 0 /\
  cur_bboxes (repeat_m 2 _next_image session_annotated).1
  = cur_bboxes session_annotated.
Proof.
  assert (Hi : _index (self session_annotated) = Some 0)
    by (vm_compute; reflexivity).
  assert (H : repeat_m 2 _next_image session_annotated
              = ((repeat_m 2 _next_image session_annotated).1, Ok tt))
    by (vm_compute; reflexivity).
  destruct (navigation_wraps session_annotated 0 session_annotated_reachable Hi)
    as (_ & _ & Hk).
  destruct (Hk 2%nat _ H) as [_ Hround].
  destruct Hround as (E1 & E2 & _); [vm_compute; reflexivity|].
  split; [exact session_annotated_reachable|]. split; [exact Hi|].
  split; [exact E1|exact E2].
Defined.

(** ** Where the setter writes, and where it looks *)

Section Paths.

Lemma rfind_ge c s : -1 <= Path.rfind c s.
Proof.
  induction s as [|a r IH]; cbn [Path.rfind]; [lia|].
  destruct (0 <=? Path.rfind c r) eqn:E; [lia|]. destruct (Ascii.eqb a c); lia.
Qed.

Lemma rfind_after_last c p :
  Path.rfind c (Path.drop (Z.to_nat (Path.rfind c p + 1)) p) = -1.
Proof.
  induction p as [|a r IH]; [done|].
  cbn [Path.rfind]. pose proof (rfind_ge c r) as Hge.
  destruct (0 <=? Path.rfind c r) eqn:E.
  - apply Z.leb_le in E.
    replace (Z.to_nat (Path.rfind c r + 1 + 1))
      with (S (Z.to_nat (Path.rfind c r + 1))) by lia.
    exact IH.
  - apply Z.leb_gt in E. destruct (Ascii.eqb a c) eqn:Ea.
    + change (Z.to_nat (0 + 1)) with 1%nat. cbn [Path.drop]. lia.
    + change (Z.to_nat (-1 + 1)) with 0%nat. cbn [Path.drop Path.rfind].
      apply Z.leb_gt in E. by rewrite E, Ea.
Qed.

Lemma startswith_rfind s :
  Path.startswith_sep s = true -> 0 <= Path.rfind Path.sep s.
Proof.
  destruct s as [|a r]; [done|]. cbn [Path.startswith_sep Path.rfind].
  intros ->. pose proof (rfind_ge Path.sep r).
  destruct (0 <=? Path.rfind Path.sep r) eqn:E; lia.
Qed.

(** A base name is never an absolute path. *)
Lemma basename_not_absolute p :
  Path.startswith_sep (Path.basename p) = false.
Proof.
  destruct (Path.startswith_sep (Path.basename p)) eqn:E; [|done].
  apply startswith_rfind in E. unfold Path.basename, Path.from in E.
  rewrite rfind_after_last in E. lia.
Qed.

Lemma startswith_app a b :
  Path.startswith_sep a = true -> Path.startswith_sep (a ++ b) = true.
Proof. by destruct a. Qed.

Lemma endswith_app a c b :
  Path.endswith_sep (a ++ String c b) = Path.endswith_sep (String c b).
Proof.
  induction a as [|x a IH]; [done|]. rewrite <- IH. by destruct a.
Qed.

Lemma str_app_assoc (a b c : string) : (a ++ b) ++ c = a ++ (b ++ c).
Proof.
  induction a as [|x a IH]; [done|].
  change (String x ((a ++ b) ++ c) = String x (a ++ (b ++ c))). by f_equal.
Qed.

Lemma annotation_dir_absolute s :
  Path.startswith_sep (_folder s) = true ->
  Path.startswith_sep (annotation_dir s) = true.
Proof.
  intros H. unfold annotation_dir, Path.join.
  change (Path.startswith_sep ANNOTATION_DEFAULT_DIR) with false. cbv iota.
  destruct (_ || _); by apply startswith_app.
Qed.

Lemma annotation_dir_endswith s : Path.endswith_sep (annotation_dir s) = true.
Proof.
  unfold annotation_dir, Path.join.
  change (Path.startswith_sep ANNOTATION_DEFAULT_DIR) with false. cbv iota.
  destruct (_ || _).
  - change ANNOTATION_DEFAULT_DIR with (String "A" "nnotations/").
    by rewrite endswith_app.
  - by rewrite endswith_app.
Qed.

(** With an absolute folder, the path the setter has the codec write is the
    path [_remove_annotation_file_when_empty] looks at. *)
Lemma save_path_absolute s p :
  Path.startswith_sep (_folder s) = true ->
  Path.join (Path.join (Path.dirname (Path.splitext p).1) (annotation_dir s))
    (Path.basename (Path.splitext p).1) ++ ".xml"
  = annotation_file_path s p.
Proof.
  intros H. unfold annotation_file_path.
  set (stem := (Path.splitext p).1). set (A := annotation_dir s).
  assert (HA : Path.startswith_sep A = true) by (by apply annotation_dir_absolute).
  assert (HE : Path.endswith_sep A = true) by apply annotation_dir_endswith.
  replace (Path.join (Path.dirname stem) A) with A
    by (unfold Path.join; by rewrite HA).
  pose proof (basename_not_absolute stem) as Hn.
  assert (Path.startswith_sep (Path.basename stem ++ ".xml") = false) as Hx
    by (by destruct (Path.basename stem)).
  unfold Path.join. rewrite Hn, Hx, HE, orb_true_r. apply str_app_assoc.
Qed.

End Paths.

Section Save.

Lemma lookup_written m root path :
  path <> "" -> Path.endswith_sep path = false ->
  Fs.lookup (fs (written m root path)) path
  = Some (Fs.File (Fs.Document root)).
Proof.
  intros Hp He. unfold Fs.lookup, Fs.stat, written. cbn [fs].
  rewrite (proj2 (String.eqb_neq path "") Hp), lookup_insert_eq.
  by rewrite He.
Qed.

Lemma generate_file_ok p names boxes d m m1 :
  generate_pascvalvoc_annotation_from_image_file p names boxes (Some d) true m
  = (m1, Ok tt) ->
  exists img root,
    Fs.imread (fs m) p = Some img /\
    annotation_root img names boxes = Ok root /\
    Fs.lookup (fs m1)
      (Path.join (Path.join (Path.dirname (Path.splitext p).1) d)
         (Path.basename (Path.splitext p).1) ++ ".xml")
    = Some (Fs.File (Fs.Document root)).
Proof.
  intros H. unfold generate_pascvalvoc_annotation_from_image_file in H.
  destruct (Path.splitext p) as [stem ext]. cbn [fst].
  mrun_in H. destruct (Fs.imread (fs m) p) as [img|]; [|done].
  exists img.
  destruct (Fs.exists_ _ _); cbn [negb] in H.
  - apply generate_ok_inv in H as (root & Hr & -> & Hp & He).
    exists root. split; [done|]. split; [done|]. by apply lookup_written.
  - destruct (Fs.mkdir _ _); [done|].
    apply generate_ok_inv in H as (root & Hr & -> & Hp & He).
    exists root. split; [done|]. split; [done|]. by apply lookup_written.
Qed.

Lemma generate_file_unreadable p names boxes d overwrite m :
  Fs.imread (fs m) p = None ->
  generate_pascvalvoc_annotation_from_image_file p names boxes d overwrite m
  = (m, Raise (Py.AssertionError
                 ("generate_pascvalvoc_annotation_from_image_file(): could not read image at "
                  ++ p))).
Proof.
  intros H. unfold generate_pascvalvoc_annotation_from_image_file.
  destruct (Path.splitext p) as [stem ext]. mrun. by rewrite H.
Qed.

(** A setter call that leaves a dirty image with boxes, and completes. *)
Lemma dirty_setter_saves v m m' :
  wf m -> live m ->
  Path.startswith_sep (_folder (self m)) = true ->
  _changed (self m) = true -> cur_bboxes m <> [] ->
  index_setter v m = (m', Ok tt) ->
  exists img root,
    Fs.imread (fs m) (shown_path m) = Some img /\
    annotation_root img (cur_labels m) (cur_bboxes m) = Ok root /\
    Fs.lookup (fs m') (shown_annotation_file m)
    = Some (Fs.File (Fs.Document root)).
Proof.
  intros Hwf Hl Habs Hc Hb H.
  assert (should_save (heap m) (self m) = true) as Hs.
  { unfold should_save. rewrite Hc.
    destruct Hl as (_ & _ & _ & _ & _ & Himg & _).
    rewrite bool_decide_true by done. unfold cur_bboxes in Hb.
    by destruct (boxes_at _ _). }
  apply index_setter_ok in H as (m1 & m2 & H1 & H2 & H3 & Eh & Es).
  rewrite save_outgoing_save in H1 by done.
  pose proof (generate_file_frame _ _ _ _ _ _ _ _ H1) as [Eh1 Es1].
  apply generate_file_ok in H1 as (img & root & Hi & Hroot & Hw).
  rewrite save_path_absolute in Hw by done.
  exists img, root. split; [done|]. split; [done|].
  assert (live m1) as Hl1 by (by apply (live_same m); rewrite ?Es1).
  assert (wf m1) as Hwf1 by (by apply (wf_same m)).
  rewrite remove_when_empty_run in H2 by done.
  rewrite should_remove_nonempty in H2
    by (done || by unfold cur_bboxes; rewrite Eh1, Es1).
  injection H2 as <-. apply load_incoming_fs in H3. by rewrite H3.
Qed.

Lemma fire_setter t m :
  live m -> _changed (self m) = true ->
  exists v, fire t m = index_setter v m.
Proof.
  intros (i & _ & Hi & _) Hc.
  destruct t; simpl; [exists (i + 1)|exists (i - 1)|exists (i + 1)].
  - unfold _next_image. mrun. by rewrite Hi.
  - unfold _prev_image. mrun. by rewrite Hi.
  - unfold __exit__. mrun. by rewrite Hc, Hi.
Qed.

End Save.

(** X10. With an absolute folder, a transition (Next, Previous or Quit)
    that leaves a dirty image with boxes and completes has written that
    image's annotation: the file at the path the session looks at for this
    image then holds the document the encoder built of the image's shape,
    read from the image file again, and of the labels and boxes the record
    had. *)
Theorem dirty_transition_saves (m m' : machine) (t : transition) :
  reachable m ->
  Path.startswith_sep (_folder (self m)) = true ->
  _changed (self m) = true -> cur_bboxes m <> [] ->
  fire t m = (m', Ok tt) ->
  exists img root,
    Fs.imread (fs m) (shown_path m) = Some img /\
    annotation_root img (cur_labels m) (cur_bboxes m) = Ok root /\
    Fs.lookup (fs m') (shown_annotation_file m)
    = Some (Fs.File (Fs.Document root)).
Proof.
  intros [Hwf Hl]%reachable_inv Habs Hc Hb H.
  destruct (fire_setter t m Hl Hc) as [v Hv]. rewrite Hv in H.
  by eapply dirty_setter_saves.
Qed.

Lemma dirty_transition_saves_witness :
  reachable session_drawn /\
  Path.startswith_sep (_folder (self session_drawn)) = true /\
  _changed (self session_drawn) = true /\
  cur_bboxes session_drawn <> [] /\
  fire Quit session_drawn = ((fire Quit session_drawn).1, Ok tt) /\
  exists img root,
    Fs.imread (fs session_drawn) (shown_path session_drawn) = Some img /\
    annotation_root img (cur_labels session_drawn) (cur_bboxes session_drawn)
    = Ok root /\
    Fs.lookup (fs (fire Quit session_drawn).1)
      (shown_annotation_file session_drawn)
    = Some (Fs.File (Fs.Document root)).
Proof.
  assert (Ha : Path.startswith_sep (_folder (self session_drawn)) = true)
    by (vm_compute; reflexivity).
  assert (Hc : _changed (self session_drawn) = true) by (vm_compute; reflexivity).
  assert (Hb : cur_bboxes session_drawn <> []) by (vm_compute; discriminate).
  assert (H : fire Quit session_drawn = ((fire Quit session_drawn).1, Ok tt))
    by (vm_compute; reflexivity).
  split; [exact session_drawn_reachable|]. split; [exact Ha|].
  split; [exact Hc|]. split; [exact Hb|]. split; [exact H|].
  exact (dirty_transition_saves session_drawn _ Quit session_drawn_reachable
           Ha Hc Hb H).
Defined.

(** X11. The codec's entry point by image path reads the image first: when
    the image cannot be read it raises its assertion and nothing has
    changed, neither a file nor a folder; and whatever it returns, it
    leaves the session and the heap alone. *)
Theorem unreadable_image_rejected (p : string) (names : list Py.pyval)
    (boxes : list bbox) (d : option string) (overwrite : bool)
    (m m' : machine) (r : result unit) :
  generate_pascvalvoc_annotation_from_image_file p names boxes d overwrite m
  = (m', r) ->
  heap m' = heap m /\ self m' = self m /\
  (Fs.imread (fs m) p = None ->
   m' = m /\
   r = Raise (Py.AssertionError
                ("generate_pascvalvoc_annotation_from_image_file(): could not read image at "
                 ++ p))).
Proof.
  intros H. destruct (generate_file_frame _ _ _ _ _ _ _ _ H) as [E1 E2].
  split; [done|]. split; [done|]. intros Hi.
  rewrite generate_file_unreadable in H by done. by simplify_eq.
Qed.

Lemma unreadable_image_rejected_witness :
  generate_pascvalvoc_annotation_from_image_file "/f/a.jpg" [] []
    (Some "/f/Annotations/") true (boot unreadable_image)
  = (boot unreadable_image,
     Raise (Py.AssertionError
              ("generate_pascvalvoc_annotation_from_image_file(): could not read image at "
               ++ "/f/a.jpg"))).
Proof.
  destruct (unreadable_image_rejected "/f/a.jpg" [] [] (Some "/f/Annotations/")
              true (boot unreadable_image) _ _ (surjective_pairing _))
    as (_ & _ & H).
  destruct H as [H1 H2]; [vm_compute; reflexivity|].
  rewrite (surjective_pairing (generate_pascvalvoc_annotation_from_image_file _ _ _ _ _ _)).
  by rewrite H1, H2.
Defined.

(** ** A drag, then Quit *)

Section DragQuit.

Lemma mouse_callback_total e x y m :
  exists m', _mouse_callback e x y m = (m', Ok tt).
Proof.
  unfold _mouse_callback. mrun.
  destruct e; destruct (_bbbox_in_progress (self m)) as [[[[? ?] ?] ?]|];
    mrun; by eexists.
Qed.

Lemma loop_app evs1 evs2 m :
  loop (evs1 ++ evs2) m
  = match loop evs1 m with
    | (m1, Ok false) => loop evs2 m1
    | other => other
    end.
Proof.
  revert m. induction evs1 as [|[e x y|key] evs1 IH]; intros m.
  - done.
  - rewrite <- app_comm_cons, !loop_mouse. unfold mbind, M_bind.
    destruct (_mouse_callback e x y m) as [m1 [[]|err]]; [apply IH|done].
  - rewrite <- app_comm_cons, !loop_tick. unfold mbind, M_bind.
    destruct (update key m) as [m1 [[|]|err]]; [done|apply IH|done].
Qed.

Lemma moves_total (moves : list (Z * Z)) x2 y2 m :
  exists m1,
    loop (List.map (fun p => Mouse EVENT_MOUSEMOVE p.1 p.2) moves ++
          [Mouse EVENT_LBUTTONUP x2 y2]) m = (m1, Ok false).
Proof.
  revert m. induction moves as [|[x y] moves IH]; intros m;
    cbn [List.map app]; rewrite loop_mouse.
  - destruct (mouse_callback_total EVENT_LBUTTONUP x2 y2 m) as [m1 H].
    rewrite (bind_run _ _ _ _ _ H), loop_nil. by eexists.
  - destruct (mouse_callback_total EVENT_MOUSEMOVE x y m) as [m1 H].
    rewrite (bind_run _ _ _ _ _ H). apply IH.
Qed.

Lemma drag_total x0 y0 moves x2 y2 m :
  exists m1, loop (drag x0 y0 moves x2 y2) m = (m1, Ok false).
Proof.
  unfold drag. rewrite loop_mouse.
  destruct (mouse_callback_total EVENT_LBUTTONDOWN x0 y0 m) as [m1 H].
  rewrite (bind_run _ _ _ _ _ H). apply moves_total.
Qed.

End DragQuit.

(** X15. A box that is dragged and followed by the quit key is on disk when
    the session has ended without an error (the folder being absolute): the
    annotation file of the shown image holds the document the encoder built
    of the boxes and labels the image had, and after them the new box with
    the session's label. *)
Theorem drawn_box_saved_on_quit (m m' : machine) (x0 y0 x2 y2 : Z)
    (moves : list (Z * Z)) :
  reachable m ->
  Path.startswith_sep (_folder (self m)) = true ->
  with_annotator (loop (drag x0 y0 moves x2 y2 ++ [Tick QUIT_KEY])) m
  = (m', Ok tt) ->
  exists img root,
    Fs.imread (fs m) (shown_path m) = Some img /\
    annotation_root img
      (cur_labels m ++ [_obj_label (self m)])
      (cur_bboxes m ++ [(x0, y0, (List.last moves (x0, y0)).1,
                         (List.last moves (x0, y0)).2)])
    = Ok root /\
    Fs.lookup (fs m') (shown_annotation_file m)
    = Some (Fs.File (Fs.Document root)).
Proof.
  intros Hr Habs H.
  destruct (drag_total x0 y0 moves x2 y2 m) as [m1 E].
  pose proof (reachable_loop _ _ _ _ Hr E) as Hr1.
  destruct (reachable_inv m1 Hr1) as [Hwf1 Hl1].
  destruct (reachable_inv m Hr) as [Hwf Hl].
  unfold with_annotator in H. rewrite loop_app, E, loop_tick in H.
  assert (is_Some (_cur_img (self m1))) as Himg
    by (by destruct Hl1 as (? & ? & _ & _ & _ & ? & _)).
  rewrite (bind_run _ _ _ _ _ (update_quit m1 Himg)) in H.
  change (__exit__ m1 = (m', Ok tt)) in H.
  pose proof (drag_loop _ _ _ _ _ _ _ Hwf E) as E1.
  destruct (cur_after_update m
              (cur_bboxes m ++ [(x0, y0, (List.last moves (x0, y0)).1,
                                 (List.last moves (x0, y0)).2)])
              (cur_labels m ++ [_obj_label (self m)])
              (set_bbbox_in_progress None (set_changed true (self m))) Hwf
              eq_refl eq_refl) as [Eb El].
  rewrite <- E1 in Eb, El.
  assert (_changed (self m1) = true) as Hc by (by rewrite E1).
  destruct (fire_setter Quit m1 Hl1 Hc) as [v Hv]. simpl in Hv.
  rewrite Hv in H.
  apply dirty_setter_saves in H as (img & root & Hi & Hroot & Hw); try done.
  - exists img, root. rewrite Eb, El in Hroot.
    assert (shown_path m1 = shown_path m) as Hp by (by rewrite E1).
    assert (shown_annotation_file m1 = shown_annotation_file m) as Ha
      by (by rewrite E1).
    rewrite Hp in Hi. rewrite Ha in Hw. split; [|done]. by rewrite E1 in Hi.
  - by rewrite E1.
  - rewrite Eb. by destruct (cur_bboxes m).
Qed.

Lemma drawn_box_saved_on_quit_witness :
  reachable session_started /\
  Path.startswith_sep (_folder (self session_started)) = true /\
  with_annotator (loop (drag 10 10 [(50, 50)] 50 50 ++ [Tick QUIT_KEY]))
    session_started
  = ((with_annotator (loop (drag 10 10 [(50, 50)] 50 50 ++ [Tick QUIT_KEY]))
        session_started).1, Ok tt) /\
  exists img root,
    Fs.imread (fs session_started) (shown_path session_started) = Some img /\
    annotation_root img
      (cur_labels session_started ++ [_obj_label (self session_started)])
      (cur_bboxes session_started ++
       [(10, 10, (List.last [(50, 50)] (10, 10)).1,
         (List.last [(50, 50)] (10, 10)).2)])
    = Ok root /\
    Fs.lookup
      (fs (with_annotator (loop (drag 10 10 [(50, 50)] 50 50 ++ [Tick QUIT_KEY]))
             session_started).1)
      (shown_annotation_file session_started)
    = Some (Fs.File (Fs.Document root)).
Proof.
  assert (Ha : Path.startswith_sep (_folder (self session_started)) = true)
    by (vm_compute; reflexivity).
  assert (H : with_annotator
                (loop (drag 10 10 [(50, 50)] 50 50 ++ [Tick QUIT_KEY]))
                session_started
              = ((with_annotator
                    (loop (drag 10 10 [(50, 50)] 50 50 ++ [Tick QUIT_KEY]))
                    session_started).1, Ok tt))
    by (vm_compute; reflexivity).
  split; [exact session_started_reachable|]. split; [exact Ha|].
  split; [exact H|].
  exact (drawn_box_saved_on_quit session_started _ 10 10 50 50 [(50, 50)]
           session_started_reachable Ha H).
Defined.

(** ** Leaving an image without boxes *)

Section EmptyRecord.

Lemma empty_setter v m :
  wf m -> live m -> cur_bboxes m = [] ->
  index_setter v m
  = match Fs.remove (fs m) (shown_annotation_file m) with
    | inl e => (m, Raise e)
    | inr fs' => load_incoming v (with_fs m fs')
    end.
Proof.
  intros Hwf Hl Hb. unfold index_setter.
  rewrite (bind_run _ _ m m tt); [|apply save_outgoing_skip].
  - pose proof (remove_when_empty_run m Hl) as Hrun.
    rewrite should_remove_empty in Hrun by done.
    destruct (Fs.remove _ _) as [e|fs'].
    + by rewrite (bind_raise _ _ _ _ _ Hrun).
    + by rewrite (bind_run _ _ _ _ _ Hrun).
  - unfold should_save, cur_bboxes in *. rewrite Hb. by rewrite andb_false_r.
Qed.

Lemma annotation_file_names_file s p :
  Path.endswith_sep (annotation_file_path s p) = false.
Proof.
  unfold annotation_file_path.
  set (n := Path.basename (Path.splitext p).1).
  assert (Path.startswith_sep (n ++ ".xml") = false) as Hx.
  { pose proof (basename_not_absolute (Path.splitext p).1) as Hn.
    fold n in Hn. by destruct n. }
  unfold Path.join. rewrite Hx, annotation_dir_endswith, orb_true_r.
  rewrite <- str_app_assoc. change ".xml" with (String "." "xml").
  by rewrite endswith_app.
Qed.

(** Where the directory is there and the path could name a file, what is
    missing is the file. *)
Lemma stat_missing fs0 p e :
  Fs.stat fs0 p = inl e ->
  Path.endswith_sep p = false -> fs0 !! Fs.parent p = Some Fs.Dir ->
  e = Py.FileNotFoundError.
Proof.
  unfold Fs.stat, Fs.parent_error. intros H He Hpar.
  rewrite (climb_dir _ _ _ Hpar), He in H.
  destruct (String.eqb p ""); [by simplify_eq|].
  destruct (fs0 !! Path.resolve p) as [[|c]|]; by simplify_eq.
Qed.

End EmptyRecord.

(** X16. Leaving an image that has no boxes calls [os.remove] on its
    annotation file without asking whether the file exists: when the
    operating system finds nothing at the path the transition raises the
    error of the look-up, which is [FileNotFoundError] when the directory
    of the file is there and the file is not; when the path is a directory
    it raises [IsADirectoryError]; and in all these cases the session stays
    where it was with nothing changed. A transition that completes has
    found the file and removed it. *)
Theorem empty_record_transition (m : machine) (t : transition) :
  reachable m -> cur_bboxes m = [] ->
  t <> Quit \/ _changed (self m) = true ->
  (forall e,
     Fs.stat (fs m) (shown_annotation_file m) = inl e ->
     fire t m = (m, Raise e)) /\
  (fs m !! Fs.parent (shown_annotation_file m) = Some Fs.Dir ->
   Fs.lookup (fs m) (shown_annotation_file m) = None ->
   fire t m = (m, Raise Py.FileNotFoundError)) /\
  (Fs.lookup (fs m) (shown_annotation_file m) = Some Fs.Dir ->
   fire t m = (m, Raise Py.IsADirectoryError)) /\
  (forall m', fire t m = (m', Ok tt) ->
     Fs.isfile (fs m) (shown_annotation_file m) = true /\
     fs m' = delete (Path.resolve (shown_annotation_file m)) (fs m)).
Proof.
  intros [Hwf Hl]%reachable_inv Hb Ht.
  assert (exists v, fire t m = index_setter v m) as [v Hv].
  { destruct (live_shown m Hl) as (i & Hi & _). destruct t.
    - exists (i + 1). simpl. unfold _next_image. mrun. by rewrite Hi.
    - exists (i - 1). simpl. unfold _prev_image. mrun. by rewrite Hi.
    - destruct Ht as [|Hc]; [done|]. by apply fire_setter. }
  rewrite Hv, empty_setter by done. unfold Fs.remove, Fs.isfile, Fs.lookup.
  destruct (Fs.stat (fs m) (shown_annotation_file m)) as [e|[|c]] eqn:Est;
    repeat match goal with |- _ /\ _ => split end; try done.
  - by intros e' [= <-].
  - intros Hpar _. f_equal. f_equal.
    apply (stat_missing _ _ _ Est); [|done].
    apply annotation_file_names_file.
  - intros m' H. apply load_incoming_fs in H. done.
Qed.

Lemma empty_record_transition_witness :
  reachable session_started /\
  cur_bboxes session_started = [] /\
  Fs.stat (fs session_started) (shown_annotation_file session_started)
  = inl Py.FileNotFoundError /\
  fire Previous session_started = (session_started, Raise Py.FileNotFoundError).
Proof.
  assert (Hb : cur_bboxes session_started = []) by (vm_compute; reflexivity).
  assert (Hn : Fs.stat (fs session_started)
                 (shown_annotation_file session_started)
               = inl Py.FileNotFoundError)
    by (vm_compute; reflexivity).
  split; [exact session_started_reachable|]. split; [exact Hb|].
  split; [exact Hn|].
  refine (proj1 (empty_record_transition session_started Previous
                   session_started_reachable Hb (or_introl _)) _ Hn).
  discriminate.
Defined.

(** ** The annotation file of an image, and the image of an annotation file *)

Section Names.

Lemma rfind_app c a b :
  Path.rfind c (a ++ b)
  = if 0 <=? Path.rfind c b
    then Z.of_nat (String.length a) + Path.rfind c b
    else Path.rfind c a.
Proof.
  induction a as [|x a IH].
  - change ("" ++ b) with b. pose proof (rfind_ge c b).
    cbn [String.length Path.rfind].
    destruct (0 <=? Path.rfind c b) eqn:E; [lia|]. apply Z.leb_gt in E. lia.
  - change (String x a ++ b) with (String x (a ++ b)).
    cbn [Path.rfind String.length]. rewrite IH.
    destruct (0 <=? Path.rfind c b) eqn:E; [|done].
    apply Z.leb_le in E.
    destruct (0 <=? Z.of_nat (String.length a) + Path.rfind c b) eqn:E2;
      [lia|apply Z.leb_gt in E2; lia].
Qed.

Lemma str_length_app a b :
  String.length (a ++ b) = (String.length a + String.length b)%nat.
Proof.
  induction a as [|x a IH]; [done|].
  change (String x a ++ b) with (String x (a ++ b)).
  cbn [String.length]. by rewrite IH.
Qed.

Lemma take_app a b : Path.take (String.length a) (a ++ b) = a.
Proof.
  induction a as [|x a IH]; [done|].
  change (String x a ++ b) with (String x (a ++ b)).
  cbn [String.length Path.take]. by rewrite IH.
Qed.

Lemma drop_app a b : Path.drop (String.length a) (a ++ b) = b.
Proof.
  induction a as [|x a IH]; [done|].
  change (String x a ++ b) with (String x (a ++ b)).
  cbn [String.length Path.drop]. exact IH.
Qed.

Lemma get_app a x r :
  String.get (String.length a) (a ++ String x r) = Some x.
Proof.
  induction a as [|y a IH]; [done|].
  change (String y a ++ String x r) with (String y (a ++ String x r)).
  cbn [String.length String.get]. exact IH.
Qed.

Lemma rfind_endswith d :
  d = "" \/ Path.endswith_sep d = true ->
  Path.rfind Path.sep d = Z.of_nat (String.length d) - 1.
Proof.
  intros [->|H]; [done|]. induction d as [|x d IH]; [done|].
  destruct d as [|y d].
  - cbn [Path.endswith_sep] in H. cbn [Path.rfind String.length].
    change (0 <=? -1) with false. cbv iota. by rewrite H.
  - change (Path.endswith_sep (String y d) = true) in H.
    specialize (IH H). cbn [String.length] in IH.
    change (Path.rfind Path.sep (String x (String y d)))
      with (let i := Path.rfind Path.sep (String y d) in
            if 0 <=? i then i + 1
            else if Ascii.eqb x Path.sep then 0 else -1).
    cbv zeta. rewrite IH.
    destruct (0 <=? Z.of_nat (S (String.length d)) - 1) eqn:E;
      [cbn [String.length]; lia|apply Z.leb_gt in E; lia].
Qed.

Lemma no_sep_app a b :
  Path.rfind Path.sep a = -1 -> Path.rfind Path.sep b = -1 ->
  Path.rfind Path.sep (a ++ b) = -1.
Proof. intros Ha Hb. by rewrite rfind_app, Hb. Qed.

Lemma no_sep_not_absolute s :
  Path.rfind Path.sep s = -1 -> Path.startswith_sep s = false.
Proof.
  intros H. destruct (Path.startswith_sep s) eqn:E; [|done].
  apply startswith_rfind in E. lia.
Qed.

(** [splitext] of a path whose last component is a plain stem and an
    extension. *)
Lemma splitext_plain d a r e :
  d = "" \/ Path.endswith_sep d = true ->
  a <> Path.extsep ->
  Path.rfind Path.sep (String a r) = -1 ->
  Path.rfind Path.sep e = -1 -> Path.rfind Path.extsep e = 0 ->
  Path.splitext (d ++ String a r ++ e) = (d ++ String a r, e).
Proof.
  intros Hd Ha Hn He Hx. pose proof (rfind_endswith d Hd) as Hsd.
  assert (Hsep : Path.rfind Path.sep (d ++ String a r ++ e)
                 = Z.of_nat (String.length d) - 1).
  { rewrite rfind_app, (no_sep_app _ _ Hn He). by change (0 <=? -1) with false. }
  assert (Hdot : Path.rfind Path.extsep (d ++ String a r ++ e)
                 = Z.of_nat (String.length d) +
                   Z.of_nat (String.length (String a r))).
  { rewrite rfind_app, (rfind_app _ (String a r) e), Hx.
    change (0 <=? 0) with true. cbv iota.
    destruct (0 <=? Z.of_nat (String.length (String a r)) + 0) eqn:E;
      [lia|apply Z.leb_gt in E; lia]. }
  unfold Path.splitext. cbv zeta. rewrite Hsep, Hdot.
  cbn [String.length].
  replace (Z.to_nat (Z.of_nat (String.length d) + Z.of_nat (S (String.length r))
                     - (Z.of_nat (String.length d) - 1 + 1)))
    with (S (String.length r)) by lia.
  replace (Z.of_nat (String.length d) - 1 + 1)
    with (Z.of_nat (String.length d)) by lia.
  cbn [Path.has_non_dot]. rewrite Nat2Z.id.
  change (String a r ++ e) with (String a (r ++ e)). rewrite get_app.
  rewrite (proj2 (Ascii.eqb_neq a Path.extsep) Ha).
  destruct (_ <? _) eqn:E; [|apply Z.ltb_ge in E; lia]. cbn [andb].
  unfold Path.upto, Path.from.
  replace (Z.to_nat (Z.of_nat (String.length d) + Z.of_nat (S (String.length r))))
    with (String.length (d ++ String a r))
    by (rewrite str_length_app; cbn [String.length]; lia).
  change (String a (r ++ e)) with (String a r ++ e).
  rewrite <- str_app_assoc. by rewrite take_app, drop_app.
Qed.

Lemma basename_app d n :
  d = "" \/ Path.endswith_sep d = true ->
  Path.rfind Path.sep n = -1 ->
  Path.basename (d ++ n) = n.
Proof.
  intros Hd Hn. unfold Path.basename, Path.from.
  rewrite rfind_app, Hn. change (0 <=? -1) with false. cbv iota.
  rewrite (rfind_endswith d Hd).
  replace (Z.to_nat (Z.of_nat (String.length d) - 1 + 1))
    with (String.length d) by lia.
  apply drop_app.
Qed.

(** What [join] puts before a relative second argument. *)
Lemma join_prefix folder :
  exists d,
    (d = "" \/ Path.endswith_sep d = true) /\
    forall y, Path.startswith_sep y = false -> Path.join folder y = d ++ y.
Proof.
  unfold Path.join.
  destruct (String.eqb folder "" || Path.endswith_sep folder) eqn:E.
  - exists folder. split.
    + apply orb_prop in E as [E|E]; [left; by apply String.eqb_eq|by right].
    + by intros y ->.
  - exists (folder ++ "/"). split.
    + right. by rewrite endswith_app.
    + intros y ->. by rewrite str_app_assoc.
Qed.

Lemma image_stem folder a r :
  a <> Path.extsep -> Path.rfind Path.sep (String a r) = -1 ->
  Path.basename (Path.splitext (Path.join folder (String a r ++ ".jpg"))).1
  = String a r.
Proof.
  intros Ha Hn. destruct (join_prefix folder) as (d & Hd & Hj).
  rewrite Hj by (apply no_sep_not_absolute; by apply no_sep_app).
  rewrite splitext_plain by done. cbn [fst]. by apply basename_app.
Qed.

Lemma annotation_stem a r :
  a <> Path.extsep -> Path.rfind Path.sep (String a r) = -1 ->
  Path.basename (Path.splitext (String a r ++ ".xml")).1 = String a r.
Proof.
  intros Ha Hn.
  pose proof (splitext_plain "" a r ".xml" (or_introl eq_refl) Ha Hn
                eq_refl eq_refl) as H.
  change ("" ++ String a r ++ ".xml") with (String a r ++ ".xml") in H.
  change ("" ++ String a r) with (String a r) in H.
  rewrite H. cbn [fst]. apply (basename_app "" (String a r)); [by left|done].
Qed.

End Names.

(** X17. What one session saves, the next one attaches to the same image.
    For an image [n.jpg] of the folder whose stem [n] has no separator and
    does not begin with a dot, the annotation file the session writes and
    removes is [n.xml] in the annotation folder; and the turn of the loop of
    [_load_saved_annotations] that reads the file named [n.xml] files the
    boxes and labels of its object blocks, as two new lists, under the path
    of [n.jpg]. *)
Theorem saved_annotation_reloaded (m m' : machine) (a : ascii) (r : string) :
  a <> Path.extsep -> Path.rfind Path.sep (String a r) = -1 ->
  let image := Path.join (_folder (self m)) (String a r ++ ".jpg") in
  let filename := String a r ++ ".xml" in
  annotation_file_path (self m) image
  = Path.join (annotation_dir (self m)) filename /\
  (load_saved (_folder (self m)) filename m = (m', Ok tt) ->
   exists root b l,
     Fs.parse (fs m) (annotation_file_path (self m) image) = inr root /\
     _annotations (self m') !! image = Some (b, l) /\
     decodes_to root (boxes_at (heap m') b) (labels_at (heap m') l)).
Proof.
  intros Ha Hn image filename.
  assert (annotation_file_path (self m) image
          = Path.join (annotation_dir (self m)) filename) as Hpath.
  { unfold annotation_file_path, image. by rewrite image_stem. }
  split; [done|]. rewrite Hpath. unfold load_saved.
  intros ([b l] & m1 & H1 & H2)%bind_ok.
  rewrite parse_annotation_run in H1.
  change (Path.join (Path.join (_folder (self m)) ANNOTATION_DEFAULT_DIR)
            filename)
    with (Path.join (annotation_dir (self m)) filename) in H1.
  destruct (Fs.parse (fs m) _) as [|root]; [done|].
  destruct (parse_root root) as [[bs ls]|] eqn:Hroot; [|done].
  injection H1 as <- <- <-. mrun_in H2. injection H2 as <-.
  exists root, (length (heap m)), (S (length (heap m))).
  split; [done|]. cbn [self heap _annotations set_annotations]. split.
  - unfold filename. rewrite annotation_stem by done. apply lookup_insert_eq.
  - rewrite boxes_at_new, labels_at_new. by apply parse_root_ok.
Qed.

Lemma saved_annotation_reloaded_witness :
  annotation_file_path (self session_constructing) "/f/a.jpg"
  = "/f/Annotations/a.xml" /\
  exists root b l,
    Fs.parse (fs session_constructing)
      (annotation_file_path (self session_constructing) "/f/a.jpg")
    = inr root /\
    _annotations (self (load_saved "/f" "a.xml" session_constructing).1)
      !! "/f/a.jpg"
    = Some (b, l) /\
    decodes_to root
      (boxes_at (heap (load_saved "/f" "a.xml" session_constructing).1) b)
      (labels_at (heap (load_saved "/f" "a.xml" session_constructing).1) l).
Proof.
  assert (Ha : ("a" : ascii) <> Path.extsep) by discriminate.
  assert (Hn : Path.rfind Path.sep (String "a" "") = -1)
    by (vm_compute; reflexivity).
  assert (H : load_saved (_folder (self session_constructing))
                (String "a" "" ++ ".xml") session_constructing
              = ((load_saved "/f" "a.xml" session_constructing).1, Ok tt))
    by (vm_compute; reflexivity).
  destruct (saved_annotation_reloaded session_constructing
              (load_saved "/f" "a.xml" session_constructing).1 "a" ""
              Ha Hn) as [H1 H2].
  split; [exact H1|]. exact (H2 H).
Defined.

(** ** What construction sets up *)

Section Setup.

Lemma same_setup_refl m : same_setup m m.
Proof. done. Qed.

Lemma same_setup_trans m1 m2 m3 :
  same_setup m1 m2 -> same_setup m2 m3 -> same_setup m1 m3.
Proof. unfold same_setup. intros (? & ? & ?) (? & ? & ?). split_and!; congruence. Qed.

Lemma index_setter_setup v m m' :
  index_setter v m = (m', Ok tt) ->
  same_setup m m' /\
  _bbbox_in_progress (self m') = _bbbox_in_progress (self m).
Proof.
  intros (m1 & m2 & _ & _ & H3 & _ & Es)%index_setter_ok.
  apply load_incoming_ok in H3 as (p & img & _ & _ & _ & ->).
  unfold after_load, same_setup. rewrite <- Es.
  by destruct (_annotations (self m2) !! p) as [[b l]|].
Qed.

Lemma mouse_callback_setup e x y m m' r :
  _mouse_callback e x y m = (m', r) -> same_setup m m'.
Proof.
  unfold _mouse_callback. mrun.
  destruct e; destruct (_bbbox_in_progress (self m)) as [[[[? ?] ?] ?]|];
    mrun; by intros [= <- _].
Qed.

Lemma undo_setup m m' r : _undo m = (m', r) -> same_setup m m'.
Proof.
  unfold _undo. mrun. destruct (_ && _); mrun; by intros [= <- _].
Qed.

Lemma next_image_setup m m' : _next_image m = (m', Ok tt) -> same_setup m m'.
Proof.
  unfold _next_image. mrun. destruct (_index (self m)); [|done].
  by intros [? _]%index_setter_setup.
Qed.

Lemma prev_image_setup m m' : _prev_image m = (m', Ok tt) -> same_setup m m'.
Proof.
  unfold _prev_image. mrun. destruct (_index (self m)); [|done].
  by intros [? _]%index_setter_setup.
Qed.

Lemma clear_setup m m' : live m -> _clear m = (m', Ok tt) -> same_setup m m'.
Proof.
  intros Hl (i & _ & [H _]%index_setter_setup)%clear_ok; done.
Qed.

Lemma update_setup key m m' q :
  live m -> update key m = (m', Ok q) -> same_setup m m'.
Proof.
  intros Hl H. unfold update in H. mrun_in H.
  destruct (_cur_img (self m)); [|done].
  repeat (destruct (Ascii.eqb key _); mrun_in H); simplify_eq; try done.
  - destruct (_next_image m) as [m1 [[]|]] eqn:E; simplify_eq.
    by apply next_image_setup.
  - destruct (_prev_image m) as [m1 [[]|]] eqn:E; simplify_eq.
    by apply prev_image_setup.
  - destruct (_clear m) as [m1 [[]|]] eqn:E; simplify_eq.
    by apply clear_setup.
  - destruct (_undo m) as [m1 [[]|]] eqn:E; simplify_eq.
    by eapply undo_setup.
Qed.

Lemma loop_setup evs m m' q :
  reachable m -> loop evs m = (m', Ok q) -> same_setup m m'.
Proof.
  revert m. induction evs as [|[e x y|key] evs IH]; intros m Hr H.
  - rewrite loop_nil in H. by simplify_eq.
  - rewrite loop_mouse in H. apply bind_ok in H as ([] & m1 & H1 & H2).
    eapply same_setup_trans; [by eapply mouse_callback_setup|].
    apply IH; [|done]. by eapply reach_mouse.
  - rewrite loop_tick in H. apply bind_ok in H as (q1 & m1 & H1 & H2).
    destruct (reachable_inv m Hr) as [_ Hl].
    pose proof (update_setup key m m1 q1 Hl H1) as Hs.
    destruct q1; [mrun_in H2; by simplify_eq|].
    eapply same_setup_trans; [done|]. apply IH; [|done].
    by eapply reach_update.
Qed.

Lemma init_setup folder obj_label fs0 names m :
  __init__ folder obj_label (boot fs0) = (m, Ok tt) ->
  Fs.listdir fs0 folder = inr names ->
  _folder (self m) = folder /\ _obj_label (self m) = obj_label /\
  _img_paths (self m) = image_paths folder names /\
  _index (self m) = Some 0 /\ _changed (self m) = false /\
  _bbbox_in_progress (self m) = None.
Proof.
  rewrite init_eq. intros H Hn. rewrite Hn in H.
  destruct (Fs.isdir fs0 folder); [|done].
  destruct (nonempty (image_paths folder names)); [|done].
  apply bind_ok in H as ([] & m1 & H1 & H2).
  apply load_saved_annotations_extends in H1 as (_ & _ & ann & Es).
  destruct (index_setter_setup 0 m1 m H2) as [(E1 & E2 & E3) E4].
  destruct (index_setter_index 0 m1 m H2) as (E5 & _ & E6).
  rewrite Es in *. cbn in *. rewrite Zmod_0_l in E5. done.
Qed.

End Setup.

(** X18. Construction, when it succeeds, has the session on the first image,
    not dirty and with no draw in progress, with the folder and the label it
    was given and with the paths of the files of the folder whose name
    contains the image extension; and whatever events follow, the folder,
    the label and the image paths stay as they are. *)
Theorem session_setup_constant (fs0 : gmap string Fs.node) (folder : string)
    (obj_label : Py.pyval) (names : list string) (m : machine) :
  __init__ folder obj_label (boot fs0) = (m, Ok tt) ->
  Fs.listdir fs0 folder = inr names ->
  (_folder (self m) = folder /\ _obj_label (self m) = obj_label /\
   _img_paths (self m) = image_paths folder names /\
   _index (self m) = Some 0 /\ _changed (self m) = false /\
   _bbbox_in_progress (self m) = None) /\
  forall evs m' q,
    loop evs m = (m', Ok q) ->
    _folder (self m') = folder /\ _obj_label (self m') = obj_label /\
    _img_paths (self m') = image_paths folder names.
Proof.
  intros H Hn. pose proof (init_setup _ _ _ _ _ H Hn) as Hi.
  split; [done|]. intros evs m' q Hloop.
  destruct Hi as (E1 & E2 & E3 & _).
  destruct (loop_setup evs m m' q (reach_init _ _ _ _ H) Hloop)
    as (F1 & F2 & F3).
  split_and!; congruence.
Qed.

Lemma session_setup_constant_witness :
  _index (self session_started) = Some 0 /\
  _obj_label (self session_drawn) = Py.PStr "red roomba" /\
  _img_paths (self session_drawn) = image_paths "/f" ["a.jpg"; "b.jpg"].
Proof.
  assert (Hn : Fs.listdir two_images "/f" = inr ["a.jpg"; "b.jpg"])
    by (vm_compute; reflexivity).
  destruct (session_setup_constant two_images "/f" (Py.PStr "red roomba")
              ["a.jpg"; "b.jpg"] session_started session_started_init Hn)
    as [(_ & _ & _ & Hi & _) Hloop].
  destruct (Hloop _ _ _ session_drawn_loop) as (_ & H2 & H3).
  split; [exact Hi|]. split; [exact H2|exact H3].
Defined.
